(** * Notification service: resilient delivery orchestration

    A shallow embedding of the Go packages [repository], [client],
    [service] and [handler] of fw-challenge-notification-service, with the
    properties of the delivery engine stated and proved over it.

    Conventions.
    - A Go interface is a record of functions over a world type [W]; a method
      call threads the world, [W -> result * W].
    - A Go [(value, error)] result is a pair whose second component is
      [option error]; [None] is the nil error.
    - The service records every call it makes on a collaborator in a trace,
      in call order, so that "which calls were made" is a statement about a
      list of events. *)

From Stdlib Require Import ZArith Lia List Bool SpecFloat Sorted.
From stdpp Require Import base gmap strings list.

Local Open Scope string_scope.
Local Open Scope Z_scope.
Local Open Scope list_scope.

(** ** Go values shared by the packages *)

(** Error values.  [New] is [errors.New] / [fmt.Errorf] (an error known by
    its message), the others are the sentinel and wrapper errors of the
    libraries the code uses. *)
Inductive error : Type :=
  | New (msg : string)
  | ErrRecordNotFound                         (* gorm.ErrRecordNotFound *)
  | Canceled                                  (* context.Canceled *)
  | DeadlineExceeded                          (* context.DeadlineExceeded *)
  | ErrOpenState                              (* gobreaker.ErrOpenState *)
  | ErrTooManyRequests                        (* gobreaker.ErrTooManyRequests *)
  | UrlError (op url : string) (err : error). (* *url.Error, from net/http *)

(** A [context.Context] as the code observes it: the value of [ctx.Err()]
    at the moment of a call. *)
Record Context : Type := mkContext { ctx_err : option error }.

Definition Background : Context := mkContext None.

(** ** A small state monad *)

Definition M (S A : Type) : Type := S -> A * S.

Definition ret {S A : Type} (a : A) : M S A := fun s => (a, s).

Definition bind {S A B : Type} (m : M S A) (k : A -> M S B) : M S B :=
  fun s => let (a, s') := m s in k a s'.

Notation "'let*' x ':=' m 'in' k" := (bind m (fun x => k))
  (at level 10, x pattern, m at level 100, k at level 200).

(** A computation on one component of a product world. *)
Definition on_fst {A B R : Type} (m : M A R) : M (A * B) R :=
  fun w => let (r, a') := m (fst w) in (r, (a', snd w)).

Definition on_snd {A B R : Type} (m : M B R) : M (A * B) R :=
  fun w => let (r, b') := m (snd w) in (r, (fst w, b')).

(** ** package repository *)

Module repository.

Inductive NotificationProvider : Type :=
  | EmailProvider
  | PushNotificationProvider.

(** [providerName] and [String()]. *)
Definition NotificationProvider_String (x : NotificationProvider) : string :=
  match x with
  | EmailProvider => "Email"
  | PushNotificationProvider => "PushNotification"
  end.

(** [NotificationPreference]: the embedded [gorm.Model] followed by the
    three columns the struct maps. *)
Record NotificationPreference : Type := mkPreference {
  ID : Z;
  CreatedAt : Z;
  UpdatedAt : Z;
  DeletedAt : option Z;
  Host : string;
  ProviderName : string;
  SecretKey : string
}.

Section Providers.
Context {W : Type}.

(** [CacheProvider] *)
Record CacheProvider : Type := {
  cache_Get : NotificationProvider ->
              M W (list NotificationPreference * option error);
  cache_Set : NotificationProvider -> list NotificationPreference ->
              M W (option error)
}.

(** [PersistentProvider] *)
Record PersistentProvider : Type := {
  FindByProviderType : Context -> NotificationProvider ->
                       M W (list NotificationPreference * option error)
}.
End Providers.
Arguments CacheProvider W : clear implicits.
Arguments PersistentProvider W : clear implicits.

(** *** cache.go *)

(** The ristretto engine as [Cache] uses it: a key-value store whose
    items carry an optional expiration, read against the engine's clock.
    Writes are taken as applied when [SetWithTTL] returns, and nothing is
    evicted before its expiration. *)
Record Item : Type := mkItem {
  item_value : list NotificationPreference;
  item_expiration : option Z
}.

Record Engine : Type := mkEngine {
  items : gmap string Item;
  now : Z
}.

Definition expired (e : Engine) (it : Item) : bool :=
  match item_expiration it with
  | None => false
  | Some t => t <? now e
  end.

Definition Engine_Get (key : string) (e : Engine)
  : list NotificationPreference * bool :=
  match items e !! key with
  | Some it => if expired e it then ([], false) else (item_value it, true)
  | None => ([], false)
  end.

(** A zero [ttl] stores without expiration, a negative one stores
    nothing. *)
Definition Engine_SetWithTTL (key : string)
    (value : list NotificationPreference) (cost ttl : Z) (e : Engine)
  : bool * Engine :=
  if ttl <? 0 then (false, e)
  else
    let expiration := if ttl =? 0 then None else Some (now e + ttl) in
    (true, mkEngine (<[key := mkItem value expiration]> (items e)) (now e)).

Record Cache : Type := mkCache {
  engine : Engine;
  expiredTime : Z
}.

(** [fmt.Sprintf(cacheKeyPattern, s)] *)
Definition cacheKeyPattern (s : string) : string :=
  ("notification:preferences:" ++ s)%string.

Definition cache_not_found (cacheKey : string) : error :=
  New ("cache key: '" ++ cacheKey ++ "' not found")%string.

(** [NewCache], on an engine started at time [t0]. *)
Definition NewCache (ExpiredTime t0 : Z) : Cache :=
  mkCache (mkEngine ∅ t0) ExpiredTime.

(** [Cache.Get] *)
Definition Cache_Get (key : NotificationProvider)
  : M Cache (list NotificationPreference * option error) :=
  fun c =>
    let cacheKey := cacheKeyPattern (NotificationProvider_String key) in
    let (value, found) := Engine_Get cacheKey (engine c) in
    if negb found then (([], Some (cache_not_found cacheKey)), c)
    else ((value, None), c).

(** [Cache.Set] *)
Definition Cache_Set (key : NotificationProvider)
    (values : list NotificationPreference) : M Cache (option error) :=
  fun c =>
    let cacheKey := cacheKeyPattern (NotificationProvider_String key) in
    let (_, engine') :=
      Engine_SetWithTTL cacheKey values 1 (expiredTime c) (engine c) in
    (None, mkCache engine' (expiredTime c)).

(** The engine's clock moving forward by [d]. *)
Definition elapse (d : Z) (c : Cache) : Cache :=
  mkCache (mkEngine (items (engine c)) (now (engine c) + d)) (expiredTime c).

(** No entry of the cache holds an empty list. *)
Definition nonempty_entries (c : Cache) : Prop :=
  forall k it, items (engine c) !! k = Some it -> item_value it <> [].

Definition Cache_CacheProvider : CacheProvider Cache :=
  {| cache_Get := Cache_Get; cache_Set := Cache_Set |}.

(** *** persistent.go *)

(** A row of table [notification_preferences]. *)
Record Row : Type := mkRow {
  row_id : Z;
  row_provider_type : string;
  row_provider_name : string;
  row_host : string;
  row_priority : option Z;
  row_secret_key : string;
  row_created_at : Z;
  row_deleted_at : option Z
}.

(** The connection: the table as it stands, and the error the database
    answers with when it cannot serve a query. *)
Record DB : Type := mkDB {
  table : list Row;
  db_err : option error
}.

Record Persistent : Type := mkPersistent { conn : DB }.

(** [Where("provider_type = ?", p).Where("deleted_at IS NULL")] *)
Definition selected (p : string) (r : Row) : bool :=
  String.eqb (row_provider_type r) p
  && match row_deleted_at r with None => true | Some _ => false end.

(** [Order("priority")]: ascending, NULL last, ties in table order. *)
Definition priority_le (a b : option Z) : bool :=
  match a, b with
  | Some x, Some y => x <=? y
  | Some _, None => true
  | None, Some _ => false
  | None, None => true
  end.

Fixpoint insert_row (r : Row) (l : list Row) : list Row :=
  match l with
  | [] => [r]
  | x :: xs =>
      if priority_le (row_priority r) (row_priority x) then r :: l
      else x :: insert_row r xs
  end.

Definition order_by_priority (l : list Row) : list Row :=
  foldr insert_row [] l.

(** A row read into the struct: the columns the struct has no field for
    ([provider_type], [priority]) are dropped. *)
Definition scan (r : Row) : NotificationPreference :=
  mkPreference (row_id r) (row_created_at r) 0 (row_deleted_at r)
               (row_host r) (row_provider_name r) (row_secret_key r).

(** [gorm.G[NotificationPreference](conn).Where(..).Where(..).Order(..).Find(ctx)] *)
Definition Find (ctx : Context) (p : string) (db : DB)
  : list NotificationPreference * option error :=
  match ctx_err ctx with
  | Some err => ([], Some err)
  | None =>
      match db_err db with
      | Some err => ([], Some err)
      | None =>
          (map scan (order_by_priority (List.filter (selected p)
                                                    (table db))), None)
      end
  end.

(** [Persistent.FindByProviderType] *)
Definition Persistent_FindByProviderType (ctx : Context)
    (provider : NotificationProvider)
  : M Persistent (list NotificationPreference * option error) :=
  fun p =>
    let (preferences, err) :=
      Find ctx (NotificationProvider_String provider) (conn p) in
    match err with
    | Some err => (([], Some err), p)
    | None =>
        if (length preferences =? 0)%nat
        then (([], Some ErrRecordNotFound), p)
        else ((preferences, None), p)
    end.

Definition Persistent_PersistentProvider : PersistentProvider Persistent :=
  {| FindByProviderType := Persistent_FindByProviderType |}.

End repository.

(** ** package client *)

Module client.

(** *** request.go *)

Record NotificationRequest : Type := mkRequest {
  To : string;
  Title : string;
  Message : string;
  SecretKey : string
}.

(** [req.SecretKey = k] on a request held by value. *)
Definition with_SecretKey (req : NotificationRequest) (k : string)
  : NotificationRequest :=
  mkRequest (To req) (Title req) (Message req) k.

(** [HTTPClientProvider] *)
Record HTTPClientProvider (W : Type) : Type := {
  Post : Context -> string -> NotificationRequest -> M W (option error)
}.
Arguments Post {W} _ _ _ _.

(** *** circuit breaker registry *)

(** Go's [float64] is IEEE 754 binary64: [spec_float] at precision 53 and
    maximal exponent 1024. *)
Definition float64 : Type := spec_float.
Definition prec : Z := 53.
Definition emax : Z := 1024.

(** [float64(n)] for an unsigned 32-bit [n]; the conversion is exact. *)
Definition float64_of_uint32 (n : Z) : float64 :=
  binary_normalize prec emax n 0 false.

Definition float64_div (x y : float64) : float64 := SFdiv prec emax x y.

(** [x >= y] on [float64]; false when either side is NaN. *)
Definition float64_ge (x y : float64) : bool := SFleb y x.

(** [gobreaker.Counts]; the fields are [uint32]. *)
Record Counts : Type := mkCounts {
  Requests : Z;
  TotalSuccesses : Z;
  TotalFailures : Z;
  ConsecutiveSuccesses : Z;
  ConsecutiveFailures : Z
}.

Record CircuitBreakerRegistryConfig : Type := mkConfig {
  MaxHalfOpenRequests : Z;
  OpenStateTimeout : Z;
  MinRequestsBeforeTrip : Z;
  FailureThresholdPercent : float64
}.

(** The [ReadyToTrip] closure built by [NewCircuitBreakerRegistry]. *)
Definition ReadyToTrip (Config : CircuitBreakerRegistryConfig)
    (counts : Counts) : bool :=
  let failureRatio :=
    float64_div (float64_of_uint32 (TotalFailures counts))
                (float64_of_uint32 (Requests counts)) in
  (MinRequestsBeforeTrip Config <=? Requests counts)
  && float64_ge failureRatio
       (float64_div (FailureThresholdPercent Config)
                    (float64_of_uint32 100)).

(** The policy in exact arithmetic, in hundredths: enough requests, and
    failures over requests at least [pct] per cent. *)
Definition trips_exactly (min pct requests failures : Z) : bool :=
  (min <=? requests) && (pct * requests <=? 100 * failures).

(** The closure agrees with the exact policy at 3 requests and 60 per
    cent on every window of at most [n] requests. *)
Definition agrees_upto (n : Z) : bool :=
  forallb
    (fun requests =>
       forallb
         (fun failures =>
            Bool.eqb
              (ReadyToTrip (mkConfig 5 60000000000 3 (float64_of_uint32 60))
                           (mkCounts requests 0 failures 0 0))
              (trips_exactly 3 60 requests failures))
         (seqZ 0 (requests + 1)))
    (seqZ 1 n).

(** [gobreaker.Settings], the fields the registry sets. *)
Record Settings : Type := mkSettings {
  Name : string;
  MaxRequests : Z;
  Timeout : Z;
  Settings_ReadyToTrip : Counts -> bool
}.

Inductive State : Type := StateClosed | StateHalfOpen | StateOpen.

(** [CircuitBreakerResponse] *)
Record CircuitBreakerResponse : Type := mkResponse {
  Body : string;
  StatusCode : Z
}.

Definition zero_response : CircuitBreakerResponse := mkResponse "" 0.

(** What [http.Client.Do] hands back: the status, and what reading the
    body to its end gives. *)
Record http_Response : Type := mkHTTPResponse {
  resp_StatusCode : Z;
  resp_ReadAll : string * option error
}.

(** The libraries under the client, taken as given: [net/url], [net/http]
    over a network [Net], and the state machine inside a
    [gobreaker.CircuitBreaker] read against a clock. *)
Class Libs : Type := {
  Net : Type;
  url_Host : string -> string * option error;
  http_Do : Context -> string -> NotificationRequest ->
            M Net (http_Response * option error);
  Breaker : Type;
  gobreaker_New : Settings -> Breaker;
  gobreaker_State : Z -> Breaker -> State * Breaker;
  gobreaker_beforeRequest : Z -> Breaker -> option error * Breaker;
  gobreaker_afterRequest : Z -> bool -> Breaker -> Breaker
}.

Section Client.
Context `{Libs}.

(** A [*gobreaker.CircuitBreaker] is an address in [heap]; the object
    there has the name it was built with and its private state. *)
Record CircuitBreaker : Type := mkCircuitBreaker {
  cb_Name : string;
  cb_state : Breaker
}.

Record CircuitBreakerRegistry : Type := mkRegistry {
  breakers : gmap string nat;       (* *sync.Map: host to pointer *)
  settings : Settings
}.

(** The client's share of the process: the registry, the breakers
    allocated so far, the network and the clock. *)
Record Process : Type := mkProcess {
  registry : CircuitBreakerRegistry;
  heap : list CircuitBreaker;
  net : Net;
  clock : Z
}.

(** [NewCircuitBreakerRegistry] *)
Definition NewCircuitBreakerRegistry
    (Config : CircuitBreakerRegistryConfig) : CircuitBreakerRegistry :=
  mkRegistry ∅
    (mkSettings "" (MaxHalfOpenRequests Config) (OpenStateTimeout Config)
                (ReadyToTrip Config)).

(** [gobreaker.NewCircuitBreaker(settings)]: a fresh object. *)
Definition NewCircuitBreaker (st : Settings) : M Process nat :=
  fun p =>
    (length (heap p),
     mkProcess (registry p)
               (heap p ++ [mkCircuitBreaker (Name st) (gobreaker_New st)])
               (net p) (clock p)).

(** [r.breakers.Load(host)] *)
Definition Load (host : string) : M Process (option nat) :=
  fun p => (breakers (registry p) !! host, p).

(** [r.breakers.LoadOrStore(host, cb)] *)
Definition LoadOrStore (host : string) (cb : nat) : M Process (nat * bool) :=
  fun p =>
    match breakers (registry p) !! host with
    | Some actual => ((actual, true), p)
    | None =>
        ((cb, false),
         mkProcess (mkRegistry (<[host := cb]> (breakers (registry p)))
                               (settings (registry p)))
                   (heap p) (net p) (clock p))
    end.

Definition with_Name (st : Settings) (host : string) : Settings :=
  mkSettings host (MaxRequests st) (Timeout st) (Settings_ReadyToTrip st).

(** [GetOrCreate] *)
Definition GetOrCreate (host : string) : M Process nat :=
  let* found := Load host in
  match found with
  | Some cb => ret cb
  | None =>
      fun p =>
        let settings := with_Name (settings (registry p)) host in
        (let* cb := NewCircuitBreaker settings in
         let* actual := LoadOrStore host cb in
         ret (fst actual)) p
  end.

(** [GetOrCreate] as its callers run it side by side: [Load] and
    [LoadOrStore] are each atomic on the [sync.Map], and another caller
    may run between the two. *)
Inductive Caller : Type :=
  | AtLoad (host : string)
  | AtLoadOrStore (host : string) (cb : nat)
  | Returned (host : string) (cb : nat).

Definition caller_step (c : Caller) : M Process Caller :=
  match c with
  | AtLoad host =>
      let* found := Load host in
      match found with
      | Some cb => ret (Returned host cb)
      | None =>
          fun p =>
            let settings := with_Name (settings (registry p)) host in
            (let* cb := NewCircuitBreaker settings in
             ret (AtLoadOrStore host cb)) p
      end
  | AtLoadOrStore host cb =>
      let* actual := LoadOrStore host cb in
      ret (Returned host (fst actual))
  | Returned host cb => ret (Returned host cb)
  end.

(** One scheduling decision: caller number [i] takes its next step. *)
Definition pool_step (i : nat) (pool : list Caller) : M Process (list Caller) :=
  match pool !! i with
  | Some c => let* c' := caller_step c in ret (<[i := c']> pool)
  | None => ret pool
  end.

Fixpoint pool_run (sched : list nat) (pool : list Caller)
  : M Process (list Caller) :=
  match sched with
  | [] => ret pool
  | i :: sched' =>
      let* pool' := pool_step i pool in pool_run sched' pool'
  end.

(** Every caller taking one step, in pool order. *)
Fixpoint pool_sweep (pool : list Caller) : M Process (list Caller) :=
  match pool with
  | [] => ret []
  | c :: rest =>
      let* c' := caller_step c in
      let* rest' := pool_sweep rest in
      ret (c' :: rest')
  end.

Definition caller_result (c : Caller) : option nat :=
  match c with
  | Returned _ cb => Some cb
  | _ => None
  end.

Definition caller_host (c : Caller) : string :=
  match c with
  | AtLoad host | AtLoadOrStore host _ | Returned host _ => host
  end.

(** Concurrent calls [GetOrCreate(h)] for [h] in [hosts], interleaved as
    [sched] says; callers the schedule leaves unfinished then run to
    their end (a caller has at most two steps). *)
Definition GetOrCreate_concurrently (sched : list nat) (hosts : list string)
  : M Process (list Caller) :=
  let* pool := pool_run sched (AtLoad <$> hosts) in
  let* pool := pool_sweep pool in
  pool_sweep pool.

(** Every host the registry knows points at an allocated breaker that
    carries the host as its name. *)
Definition wf_registry (p : Process) : Prop :=
  forall host cb,
    breakers (registry p) !! host = Some cb ->
    exists o, heap p !! cb = Some o /\ cb_Name o = host.

(** What holds of a caller where it stands: the breaker it has built is
    allocated under its host's name; the breaker it has returned is the
    one the registry holds for its host. *)
Definition caller_ok (p : Process) (c : Caller) : Prop :=
  match c with
  | AtLoad _ => True
  | AtLoadOrStore host cb =>
      exists o, heap p !! cb = Some o /\ cb_Name o = host
  | Returned host cb => breakers (registry p) !! host = Some cb
  end.

(** The process only grows: breakers are added at the end of the heap
    and hosts are added to the registry. *)
Definition grows (p p' : Process) : Prop :=
  heap p `prefix_of` heap p'
  /\ breakers (registry p) ⊆ breakers (registry p').

Definition steps_left (c : Caller) : nat :=
  match c with
  | AtLoad _ => 2
  | AtLoadOrStore _ _ => 1
  | Returned _ _ => 0
  end.

(** *** client.go *)

Definition extractHost (u : string) : string * option error :=
  match snd (url_Host u) with
  | Some err => ("", Some err)
  | None => (fst (url_Host u), None)
  end.

Definition store_breaker (cb : nat) (b : Breaker) (p : Process) : Process :=
  match heap p !! cb with
  | Some o =>
      mkProcess (registry p) (<[cb := mkCircuitBreaker (cb_Name o) b]> (heap p))
                (net p) (clock p)
  | None => p
  end.

Definition nil_dereference : error :=
  New "invalid memory address or nil pointer dereference".

(** [circuitBreaker.State()] *)
Definition Breaker_State (cb : nat) : M Process (option State) :=
  fun p =>
    match heap p !! cb with
    | Some o =>
        let (st, b) := gobreaker_State (clock p) (cb_state o) in
        (Some st, store_breaker cb b p)
    | None => (None, p)
    end.

(** [circuitBreaker.Execute(req)]: the request runs only when
    [beforeRequest] lets it through, and its outcome is then recorded;
    an outcome is a success when its error is nil. *)
Definition Execute (cb : nat)
    (req : M Net (CircuitBreakerResponse * option error))
  : M Process (CircuitBreakerResponse * option error) :=
  fun p =>
    match heap p !! cb with
    | None => ((zero_response, Some nil_dereference), p)
    | Some o =>
        let (err, b) := gobreaker_beforeRequest (clock p) (cb_state o) in
        match err with
        | Some err => ((zero_response, Some err), store_breaker cb b p)
        | None =>
            let (r, net') := req (net p) in
            let success :=
              match snd r with None => true | Some _ => false end in
            let b' := gobreaker_afterRequest (clock p) success b in
            (r, store_breaker cb b'
                  (mkProcess (registry p) (heap p) net' (clock p)))
        end
    end.

(** The function [Post] hands to [Execute]. *)
Definition do_request (ctx : Context) (u : string)
    (reqBody : NotificationRequest)
  : M Net (CircuitBreakerResponse * option error) :=
  let* r := http_Do ctx u reqBody in
  match snd r with
  | Some err => ret (zero_response, Some err)
  | None =>
      match snd (resp_ReadAll (fst r)) with
      | Some err => ret (zero_response, Some err)
      | None =>
          ret (mkResponse (fst (resp_ReadAll (fst r)))
                          (resp_StatusCode (fst r)), None)
      end
  end.

Definition status_not_200 : error :=
  New "response status code not equal 200".

(** [HTTPClient.Post].  [json.Marshal] of four strings and
    [http.NewRequestWithContext] on a URL [url.Parse] has accepted do not
    fail; metrics and logs do not bear on the result. *)
Definition HTTPClient_Post (ctx : Context) (u : string)
    (reqBody : NotificationRequest) : M Process (option error) :=
  let (host, err) := extractHost u in
  match err with
  | Some err => ret (Some err)
  | None =>
      let* circuitBreaker := GetOrCreate host in
      let* _ := Breaker_State circuitBreaker in
      let* r := Execute circuitBreaker (do_request ctx u reqBody) in
      match snd r with
      | Some err => ret (Some err)
      | None =>
          if StatusCode (fst r) =? 200 then ret None
          else ret (Some status_not_200)
      end
  end.

(** [http.Client.Do] on a request whose context is already done: it
    returns the context's error, wrapped in a [*url.Error], and sends
    nothing. *)
Definition honours_cancellation : Prop :=
  forall ctx u reqBody n e,
    ctx_err ctx = Some e ->
    snd (fst (http_Do ctx u reqBody n)) = Some (UrlError "Post" u e)
    /\ snd (http_Do ctx u reqBody n) = n.

Definition HTTPClient_HTTPClientProvider : HTTPClientProvider Process :=
  {| Post := HTTPClient_Post |}.

End Client.
End client.

(** ** package service *)

Module service.
Import repository client.

(** What the service asks of its collaborators, in call order; [GoReturn]
    marks a goroutine of [SendToSeller] handing its result to the
    [errgroup] ([false] is the Email goroutine, [true] the Push one). *)
Inductive Event : Type :=
  | CacheGet (key : NotificationProvider)
  | CacheSet (key : NotificationProvider)
             (values : list NotificationPreference)
  | StoreFind (ctx : Context) (provider : NotificationProvider)
  | HTTPPost (ctx : Context) (u : string) (reqBody : NotificationRequest)
  | GoReturn (unit : bool) (err : option error).

Section Service.
Context {W : Type}.

Record NotificationService : Type := {
  cacheProvider : CacheProvider W;
  persistentProvider : PersistentProvider W;
  httpclient : HTTPClientProvider W
}.

(** The state the service runs in: the collaborators' world and the
    trace of calls made so far. *)
Definition St : Type := (W * list Event)%type.

Definition call {A : Type} (ev : Event) (m : M W A) : M St A :=
  fun st => let (a, w') := m (fst st) in (a, (w', snd st ++ [ev])).

Definition emit (ev : Event) : M St unit :=
  fun st => (tt, (fst st, snd st ++ [ev])).

Variable s : NotificationService.

Definition call_Get (key : NotificationProvider) :=
  call (CacheGet key) (cache_Get (cacheProvider s) key).

Definition call_Set (key : NotificationProvider)
                    (values : list NotificationPreference) :=
  call (CacheSet key values) (cache_Set (cacheProvider s) key values).

Definition call_Find (ctx : Context) (provider : NotificationProvider) :=
  call (StoreFind ctx provider)
       (FindByProviderType (persistentProvider s) ctx provider).

Definition call_Post (ctx : Context) (u : string)
                     (reqBody : NotificationRequest) :=
  call (HTTPPost ctx u reqBody) (Post (httpclient s) ctx u reqBody).

(** [getNotificationPreferences] *)
Definition getNotificationPreferences (ctx : Context)
    (providerType : NotificationProvider)
  : M St (list NotificationPreference * option error) :=
  let* r := call_Get providerType in
  match snd r with
  | None => ret (fst r, None)
  | Some _ =>
      let* r := call_Find ctx providerType in
      match snd r with
      | Some err => ret ([], Some err)
      | None =>
          let* _ := call_Set providerType (fst r) in
          ret (fst r, None)
      end
  end.

Definition delivery_failed : error :=
  New "failure to sent the notifications".

(** [sendNotification]: the loop over [preferences]; [continue] is the
    recursive call, [return nil] leaves the loop. *)
Fixpoint sendNotification (ctx : Context)
    (preferences : list NotificationPreference)
    (req : NotificationRequest) : M St (option error) :=
  match preferences with
  | [] => ret (Some delivery_failed)
  | preference :: rest =>
      let req := with_SecretKey req (repository.SecretKey preference) in
      let* err := call_Post ctx (Host preference) req in
      match err with
      | Some _ => sendNotification ctx rest req
      | None => ret None
      end
  end.

(** The body of [SendToBuyer], and of each function [SendToSeller]
    passes to [g.Go]: resolve, then dispatch. *)
Definition resolve_and_send (ctx : Context)
    (providerType : NotificationProvider) (req : NotificationRequest)
  : M St (option error) :=
  let* r := getNotificationPreferences ctx providerType in
  match snd r with
  | Some err => ret (Some err)
  | None => sendNotification ctx (fst r) req
  end.

(** [SendToBuyer] *)
Definition SendToBuyer (ctx : Context) (to title message : string)
  : M St (option error) :=
  resolve_and_send ctx EmailProvider (mkRequest to title message "").

(** *** [SendToSeller]: two goroutines under an [errgroup] *)

(** The [errgroup.Group] made by [errgroup.WithContext(ctx)], with the
    context it derives: [g_err] is the first non-nil error a goroutine
    returned, and the derived context is cancelled from that moment. *)
Record Group : Type := mkGroup {
  g_err : option error;
  g_cancelled : bool
}.

(** The [ctx] the goroutines see (it shadows the caller's). *)
Definition derived (parent : Context) (g : Group) : Context :=
  match ctx_err parent with
  | Some _ => parent
  | None => if g_cancelled g then mkContext (Some Canceled) else parent
  end.

(** What [g.Go] does when the function it runs returns [err]. *)
Definition go_return (err : option error) (g : Group) : Group :=
  match err, g_err g with
  | Some e, None => mkGroup (Some e) true
  | _, _ => g
  end.

(** Where a goroutine stands: before each call on a collaborator, or
    finished. *)
Inductive Goroutine : Type :=
  | AtGet (providerType : NotificationProvider)
  | AtFind (providerType : NotificationProvider)
  | AtSet (providerType : NotificationProvider)
          (preferences : list NotificationPreference)
  | AtSend (preferences : list NotificationPreference)
           (req : NotificationRequest)
  | Finished.

Definition returns (unit : bool) (err : option error) (g : Group)
  : M St (Goroutine * Group) :=
  let* _ := emit (GoReturn unit err) in
  ret (Finished, go_return err g).

(** One step of goroutine [unit]: up to and including its next call on a
    collaborator. *)
Definition goroutine_step (parent : Context) (req0 : NotificationRequest)
    (unit : bool) (p : Goroutine) (g : Group) : M St (Goroutine * Group) :=
  match p with
  | AtGet providerType =>
      let* r := call_Get providerType in
      match snd r with
      | None => ret (AtSend (fst r) req0, g)
      | Some _ => ret (AtFind providerType, g)
      end
  | AtFind providerType =>
      let* r := call_Find (derived parent g) providerType in
      match snd r with
      | Some err => returns unit (Some err) g
      | None => ret (AtSet providerType (fst r), g)
      end
  | AtSet providerType preferences =>
      let* _ := call_Set providerType preferences in
      ret (AtSend preferences req0, g)
  | AtSend [] req => returns unit (Some delivery_failed) g
  | AtSend (preference :: rest) req =>
      let req := with_SecretKey req (repository.SecretKey preference) in
      let* err := call_Post (derived parent g) (Host preference) req in
      match err with
      | Some _ => ret (AtSend rest req, g)
      | None => returns unit None g
      end
  | Finished => ret (Finished, g)
  end.

(** A goroutine about to write the cache holds a list that is not
    empty. *)
Definition writes_nonempty (p : Goroutine) : Prop :=
  match p with
  | AtSet _ preferences => preferences <> []
  | _ => True
  end.

Record Machine : Type := mkMachine {
  m_group : Group;
  m_email : Goroutine;
  m_push : Goroutine
}.

Definition machine_ok (m : Machine) : Prop :=
  writes_nonempty (m_email m) /\ writes_nonempty (m_push m).

Definition goroutine_of (m : Machine) (unit : bool) : Goroutine :=
  if unit then m_push m else m_email m.

(** The machine once goroutine [unit] has moved to [p] and left the
    group as [g]. *)
Definition with_goroutine (m : Machine) (unit : bool) (p : Goroutine)
    (g : Group) : Machine :=
  if unit then mkMachine g (m_email m) p else mkMachine g p (m_push m).

Definition machine_step (parent : Context) (req0 : NotificationRequest)
    (unit : bool) (m : Machine) : M St Machine :=
  let* r := goroutine_step parent req0 unit (goroutine_of m unit)
              (m_group m) in
  ret (with_goroutine m unit (fst r) (snd r)).

Fixpoint machine_run (parent : Context) (req0 : NotificationRequest)
    (sched : list bool) (m : Machine) : M St Machine :=
  match sched with
  | [] => ret m
  | unit :: sched' =>
      let* m' := machine_step parent req0 unit m in
      machine_run parent req0 sched' m'
  end.

(** A goroutine run from where it stands to its end, nothing else running
    meanwhile. *)
Definition finish_send (parent : Context) (unit : bool)
    (preferences : list NotificationPreference) (req : NotificationRequest)
    (g : Group) : M St Group :=
  let* err := sendNotification (derived parent g) preferences req in
  let* r := returns unit err g in
  ret (snd r).

Definition finish_find (parent : Context) (req0 : NotificationRequest)
    (unit : bool) (providerType : NotificationProvider) (g : Group)
  : M St Group :=
  let* r := call_Find (derived parent g) providerType in
  match snd r with
  | Some err => let* r := returns unit (Some err) g in ret (snd r)
  | None =>
      let* _ := call_Set providerType (fst r) in
      finish_send parent unit (fst r) req0 g
  end.

Definition goroutine_finish (parent : Context) (req0 : NotificationRequest)
    (unit : bool) (p : Goroutine) (g : Group) : M St Group :=
  match p with
  | AtGet providerType =>
      let* r := call_Get providerType in
      match snd r with
      | None => finish_send parent unit (fst r) req0 g
      | Some _ => finish_find parent req0 unit providerType g
      end
  | AtFind providerType => finish_find parent req0 unit providerType g
  | AtSet providerType preferences =>
      let* _ := call_Set providerType preferences in
      finish_send parent unit preferences req0 g
  | AtSend preferences req => finish_send parent unit preferences req g
  | Finished => ret g
  end.

(** [g.Wait()]: both goroutines are run to their end, then the group's
    error is returned. *)
Definition Wait (parent : Context) (req0 : NotificationRequest)
    (m : Machine) : M St (option error) :=
  let* g := goroutine_finish parent req0 false (m_email m) (m_group m) in
  let* g := goroutine_finish parent req0 true (m_push m) g in
  ret (g_err g).

(** [SendToSeller].  [sched] is the order in which the Go scheduler lets
    the two goroutines take their steps; whatever it leaves undone is
    completed under [Wait]. *)
Definition SendToSeller (sched : list bool) (ctx : Context)
    (to title message : string) : M St (option error) :=
  let req := mkRequest to title message "" in
  let* m := machine_run ctx req sched
              (mkMachine (mkGroup None false)
                         (AtGet EmailProvider)
                         (AtGet PushNotificationProvider)) in
  Wait ctx req m.

(** *** Vocabulary for the properties *)

(** The call the dispatcher makes for one endpoint. *)
Definition attempt_event (ctx : Context) (req : NotificationRequest)
    (preference : NotificationPreference) : Event :=
  HTTPPost ctx (Host preference)
           (with_SecretKey req (repository.SecretKey preference)).

(** The delivery attempts against [preferences], one after the other,
    whatever their outcome: the outcomes, and the world afterwards. *)
Fixpoint attempts (ctx : Context)
    (preferences : list NotificationPreference)
    (req : NotificationRequest) : M W (list (option error)) :=
  match preferences with
  | [] => ret []
  | preference :: rest =>
      let* err := Post (httpclient s) ctx (Host preference)
                    (with_SecretKey req (repository.SecretKey preference)) in
      let* errs := attempts ctx rest req in
      ret (err :: errs)
  end.

(** What the resolver does once the cache has not answered: read the
    store, and write the cache when the store answered. *)
Definition after_miss (ctx : Context) (providerType : NotificationProvider)
  : M St (list NotificationPreference * option error) :=
  let* r := call_Find ctx providerType in
  match snd r with
  | Some err => ret ([], Some err)
  | None =>
      let* _ := call_Set providerType (fst r) in
      ret (fst r, None)
  end.

End Service.

Definition failed (err : option error) : Prop := err <> None.

(** Reading a trace. *)
Definition is_StoreFind (ev : Event) : bool :=
  match ev with StoreFind _ _ => true | _ => false end.

Definition is_HTTPPost (ev : Event) : bool :=
  match ev with HTTPPost _ _ _ => true | _ => false end.

Definition store_calls (tr : list Event) : nat :=
  length (List.filter is_StoreFind tr).

Definition post_calls (tr : list Event) : nat :=
  length (List.filter is_HTTPPost tr).

(** The goroutine returns in a trace, in order. *)
Fixpoint go_returns (tr : list Event) : list (bool * option error) :=
  match tr with
  | [] => []
  | GoReturn unit err :: tr' => (unit, err) :: go_returns tr'
  | _ :: tr' => go_returns tr'
  end.

(** The first non-nil error among returns. *)
Fixpoint first_error (rs : list (bool * option error)) : option error :=
  match rs with
  | [] => None
  | (_, Some e) :: _ => Some e
  | (_, None) :: rs' => first_error rs'
  end.

Definition is_failure (ev : Event) : bool :=
  match ev with GoReturn _ (Some _) => true | _ => false end.

(** The context a call event carries, if it carries one. *)
Definition event_ctx (ev : Event) : option Context :=
  match ev with
  | StoreFind ctx _ | HTTPPost ctx _ _ => Some ctx
  | _ => None
  end.

(** Whether a goroutine has returned an error somewhere in [tr]. *)
Definition failed_in (tr : list Event) : bool := existsb is_failure tr.

(** Calls only, each one that takes a context taking [ctx]. *)
Definition plain (ctx : Context) (tr : list Event) : Prop :=
  Forall (fun ev =>
            match ev with
            | GoReturn _ _ => False
            | StoreFind c _ | HTTPPost c _ _ => c = ctx
            | _ => True
            end) tr.

(** Every call in [tr] carries the context the errgroup derives from
    [parent] at that point: [parent] itself until a goroutine has returned
    an error ([cancelled] says whether one already has), the cancelled
    context from then on. *)
Fixpoint contexts_follow (parent : Context) (cancelled : bool)
    (tr : list Event) : Prop :=
  match tr with
  | [] => True
  | ev :: tr' =>
      match event_ctx ev with
      | Some ctx => ctx = derived parent (mkGroup None cancelled)
      | None => True
      end
      /\ contexts_follow parent (cancelled || is_failure ev) tr'
  end.

(** How the machine of [SendToSeller] stands to the events [new] it has
    added to the trace: the calls carried the derived context of their
    moment, the group holds the first error returned and is cancelled from
    the first failure on, and the goroutines that have returned are the
    finished ones, each having returned once. *)
Definition machine_inv (parent : Context)
    (m : Machine) (new : list Event) : Prop :=
  contexts_follow parent false new
  /\ g_cancelled (m_group m) = failed_in new
  /\ g_err (m_group m) = first_error (go_returns new)
  /\ NoDup (map fst (go_returns new))
  /\ (forall unit, In unit (map fst (go_returns new)) <->
                   goroutine_of m unit = Finished).

End service.

(** ** The application as [main] wires it *)

Module app.
Import repository client service.

(** The service over the real cache, with the store and the client acting
    on the rest of the world. *)
Section Wire.
Context {X : Type}.

Definition wire (store : PersistentProvider X) (http : HTTPClientProvider X)
  : NotificationService (W := Cache * X) :=
  {| cacheProvider :=
       {| cache_Get := fun key => on_fst (Cache_Get key);
          cache_Set := fun key values => on_fst (Cache_Set key values) |};
     persistentProvider :=
       {| FindByProviderType := fun ctx provider =>
            on_snd (FindByProviderType store ctx provider) |};
     httpclient :=
       {| Post := fun ctx u reqBody => on_snd (Post http ctx u reqBody) |}
  |}.
End Wire.

Section Wiring.
Context `{Libs}.

(** The process: the cache, the database connection, and the client's
    share. *)
Definition World : Type := (Cache * (Persistent * Process))%type.

Definition World_PersistentProvider
  : PersistentProvider (Persistent * Process) :=
  {| FindByProviderType := fun ctx provider =>
       on_fst (Persistent_FindByProviderType ctx provider) |}.

Definition World_HTTPClientProvider
  : HTTPClientProvider (Persistent * Process) :=
  {| Post := fun ctx u reqBody =>
       on_snd (HTTPClient_Post ctx u reqBody) |}.

(** [NewNotificationService] on the providers [fx] supplies. *)
Definition NewNotificationService : NotificationService (W := World) :=
  wire World_PersistentProvider World_HTTPClientProvider.

Definition entries_nonempty (w : World) : Prop :=
  nonempty_entries (fst w).

(** What can happen to the process between and around requests. *)
Inductive Action : Type :=
  | Resolve (ctx : Context) (providerType : NotificationProvider)
  | Buyer (ctx : Context) (to title message : string)
  | Seller (sched : list bool) (ctx : Context) (to title message : string)
  | Elapse (d : Z)
  | DatabaseBecomes (db : DB).

Definition act (a : Action) (st : St (W := World)) : St (W := World) :=
  match a with
  | Resolve ctx providerType =>
      snd (getNotificationPreferences NewNotificationService ctx
             providerType st)
  | Buyer ctx to title message =>
      snd (SendToBuyer NewNotificationService ctx to title message st)
  | Seller sched ctx to title message =>
      snd (SendToSeller NewNotificationService sched ctx
             to title message st)
  | Elapse d =>
      ((elapse d (fst (fst st)), snd (fst st)), snd st)
  | DatabaseBecomes db =>
      ((fst (fst st), (mkPersistent db, snd (snd (fst st)))), snd st)
  end.

Definition acts (l : list Action) (st : St (W := World)) : St (W := World) :=
  fold_left (fun st a => act a st) l st.

End Wiring.
End app.

(** ** Scenarios

    Concrete collaborators, in the manner of the repository's tests: mock
    providers for the service on its own, and for the wired application a
    database, a network and a breaker small enough to run. *)

Module scenario.
Import repository client service app.

(** *** Mocks, as in [service_test.go] *)

Definition service1 : NotificationPreference :=
  mkPreference 1 0 0 None "https://service1.com" "one" "secret1".
Definition service2 : NotificationPreference :=
  mkPreference 2 0 0 None "https://service2.com" "two" "secret2".
Definition service3 : NotificationPreference :=
  mkPreference 3 0 0 None "https://service3.com" "three" "secret3".

Definition request : NotificationRequest :=
  mkRequest "user@example.com" "Test" "Test message" "".

(** The world of the mocks counts the calls made on the client. *)
Definition mock_Post (ctx : Context) (u : string)
    (reqBody : NotificationRequest) : M nat (option error) :=
  fun n =>
    if String.eqb u "https://service2.com" then (None, S n)
    else (Some (New "connection failed"), S n).

(** A cache that holds [service2] or misses, a store that answers or
    fails. *)
Definition mock (cache_hit store_ok : bool) : NotificationService (W := nat) :=
  {| cacheProvider :=
       {| cache_Get := fun _ n =>
            if cache_hit then (([service2], None), n)
            else (([], Some (New "cache miss")), n);
          cache_Set := fun _ _ n => (Some (New "redis connection error"), n) |};
     persistentProvider :=
       {| FindByProviderType := fun _ _ n =>
            if store_ok then (([service1; service2], None), n)
            else (([], Some (New "database error")), n) |};
     httpclient := {| Post := mock_Post |} |}.

(** *** The wired application *)

Definition strip_scheme (u : string) : string :=
  if String.prefix "https://" u
  then String.substring 8 (String.length u - 8) u
  else u.

(** A network that records the URLs requests went to and answers 503 from
    one host and 200 from the others; a [net/http] that sends nothing on a
    context that is done; a breaker that opens after three failures in a
    row. *)
Definition libs : Libs := {|
  Net := list string;
  url_Host := fun u =>
    if String.eqb u "" then ("", Some (New "empty url"))
    else (strip_scheme u, None);
  http_Do := fun ctx u _ n =>
    match ctx_err ctx with
    | Some e => ((mkHTTPResponse 0 ("", None), Some (UrlError "Post" u e)), n)
    | None =>
        ((mkHTTPResponse
            (if String.eqb u "https://email-primary.example.com" then 503
             else 200)
            ("", None), None), n ++ [u])
    end;
  Breaker := nat;
  gobreaker_New := fun _ => 0%nat;
  gobreaker_State := fun _ b =>
    (if (3 <=? b)%nat then StateOpen else StateClosed, b);
  gobreaker_beforeRequest := fun _ b =>
    (if (3 <=? b)%nat then Some ErrOpenState else None, b);
  gobreaker_afterRequest := fun _ success b =>
    if success then 0%nat else S b
|}.

Definition config : CircuitBreakerRegistryConfig :=
  mkConfig 5 60000000000 3 (float64_of_uint32 60).

Definition rows : list Row :=
  [ mkRow 1 "Email" "backup" "https://email-backup.example.com" (Some 2)
          "k2" 0 None;
    mkRow 2 "Email" "primary" "https://email-primary.example.com" (Some 1)
          "k1" 0 None;
    mkRow 3 "PushNotification" "fcm" "https://push.example.com" (Some 1)
          "k3" 0 None;
    mkRow 4 "Email" "retired" "https://email-old.example.com" (Some 0)
          "k0" 0 (Some 5) ].

(** The same table with no live Email endpoint. *)
Definition rows_push_only : list Row :=
  [ mkRow 3 "PushNotification" "fcm" "https://push.example.com" (Some 1)
          "k3" 0 None;
    mkRow 4 "Email" "retired" "https://email-old.example.com" (Some 0)
          "k0" 0 (Some 5) ].

Definition process0 : Process (H := libs) :=
  @mkProcess libs (NewCircuitBreakerRegistry config) [] ([] : list string) 0.

(** The process as it starts: TTL of ten minutes, in nanoseconds. *)
Definition world (table : list Row) : World (H := libs) :=
  (NewCache 600000000000 0, (mkPersistent (mkDB table None), process0)).

Definition svc : NotificationService := NewNotificationService (H := libs).

Definition cancelled : Context := mkContext (Some Canceled).

(** The process after one buyer notification has filled the cache. *)
Definition warm : St (W := World (H := libs)) :=
  acts [Buyer Background "buyer@example.com" "Order" "Paid"]
       (world rows, []).


Definition seller_request (key : string) : NotificationRequest :=
  mkRequest "seller@example.com" "Order" "Paid" key.

End scenario.

(** ** package handler *)

Module handler.
Import client.

(** *** request.go *)

Record NotifyRequest : Type := mkNotifyRequest {
  To : string;
  Title : string;
  Message : string
}.

(** *** error.go *)

Record ErrorHandler : Type := mkErrorHandler {
  ErrorCode : string;
  ErrorHandler_Message : string
}.

(** What [c.JSON] is given to write. *)
Inductive JSONObject : Type :=
  | ErrorObject (e : ErrorHandler)
  | gin_H (fields : list (string * string)).

Record Response : Type := mkJSON {
  code : Z;
  obj : JSONObject
}.

(** The [*gin.Context] as [NotifyHandler] reads it: the context of the
    request, the path parameter, and what binding the body gives (the
    request it fills in, and its error). *)
Record gin_Context : Type := mkGinContext {
  Request_Context : Context;
  Param_recipient : string;
  ShouldBindBodyWithJSON : NotifyRequest * option error
}.

Definition RecipientTypeBuyer : string := "buyer".
Definition RecipientTypeSeller : string := "seller".

Definition not_supported : error := New "not supported recipient type".

Section Handler.
Context {W : Type}.

(** The text of an error, [err.Error()]. *)
Variable Error : error -> string.

Definition GetRequestError (err : error) : ErrorHandler :=
  mkErrorHandler "E101" (Error err).

Definition GetInternalError (err : error) : ErrorHandler :=
  mkErrorHandler "E102" (Error err).

(** [service.NotificationProvider] *)
Record NotificationProvider : Type := {
  SendToBuyer : Context -> string -> string -> string -> M W (option error);
  SendToSeller : Context -> string -> string -> string -> M W (option error)
}.

(** [Notification] *)
Record Notification : Type := mkNotification {
  services : NotificationProvider
}.

(** [NotifyHandler] *)
Definition NotifyHandler (n : Notification) (c : gin_Context)
  : M W Response :=
  let ctx := Request_Context c in
  let (req, err) := ShouldBindBodyWithJSON c in
  match err with
  | Some err => ret (mkJSON 422 (ErrorObject (GetRequestError err)))
  | None =>
      let* err :=
        if String.eqb (Param_recipient c) RecipientTypeBuyer
        then SendToBuyer (services n) ctx (To req) (Title req) (Message req)
        else if String.eqb (Param_recipient c) RecipientTypeSeller
        then SendToSeller (services n) ctx (To req) (Title req) (Message req)
        else ret (Some not_supported) in
      match err with
      | Some err => ret (mkJSON 500 (ErrorObject (GetInternalError err)))
      | None => ret (mkJSON 200 (gin_H [("message", "nofitication sent")]))
      end
  end.

End Handler.
Arguments NotificationProvider W : clear implicits.
Arguments Notification W : clear implicits.

(** The service behind the handler: [NotificationService] as the
    [service.NotificationProvider] it implements; [sched] is the order the
    scheduler gives the goroutines of a seller notification. *)
Definition Service_NotificationProvider {W : Type}
    (s : service.NotificationService (W := W)) (sched : list bool)
  : NotificationProvider (service.St (W := W)) :=
  {| SendToBuyer := service.SendToBuyer s;
     SendToSeller := service.SendToSeller s sched |}.

End handler.

(** ** package metrics: the collector of the HTTP client *)

Module metrics.
Import client.

(** [attribute.KeyValue], for the two kinds the collector uses. *)
Inductive KeyValue : Type :=
  | attribute_String (key value : string)
  | attribute_Int (key : string) (value : Z).

(** What the instruments of the meter are given, in the order of the
    calls: [Add] on a counter, [Record] on a histogram (the value is the
    duration whose [Seconds()] is recorded) and [Record] on a gauge. *)
Inductive Measurement : Type :=
  | Int64Counter_Add (instrument : string) (incr : Z)
                     (attrs : list KeyValue)
  | Float64Histogram_Record (instrument : string) (duration : Z)
                            (attrs : list KeyValue)
  | Int64Gauge_Record (instrument : string) (value : Z)
                      (attrs : list KeyValue).

Definition Meter : Type := list Measurement.

Definition measure (m : Measurement) : M Meter unit :=
  fun meter => (tt, meter ++ [m]).

(** [HTTPClientCollector]: its instruments, by the names
    [NewHTTPClientCollector] gives them. *)
Record HTTPClientCollector : Type := mkHTTPClientCollector {
  requestCount : string;
  requestDuration : string;
  errorCount : string;
  circuitBreakerState : string;
  circuitBreakerChanges : string
}.

Definition NewHTTPClientCollector : HTTPClientCollector :=
  mkHTTPClientCollector
    "http.client.requests"
    "http.client.duration"
    "http.client.errors"
    "http.client.circuit_breaker.state"
    "http.client.circuit_breaker.state_changes".

(** [circuitBreakerStateToInt] *)
Definition circuitBreakerStateToInt (state : string) : Z :=
  if String.eqb state "closed" then 0
  else if String.eqb state "open" then 1
  else if String.eqb state "half-open" then 2
  else -1.

Section Collector.

(** The text of an error, [err.Error()]. *)
Variable Error : error -> string.

(** [getErrorType] *)
Definition getErrorType (err : option error) : string :=
  match err with
  | None => "none"
  | Some err =>
      let errMsg := Error err in
      if String.eqb errMsg "response status code not equal 200"
      then "invalid_status"
      else if String.eqb errMsg "circuit breaker is open"
      then "circuit_breaker_open"
      else "unknown"
  end.

Variable c : HTTPClientCollector.

(** [RecordRequest] *)
Definition RecordRequest (ctx : Context) (method host : string)
    (statusCode duration : Z) (err : option error) : M Meter unit :=
  let attrs :=
    [attribute_String "http.method" method;
     attribute_String "http.host" host;
     attribute_Int "http.status_code" statusCode] in
  let* _ := measure (Int64Counter_Add (requestCount c) 1 attrs) in
  let* _ := measure (Float64Histogram_Record (requestDuration c) duration
                                              attrs) in
  match err with
  | Some _ =>
      let errorAttrs :=
        [attribute_String "http.host" host;
         attribute_String "error.type" (getErrorType err)] in
      measure (Int64Counter_Add (errorCount c) 1 errorAttrs)
  | None => ret tt
  end.

(** [RecordCircuitBreakerState] *)
Definition RecordCircuitBreakerState (ctx : Context) (host state : string)
  : M Meter unit :=
  let attrs :=
    [attribute_String "http.host" host;
     attribute_String "circuit_breaker.state" state] in
  let stateValue := circuitBreakerStateToInt state in
  measure (Int64Gauge_Record (circuitBreakerState c) stateValue attrs).

(** [RecordCircuitBreakerStateChange] *)
Definition RecordCircuitBreakerStateChange (ctx : Context)
    (host fromState toState : string) : M Meter unit :=
  let attrs :=
    [attribute_String "http.host" host;
     attribute_String "circuit_breaker.from_state" fromState;
     attribute_String "circuit_breaker.to_state" toState] in
  measure (Int64Counter_Add (circuitBreakerChanges c) 1 attrs).

End Collector.

(** *** [HTTPClient.Post] with its collector

    [Post] once more, this time with the calls it makes on its
    [metricsCollector]; the world is the client's share of the process and
    the meter.  [duration] is what [time.Since(start)] gives, and
    [State_String] is [gobreaker]'s [State.String]. *)
Section Recorded.
Context `{Libs}.
Variable Error : error -> string.
Variable State_String : State -> string.
Variable metricsCollector : HTTPClientCollector.

Definition MethodPost : string := "POST".

Definition HTTPClient_Post_recorded (duration : Z) (ctx : Context)
    (u : string) (reqBody : NotificationRequest)
  : M (Process * Meter) (option error) :=
  let (host, err) := extractHost u in
  match err with
  | Some err => ret (Some err)
  | None =>
      let* circuitBreaker := on_fst (GetOrCreate host) in
      let* st := on_fst (Breaker_State circuitBreaker) in
      let cbState :=
        match st with Some st => State_String st | None => "" end in
      let* _ := on_snd (RecordCircuitBreakerState metricsCollector ctx host
                          cbState) in
      let* r := on_fst (Execute circuitBreaker (do_request ctx u reqBody)) in
      match snd r with
      | Some err =>
          let* _ := on_snd (RecordRequest Error metricsCollector ctx
                              MethodPost host 0 duration (Some err)) in
          ret (Some err)
      | None =>
          let statusCode := StatusCode (fst r) in
          if statusCode =? 200
          then
            let* _ := on_snd (RecordRequest Error metricsCollector ctx
                                MethodPost host statusCode duration None) in
            ret None
          else
            let finalErr := status_not_200 in
            let* _ := on_snd (RecordRequest Error metricsCollector ctx
                                MethodPost host statusCode duration
                                (Some finalErr)) in
            ret (Some finalErr)
      end
  end.

End Recorded.

(** Reading a meter: the instrument a measurement went to, and how many
    measurements an instrument got. *)
Definition instrument_of (m : Measurement) : string :=
  match m with
  | Int64Counter_Add instrument _ _
  | Float64Histogram_Record instrument _ _
  | Int64Gauge_Record instrument _ _ => instrument
  end.

Definition samples (instrument : string) (meter : Meter) : nat :=
  length (List.filter (fun m => String.eqb (instrument_of m) instrument)
                      meter).

End metrics.

(** ** Further vocabulary *)

Module vocabulary.
Import repository client service.

(** Row [a] may come before row [b] under [Order("priority")]. *)
Definition by_priority (a b : Row) : Prop :=
  priority_le (row_priority a) (row_priority b) = true.

(** The request [sendNotification] sends to an endpoint: the caller's
    recipient, title and message, and the endpoint's own secret. *)
Definition request_for (req : NotificationRequest)
    (preference : NotificationPreference) : NotificationRequest :=
  mkRequest (To req) (Title req) (Message req)
            (repository.SecretKey preference).

(** An event of a buyer notification: the Email channel, the caller's
    context, no goroutine. *)
Definition buyer_event (ctx : Context) (ev : Event) : Prop :=
  match ev with
  | CacheGet key | CacheSet key _ => key = EmailProvider
  | StoreFind c key => c = ctx /\ key = EmailProvider
  | HTTPPost c _ _ => c = ctx
  | GoReturn _ _ => False
  end.

(** A result in the Go manner: a value with a nil error or an error with
    no value, never both and never neither. *)
Definition value_xor_error
    (r : list NotificationPreference * option error) : Prop :=
  (snd r = None /\ fst r <> []) \/ (snd r <> None /\ fst r = []).

(** A request that carries the recipient, title and message of [req0]
    (the secret may differ). *)
Definition same_message (req0 req : NotificationRequest) : Prop :=
  To req = To req0 /\ Title req = Title req0 /\ Message req = Message req0.

Section Replay.
Context {W : Type} (s : NotificationService (W := W)).

(** What the call recorded as [ev] makes of the collaborators' world.  An
    event carries the arguments of its call, so a trace tells in what
    world each of its calls was made. *)
Definition replay_event (w : W) (ev : Event) : W :=
  match ev with
  | CacheGet key => snd (cache_Get (cacheProvider s) key w)
  | CacheSet key values => snd (cache_Set (cacheProvider s) key values w)
  | StoreFind ctx key =>
      snd (FindByProviderType (persistentProvider s) ctx key w)
  | HTTPPost ctx u reqBody => snd (Post (httpclient s) ctx u reqBody w)
  | GoReturn _ _ => w
  end.

(** The world after the calls of [tr], made one after the other from
    [w]. *)
Definition replay (tr : list Event) (w : W) : W :=
  fold_left replay_event tr w.

(** In [tr], whose calls are made from the world [w] on, and which is read
    after the event [prev] (paired with the world it was made in), every
    nil a goroutine hands to the group comes right after a [Post] of the
    message of [req0], and that [Post], made in the world the run had
    reached, returned nil. *)
Fixpoint nil_after_delivery (req0 : NotificationRequest)
    (prev : option (Event * W)) (w : W) (tr : list Event) : Prop :=
  match tr with
  | [] => True
  | ev :: tr' =>
      match ev with
      | GoReturn _ None =>
          match prev with
          | Some (HTTPPost c u r, w0) =>
              same_message req0 r
              /\ fst (Post (httpclient s) c u r w0) = None
          | _ => False
          end
      | _ => True
      end
      /\ nil_after_delivery req0 (Some (ev, w)) (replay_event w ev) tr'
  end.

(** The state [st'] is the state [st] after the calls of [new], which
    return nil to the group only after a delivery of the message of
    [req0]. *)
Definition delivers (req0 : NotificationRequest) (st st' : St (W := W))
    (new : list Event) : Prop :=
  snd st' = snd st ++ new
  /\ fst st' = replay new (fst st)
  /\ nil_after_delivery req0 None (fst st) new.

End Replay.

(** A goroutine of [SendToSeller] that is about to send carries the
    message of the call. *)
Definition carries_message (req0 : NotificationRequest) (p : Goroutine)
  : Prop :=
  match p with
  | AtSend _ req => same_message req0 req
  | _ => True
  end.

Section Breakers.
Context `{Libs}.

(** The private state of the breaker the registry holds for [host], if it
    holds one. *)
Definition breaker_of (host : string) (p : Process) : option Breaker :=
  cb ← breakers (registry p) !! host; cb_state <$> heap p !! cb.

(** What calls of [GetOrCreate] for [hosts] may have made of [p]: the
    registry and the heap have only grown, by entries for these hosts and
    by breakers new from the registry's settings under these hosts' names;
    the settings, the network and the clock are as they were. *)
Definition registered_only (hosts : list string) (p p' : Process) : Prop :=
  grows p p'
  /\ settings (registry p') = settings (registry p)
  /\ net p' = net p
  /\ clock p' = clock p
  /\ (forall h, is_Some (breakers (registry p') !! h) ->
        is_Some (breakers (registry p) !! h) \/ h ∈ hosts)
  /\ (forall i o, (length (heap p) <= i)%nat -> heap p' !! i = Some o ->
        cb_Name o ∈ hosts
        /\ cb_state o
           = gobreaker_New (with_Name (settings (registry p)) (cb_Name o))).

(** The callers that have yet to build their breaker. *)
Definition to_allocate (pool : list Caller) : nat :=
  length (List.filter (fun c => match c with AtLoad _ => true | _ => false end)
                      pool).

End Breakers.

End vocabulary.


(** ** Further scenarios *)

Module scenario_more.
Import repository client service app scenario.

(** The texts of the errors, [err.Error()], as the libraries give them;
    [net/url] puts the URL in quotes. *)
Fixpoint Error (e : error) : string :=
  match e with
  | New msg => msg
  | ErrRecordNotFound => "record not found"
  | Canceled => "context canceled"
  | DeadlineExceeded => "context deadline exceeded"
  | ErrOpenState => "circuit breaker is open"
  | ErrTooManyRequests => "too many requests"
  | UrlError op u err =>
      (op ++ " " ++ String (Ascii.ascii_of_nat 34) u
          ++ String (Ascii.ascii_of_nat 34) ": " ++ Error err)%string
  end.

(** [gobreaker]'s names of the states, [State.String()]. *)
Definition State_String (st : State) : string :=
  match st with
  | StateClosed => "closed"
  | StateHalfOpen => "half-open"
  | StateOpen => "open"
  end.

Definition primary : string := "https://email-primary.example.com".

(** The client's share of the process after three requests to the primary
    Email endpoint that failed in the transport: its breaker is open. *)
Definition tripped : Process (H := libs) :=
  snd (HTTPClient_Post cancelled primary request
    (snd (HTTPClient_Post cancelled primary request
      (snd (HTTPClient_Post cancelled primary request process0))))).

(** The world with no live Email endpoint in the database. *)
Definition cold : St (W := World (H := libs)) := (world rows_push_only, []).

(** Calls of the handler: a buyer notification, one for a recipient type
    the handler does not know (the capital matters), and one whose body
    does not bind. *)
Definition body : handler.NotifyRequest :=
  handler.mkNotifyRequest "buyer@example.com" "Order" "Paid".

Definition buyer_call : handler.gin_Context :=
  handler.mkGinContext Background "buyer" (body, None).

Definition Buyer_call : handler.gin_Context :=
  handler.mkGinContext Background "Buyer" (body, None).

Definition unbound_call : handler.gin_Context :=
  handler.mkGinContext Background "buyer"
    (handler.mkNotifyRequest "" "" "",
     Some (New "Key: 'NotifyRequest.To' Error:Field validation for 'To' failed on the 'required' tag")).

Definition seller_call : handler.gin_Context :=
  handler.mkGinContext Background "seller"
    (handler.mkNotifyRequest "seller@example.com" "Order" "Paid", None).

Definition notification : handler.Notification (St (W := World (H := libs))) :=
  handler.mkNotification (handler.Service_NotificationProvider svc []).

End scenario_more.

(** * Properties *)

(** ** The dispatcher *)

Module dispatcher.
Import repository client service.

Section Dispatch.
Context {W : Type} (s : NotificationService (W := W)).

Lemma with_SecretKey_again (req : NotificationRequest) (k k' : string) :
  with_SecretKey (with_SecretKey req k) k' = with_SecretKey req k'.
Proof. reflexivity. Qed.

Lemma sendNotification_nil ctx req st :
  sendNotification s ctx [] req st = (Some delivery_failed, st).
Proof. reflexivity. Qed.

(** One turn of the loop, by the outcome of its [Post]. *)
Lemma sendNotification_cons ctx p rest req w tr :
  sendNotification s ctx (p :: rest) req (w, tr) =
  let (err, w') := Post (httpclient s) ctx (Host p)
                     (with_SecretKey req (repository.SecretKey p)) w in
  match err with
  | Some _ =>
      sendNotification s ctx rest req
        (w', tr ++ [attempt_event ctx req p])
  | None => (None, (w', tr ++ [attempt_event ctx req p]))
  end.
Proof.
  cbn [sendNotification]. unfold bind, call_Post, call, attempt_event.
  cbn [fst snd].
  destruct (Post (httpclient s) ctx (Host p)
              (with_SecretKey req (repository.SecretKey p)) w) as [err w'].
  destruct err as [e|]; [|reflexivity].
  destruct rest; reflexivity.
Qed.

Lemma attempts_cons ctx p rest req w :
  attempts s ctx (p :: rest) req w =
  let (err, w') := Post (httpclient s) ctx (Host p)
                     (with_SecretKey req (repository.SecretKey p)) w in
  let (errs, w'') := attempts s ctx rest req w' in
  (err :: errs, w'').
Proof.
  cbn [attempts]. unfold bind, ret.
  destruct (Post _ _ _ _ w) as [err w'].
  destruct (attempts s ctx rest req w') as [errs w'']. reflexivity.
Qed.

(** While attempts fail the loop goes on, one call per endpoint, and the
    world is the one the attempts leave. *)
Lemma sendNotification_skips_failures ctx pre :
  forall rest req w tr errs w1,
    attempts s ctx pre req w = (errs, w1) ->
    Forall failed errs ->
    sendNotification s ctx (pre ++ rest) req (w, tr) =
    sendNotification s ctx rest req
      (w1, tr ++ map (attempt_event ctx req) pre).
Proof.
  induction pre as [|p pre IH]; intros rest req w tr errs w1 Hatt Hfail.
  - cbn in Hatt. injection Hatt as <- <-. cbn. by rewrite app_nil_r.
  - rewrite attempts_cons in Hatt.
    change ((p :: pre) ++ rest) with (p :: (pre ++ rest)).
    rewrite sendNotification_cons.
    destruct (Post _ _ _ _ w) as [err w'].
    destruct (attempts s ctx pre req w') as [errs' w''] eqn:Hrest.
    injection Hatt as <- <-.
    inversion Hfail as [|? ? Herr Hfail']; subst.
    destruct err as [e|]; [|by destruct Herr].
    rewrite (IH rest req w' _ errs' w'' Hrest Hfail').
    cbn [map]. by rewrite <- app_assoc.
Qed.

(** C1.  When the attempts against the endpoints before [p] all fail and
    the attempt against [p] then succeeds, [sendNotification] returns nil,
    and the calls it has made are exactly one [Post] per endpoint up to
    and including [p], in list order: each earlier endpoint once, then
    [p], and nothing after [p].  With no earlier endpoint, the one call
    is the one to [p]. *)
Theorem sendNotification_first_success ctx pre p post req w tr errs w1 w2 :
  attempts s ctx pre req w = (errs, w1) ->
  Forall failed errs ->
  Post (httpclient s) ctx (Host p)
       (with_SecretKey req (repository.SecretKey p)) w1 = (None, w2) ->
  sendNotification s ctx (pre ++ p :: post) req (w, tr) =
  (None, (w2, tr ++ map (attempt_event ctx req) (pre ++ [p]))).
Proof.
  intros Hatt Hfail Hok.
  rewrite (sendNotification_skips_failures ctx pre _ req w tr errs w1 Hatt Hfail).
  rewrite sendNotification_cons, Hok.
  by rewrite map_app, app_assoc.
Qed.

(** The first endpoint succeeding: one call, to that endpoint. *)
Corollary sendNotification_head_success ctx p post req w tr w2 :
  Post (httpclient s) ctx (Host p)
       (with_SecretKey req (repository.SecretKey p)) w = (None, w2) ->
  sendNotification s ctx (p :: post) req (w, tr) =
  (None, (w2, tr ++ [attempt_event ctx req p])).
Proof.
  intros Hok. by rewrite sendNotification_cons, Hok.
Qed.

(** C5.  When the attempt against every endpoint fails,
    [sendNotification] has called each endpoint once, in order, and
    returns the one error "failure to sent the notifications", whatever
    the errors of the attempts were; on the empty list it returns that
    error and has called nothing. *)
Theorem sendNotification_all_fail ctx preferences req w tr errs w1 :
  attempts s ctx preferences req w = (errs, w1) ->
  Forall failed errs ->
  sendNotification s ctx preferences req (w, tr) =
    (Some delivery_failed,
     (w1, tr ++ map (attempt_event ctx req) preferences))
  /\ sendNotification s ctx [] req (w, tr) = (Some delivery_failed, (w, tr)).
Proof.
  intros Hatt Hfail. split; [|reflexivity].
  rewrite <- (app_nil_r preferences) at 1.
  by rewrite (sendNotification_skips_failures ctx preferences [] req w tr
                errs w1 Hatt Hfail).
Qed.

End Dispatch.
End dispatcher.

(** ** The resolver *)

Module resolver.
Import repository client service.

Section Resolve.
Context {W : Type} (s : NotificationService (W := W)).

Local Abbreviation Get := (cache_Get (cacheProvider s)).
Local Abbreviation Set_ := (cache_Set (cacheProvider s)).
Local Abbreviation FindBy := (FindByProviderType (persistentProvider s)).

(** A hit: the cached value, after the one call [Get]. *)
Lemma resolve_hit ctx providerType w tr preferences w1 :
  Get providerType w = ((preferences, None), w1) ->
  getNotificationPreferences s ctx providerType (w, tr) =
  ((preferences, None), (w1, tr ++ [CacheGet providerType])).
Proof.
  intros HGet. unfold getNotificationPreferences, bind, call_Get, call.
  cbn [fst snd]. by rewrite HGet.
Qed.

(** Any error from [Get], then an error from the store. *)
Lemma resolve_store_error ctx providerType w tr cached e w1 found err w2 :
  Get providerType w = ((cached, Some e), w1) ->
  FindBy ctx providerType w1 = ((found, Some err), w2) ->
  getNotificationPreferences s ctx providerType (w, tr) =
  (([], Some err),
   (w2, tr ++ [CacheGet providerType; StoreFind ctx providerType])).
Proof.
  intros HGet HFind.
  unfold getNotificationPreferences, bind, call_Get, call_Find, call.
  cbn [fst snd]. rewrite HGet. cbn [fst snd]. rewrite HFind.
  cbn [fst snd]. unfold ret. by rewrite <- app_assoc.
Qed.

(** Any error from [Get], then a result from the store. *)
Lemma resolve_store_success ctx providerType w tr cached e w1 found w2
    set_err w3 :
  Get providerType w = ((cached, Some e), w1) ->
  FindBy ctx providerType w1 = ((found, None), w2) ->
  Set_ providerType found w2 = (set_err, w3) ->
  getNotificationPreferences s ctx providerType (w, tr) =
  ((found, None),
   (w3, tr ++ [CacheGet providerType; StoreFind ctx providerType;
               CacheSet providerType found])).
Proof.
  intros HGet HFind HSet.
  unfold getNotificationPreferences, bind, call_Get, call_Find, call_Set,
    call.
  cbn [fst snd]. rewrite HGet. cbn [fst snd]. rewrite HFind.
  cbn [fst snd]. rewrite HSet. unfold ret.
  by rewrite <- !app_assoc.
Qed.

(** C3.  [getNotificationPreferences] is cache-aside.
    - Hit ([Get] returns a nil error): it returns the cached list; the
      only call made is [Get], so the store is not read and the cache is
      not written.
    - Miss, and the store returns an error: it returns that same error;
      the calls made are [Get] then [FindByProviderType], and the cache
      is not written.
    - Miss, and the store returns a list: the calls made are [Get],
      [FindByProviderType], then [Set] with the list the store returned,
      and that list is the result. *)
Theorem getNotificationPreferences_cache_aside ctx providerType w tr :
  (forall preferences w1,
      Get providerType w = ((preferences, None), w1) ->
      getNotificationPreferences s ctx providerType (w, tr) =
      ((preferences, None), (w1, tr ++ [CacheGet providerType])))
  /\ (forall cached e w1 found err w2,
      Get providerType w = ((cached, Some e), w1) ->
      FindBy ctx providerType w1 = ((found, Some err), w2) ->
      getNotificationPreferences s ctx providerType (w, tr) =
      (([], Some err),
       (w2, tr ++ [CacheGet providerType; StoreFind ctx providerType])))
  /\ (forall cached e w1 found w2 set_err w3,
      Get providerType w = ((cached, Some e), w1) ->
      FindBy ctx providerType w1 = ((found, None), w2) ->
      Set_ providerType found w2 = (set_err, w3) ->
      getNotificationPreferences s ctx providerType (w, tr) =
      ((found, None),
       (w3, tr ++ [CacheGet providerType; StoreFind ctx providerType;
                   CacheSet providerType found]))).
Proof.
  split; [|split]; intros.
  - by apply resolve_hit.
  - by eapply resolve_store_error.
  - by eapply resolve_store_success.
Qed.

(** C10.  Whatever error [Get] returns, and whatever list comes with it,
    the resolver goes on to the store exactly as on a miss: its result is
    the result of the store path, in which the error of [Get] has no
    part; the error it returns, if any, is the one the store returned. *)
Theorem getNotificationPreferences_any_cache_error
    ctx providerType w tr cached e w1 :
  Get providerType w = ((cached, Some e), w1) ->
  getNotificationPreferences s ctx providerType (w, tr) =
    after_miss s ctx providerType (w1, tr ++ [CacheGet providerType])
  /\ snd (fst (getNotificationPreferences s ctx providerType (w, tr))) =
     snd (fst (FindBy ctx providerType w1)).
Proof.
  intros HGet.
  assert (Heq : getNotificationPreferences s ctx providerType (w, tr) =
                after_miss s ctx providerType
                  (w1, tr ++ [CacheGet providerType])).
  { unfold getNotificationPreferences, after_miss, bind at 1.
    unfold call_Get, call. cbn [fst snd]. by rewrite HGet. }
  split; [exact Heq|].
  rewrite Heq. unfold after_miss, bind, call_Find, call_Set, call.
  cbn [fst snd].
  destruct (FindBy ctx providerType w1) as [[found [err|]] w2];
    cbn [fst snd]; [reflexivity|].
  by destruct (Set_ providerType found w2).
Qed.

End Resolve.
End resolver.

(** ** The preference cache *)

Module cache.
Import repository client service app.


Lemma Cache_Get_unchanged key c : snd (Cache_Get key c) = c.
Proof.
  unfold Cache_Get. destruct (Engine_Get _ _) as [value found].
  by destruct found.
Qed.

(** What [Set] leaves in the engine, for a TTL that is not negative. *)
Lemma Cache_Set_item key values c :
  0 <= expiredTime c ->
  snd (Cache_Set key values c) =
  mkCache
    (mkEngine
       (<[cacheKeyPattern (NotificationProvider_String key) :=
            mkItem values (if expiredTime c =? 0 then None
                           else Some (now (engine c) + expiredTime c))]>
          (items (engine c)))
       (now (engine c)))
    (expiredTime c).
Proof.
  intros Httl. unfold Cache_Set, Engine_SetWithTTL.
  destruct (Z.ltb_spec (expiredTime c) 0) as [Hneg|_]; [lia|reflexivity].
Qed.


Section Resolves.
Context {X : Type} (store : PersistentProvider X)
        (http : HTTPClientProvider X).

Local Abbreviation resolve :=
  (getNotificationPreferences (wire store http)).

Lemma store_calls_app tr1 tr2 :
  store_calls (tr1 ++ tr2) = (store_calls tr1 + store_calls tr2)%nat.
Proof. unfold store_calls. by rewrite List.filter_app, length_app. Qed.

Lemma Cache_Get_eq key c r c1 : Cache_Get key c = (r, c1) -> c1 = c.
Proof. intros HG. pose proof (Cache_Get_unchanged key c) as Hc.
       by rewrite HG in Hc. Qed.

Lemma wire_hit ctx key c x tr preferences :
  Cache_Get key c = ((preferences, None), c) ->
  resolve ctx key ((c, x), tr) =
  ((preferences, None), ((c, x), tr ++ [CacheGet key])).
Proof.
  intros HG. apply resolver.resolve_hit.
  cbn. unfold on_fst. cbn. by rewrite HG.
Qed.

Lemma wire_miss_error ctx key c x tr cached e found err x1 :
  Cache_Get key c = ((cached, Some e), c) ->
  FindByProviderType store ctx key x = ((found, Some err), x1) ->
  resolve ctx key ((c, x), tr) =
  (([], Some err), ((c, x1), tr ++ [CacheGet key; StoreFind ctx key])).
Proof.
  intros HG HF.
  apply (resolver.resolve_store_error _ _ _ _ _ cached e (c, x) found).
  - cbn. unfold on_fst. cbn. by rewrite HG.
  - cbn. unfold on_snd. cbn. by rewrite HF.
Qed.

Lemma wire_miss_success ctx key c x tr cached e found x1 :
  Cache_Get key c = ((cached, Some e), c) ->
  FindByProviderType store ctx key x = ((found, None), x1) ->
  resolve ctx key ((c, x), tr) =
  ((found, None),
   ((snd (Cache_Set key found c), x1),
    tr ++ [CacheGet key; StoreFind ctx key; CacheSet key found])).
Proof.
  intros HG HF.
  apply (resolver.resolve_store_success _ _ _ _ _ cached e (c, x) found
           (c, x1) (fst (Cache_Set key found c))).
  - cbn. unfold on_fst. cbn. by rewrite HG.
  - cbn. unfold on_snd. cbn. by rewrite HF.
  - cbn. unfold on_fst. cbn. by destruct (Cache_Set key found c).
Qed.



End Resolves.
End cache.

(** ** What the service preserves *)

Module preservation.
Import repository client service.

Lemma bind_eq {S A B : Type} (m : M S A) (k : A -> M S B) (st : S) :
  bind m k st = k (fst (m st)) (snd (m st)).
Proof. unfold bind. by destruct (m st). Qed.

Lemma call_eq {W A : Type} (ev : Event) (m : M W A) (st : St (W := W)) :
  call ev m st = (fst (m (fst st)), (snd (m (fst st)), snd st ++ [ev])).
Proof. unfold call. by destruct (m (fst st)). Qed.

Section Preserved.
Context {W : Type} (s : NotificationService (W := W)).

(** A property [I] of the world that reads of the cache and of the
    store and calls of the client keep, that writes of a non-empty list
    to the cache keep, in a world whose store answers a nil error only
    with a non-empty list. *)
Variable I : W -> Prop.
Hypothesis Get_keeps : forall key w,
  I w -> I (snd (cache_Get (cacheProvider s) key w)).
Hypothesis Find_keeps : forall ctx key w,
  I w -> I (snd (FindByProviderType (persistentProvider s) ctx key w)).
Hypothesis Find_nonempty : forall ctx key w,
  snd (fst (FindByProviderType (persistentProvider s) ctx key w)) = None ->
  fst (fst (FindByProviderType (persistentProvider s) ctx key w)) <> [].
Hypothesis Set_keeps : forall key values w,
  I w -> values <> [] ->
  I (snd (cache_Set (cacheProvider s) key values w)).
Hypothesis Post_keeps : forall ctx u reqBody w,
  I w -> I (snd (Post (httpclient s) ctx u reqBody w)).

Lemma getNotificationPreferences_keeps ctx key st :
  I (fst st) ->
  I (fst (snd (getNotificationPreferences s ctx key st))).
Proof.
  intros HI. unfold getNotificationPreferences.
  rewrite bind_eq. unfold call_Get. rewrite call_eq. cbn [fst snd].
  destruct (snd (fst (cache_Get (cacheProvider s) key (fst st)))).
  - rewrite bind_eq. unfold call_Find. rewrite call_eq. cbn [fst snd].
    destruct (snd (fst (FindByProviderType _ ctx key _))) eqn:HF.
    + cbn. by apply Find_keeps, Get_keeps.
    + rewrite bind_eq. unfold call_Set. rewrite call_eq. cbn.
      apply Set_keeps; [by apply Find_keeps, Get_keeps|].
      by apply Find_nonempty.
  - cbn. by apply Get_keeps.
Qed.

Lemma sendNotification_keeps ctx preferences :
  forall req st,
    I (fst st) -> I (fst (snd (sendNotification s ctx preferences req st))).
Proof.
  induction preferences as [|p rest IH]; intros req st HI; [done|].
  cbn [sendNotification]. rewrite bind_eq. unfold call_Post.
  rewrite call_eq. cbn [fst snd].
  destruct (fst (Post _ _ _ _ _)).
  - apply IH. cbn. by apply Post_keeps.
  - cbn. by apply Post_keeps.
Qed.

Lemma resolve_and_send_keeps ctx key req st :
  I (fst st) -> I (fst (snd (resolve_and_send s ctx key req st))).
Proof.
  intros HI. unfold resolve_and_send. rewrite bind_eq.
  pose proof (getNotificationPreferences_keeps ctx key st HI) as HI'.
  destruct (snd (fst (getNotificationPreferences s ctx key st))).
  - exact HI'.
  - by apply sendNotification_keeps.
Qed.

Lemma goroutine_step_keeps parent req0 unit p g st :
  I (fst st) -> writes_nonempty p ->
  I (fst (snd (goroutine_step s parent req0 unit p g st)))
  /\ writes_nonempty (fst (fst (goroutine_step s parent req0 unit p g st))).
Proof.
  intros HI Hp. destruct p as [key|key|key preferences|preferences req|].
  - cbn [goroutine_step]. rewrite bind_eq. unfold call_Get.
    rewrite call_eq. cbn [fst snd].
    destruct (snd (fst (cache_Get _ key _))); cbn;
      (split; [by apply Get_keeps|done]).
  - cbn [goroutine_step]. rewrite bind_eq. unfold call_Find.
    rewrite call_eq. cbn [fst snd].
    destruct (snd (fst (FindByProviderType _ _ key _))) eqn:HF; cbn.
    + split; [by apply Find_keeps|done].
    + split; [by apply Find_keeps|by apply Find_nonempty].
  - cbn [goroutine_step]. rewrite bind_eq. unfold call_Set.
    rewrite call_eq. cbn. split; [by apply Set_keeps|done].
  - destruct preferences as [|p rest]; [by cbn|].
    cbn [goroutine_step]. rewrite bind_eq. unfold call_Post.
    rewrite call_eq. cbn [fst snd].
    destruct (fst (Post _ _ _ _ _)); cbn;
      (split; [by apply Post_keeps|done]).
  - by cbn.
Qed.

Lemma finish_send_keeps parent unit preferences req g st :
  I (fst st) ->
  I (fst (snd (finish_send s parent unit preferences req g st))).
Proof.
  intros HI. unfold finish_send. rewrite !bind_eq. cbn.
  by apply sendNotification_keeps.
Qed.

Lemma finish_find_keeps parent req0 unit key g st :
  I (fst st) ->
  I (fst (snd (finish_find s parent req0 unit key g st))).
Proof.
  intros HI. unfold finish_find. rewrite bind_eq. unfold call_Find.
  rewrite call_eq. cbn [fst snd].
  destruct (snd (fst (FindByProviderType _ _ key _))) eqn:HF.
  - rewrite bind_eq. cbn. by apply Find_keeps.
  - rewrite bind_eq. unfold call_Set. rewrite call_eq. cbn [fst snd].
    apply finish_send_keeps. cbn.
    apply Set_keeps; [by apply Find_keeps|by apply Find_nonempty].
Qed.

Lemma goroutine_finish_keeps parent req0 unit p g st :
  I (fst st) -> writes_nonempty p ->
  I (fst (snd (goroutine_finish s parent req0 unit p g st))).
Proof.
  intros HI Hp. destruct p as [key|key|key preferences|preferences req|];
    cbn [goroutine_finish].
  - rewrite bind_eq. unfold call_Get. rewrite call_eq. cbn [fst snd].
    destruct (snd (fst (cache_Get _ key _))).
    + apply finish_find_keeps. cbn. by apply Get_keeps.
    + apply finish_send_keeps. cbn. by apply Get_keeps.
  - by apply finish_find_keeps.
  - rewrite bind_eq. unfold call_Set. rewrite call_eq. cbn [fst snd].
    apply finish_send_keeps. cbn. by apply Set_keeps.
  - by apply finish_send_keeps.
  - done.
Qed.

Lemma machine_step_keeps parent req0 unit m st :
  I (fst st) -> machine_ok m ->
  I (fst (snd (machine_step s parent req0 unit m st)))
  /\ machine_ok (fst (machine_step s parent req0 unit m st)).
Proof.
  intros HI [He Hp]. unfold machine_step. rewrite bind_eq.
  assert (Hu : writes_nonempty (goroutine_of m unit)) by by destruct unit.
  destruct (goroutine_step_keeps parent req0 unit (goroutine_of m unit)
              (m_group m) st HI Hu) as [HI' Hp'].
  cbn. split; [exact HI'|]. by destruct unit; split.
Qed.

Lemma machine_run_keeps parent req0 sched :
  forall m st,
    I (fst st) -> machine_ok m ->
    I (fst (snd (machine_run s parent req0 sched m st)))
    /\ machine_ok (fst (machine_run s parent req0 sched m st)).
Proof.
  induction sched as [|unit sched IH]; intros m st HI Hm; [done|].
  cbn [machine_run]. rewrite bind_eq.
  destruct (machine_step_keeps parent req0 unit m st HI Hm) as [HI' Hm'].
  by apply IH.
Qed.

Lemma SendToSeller_keeps sched ctx to title message st :
  I (fst st) ->
  I (fst (snd (SendToSeller s sched ctx to title message st))).
Proof.
  intros HI. unfold SendToSeller. rewrite bind_eq.
  set (req := mkRequest to title message "").
  destruct (machine_run_keeps ctx req sched
              (mkMachine (mkGroup None false) (AtGet EmailProvider)
                         (AtGet PushNotificationProvider)) st HI)
    as [HI' [He Hp]]; [done|].
  unfold Wait. rewrite !bind_eq. cbn [ret snd].
  apply goroutine_finish_keeps; [|exact Hp].
  by apply goroutine_finish_keeps.
Qed.

End Preserved.
End preservation.

(** ** Non-empty preference sets *)

Module nonempty.
Import repository client service app.

Lemma insert_row_not_nil r l : insert_row r l <> [].
Proof.
  destruct l as [|x xs]; cbn; [done|].
  by destruct (priority_le _ _).
Qed.

Lemma order_by_priority_nil l : order_by_priority l = [] <-> l = [].
Proof.
  split; [|by intros ->].
  destruct l as [|r l]; [done|]. cbn. intros Hnil.
  by apply insert_row_not_nil in Hnil.
Qed.

Lemma FindByProviderType_unchanged ctx key p :
  snd (Persistent_FindByProviderType ctx key p) = p.
Proof.
  unfold Persistent_FindByProviderType.
  destruct (Find ctx _ (conn p)) as [preferences [err|]]; [done|].
  by destruct (length preferences =? 0)%nat.
Qed.

(** The store answers a nil error only with a list that is not empty. *)
Lemma FindByProviderType_nonempty ctx key p :
  snd (fst (Persistent_FindByProviderType ctx key p)) = None ->
  fst (fst (Persistent_FindByProviderType ctx key p)) <> [].
Proof.
  unfold Persistent_FindByProviderType.
  destruct (Find ctx _ (conn p)) as [preferences [err|]]; [done|].
  destruct (Nat.eqb_spec (length preferences) 0) as [Hz|Hnz]; [done|].
  cbn. intros _ ->. by apply Hnz.
Qed.

(** No selected row, and a database that answers: the typed not-found. *)
Lemma FindByProviderType_not_found ctx key p :
  ctx_err ctx = None -> db_err (conn p) = None ->
  List.filter (selected (NotificationProvider_String key)) (table (conn p)) = [] ->
  Persistent_FindByProviderType ctx key p = (([], Some ErrRecordNotFound), p).
Proof.
  intros Hctx Hdb Hnone.
  unfold Persistent_FindByProviderType, Find.
  by rewrite Hctx, Hdb, Hnone.
Qed.

Lemma NewCache_nonempty ttl t0 : nonempty_entries (NewCache ttl t0).
Proof. intros k it Hk. cbn in Hk. by rewrite lookup_empty in Hk. Qed.

Lemma Cache_Set_nonempty key values c :
  nonempty_entries c -> values <> [] ->
  nonempty_entries (snd (Cache_Set key values c)).
Proof.
  intros Hc Hv k it. unfold Cache_Set, Engine_SetWithTTL.
  destruct (expiredTime c <? 0); cbn; [apply Hc|].
  intros [[<- <-]|[_ Hk]]%lookup_insert_Some; [done|by eapply Hc].
Qed.

Lemma Cache_Get_nonempty key c :
  nonempty_entries c ->
  snd (fst (Cache_Get key c)) = None -> fst (fst (Cache_Get key c)) <> [].
Proof.
  intros Hc. unfold Cache_Get, Engine_Get.
  destruct (items (engine c) !! _) as [it|] eqn:Hk; [|done].
  destruct (expired _ it); [done|]. cbn. intros _. by eapply Hc.
Qed.

Section Reachable.
Context `{Libs}.

Local Abbreviation cache_of := (fun st : St (W := World) => fst (fst st)).
Local Abbreviation persistent_of :=
  (fun st : St (W := World) => fst (snd (fst st))).

Local Abbreviation I := entries_nonempty.

Lemma I_Get key w :
  I w -> I (snd (cache_Get (cacheProvider NewNotificationService) key w)).
Proof.
  intros HI. cbn. unfold on_fst, entries_nonempty.
  pose proof (cache.Cache_Get_unchanged key (fst w)) as Hc.
  destruct (Cache_Get key (fst w)). cbn in *. by subst.
Qed.

Lemma I_Find ctx key w :
  I w ->
  I (snd (FindByProviderType (persistentProvider NewNotificationService)
            ctx key w)).
Proof.
  intros HI. cbn. unfold on_snd, on_fst, entries_nonempty.
  by destruct (Persistent_FindByProviderType ctx key _).
Qed.

Lemma I_Find_nonempty ctx key (w : World) :
  snd (fst (FindByProviderType (persistentProvider NewNotificationService)
              ctx key w)) = None ->
  fst (fst (FindByProviderType (persistentProvider NewNotificationService)
              ctx key w)) <> [].
Proof.
  cbn. unfold on_snd, on_fst.
  pose proof (FindByProviderType_nonempty ctx key (fst (snd w))) as Hne.
  by destruct (Persistent_FindByProviderType ctx key _).
Qed.

Lemma I_Set key values w :
  I w -> values <> [] ->
  I (snd (cache_Set (cacheProvider NewNotificationService) key values w)).
Proof.
  intros HI Hv. cbn. unfold on_fst, entries_nonempty.
  pose proof (Cache_Set_nonempty key values (fst w) HI Hv) as Hc.
  by destruct (Cache_Set key values (fst w)).
Qed.

Lemma I_Post ctx u reqBody w :
  I w ->
  I (snd (Post (httpclient NewNotificationService) ctx u reqBody w)).
Proof.
  intros HI. cbn. unfold on_snd, entries_nonempty.
  by destruct (HTTPClient_Post ctx u reqBody _).
Qed.

Lemma act_keeps a st : I (fst st) -> I (fst (act a st)).
Proof.
  intros HI. destruct a; cbn [act].
  - apply preservation.getNotificationPreferences_keeps;
      auto using I_Get, I_Find, I_Find_nonempty, I_Set.
  - unfold SendToBuyer. apply preservation.resolve_and_send_keeps;
      auto using I_Get, I_Find, I_Find_nonempty, I_Set, I_Post.
  - apply preservation.SendToSeller_keeps;
      auto using I_Get, I_Find, I_Find_nonempty, I_Set, I_Post.
  - exact HI.
  - exact HI.
Qed.

Lemma acts_keep l : forall st, I (fst st) -> I (fst (acts l st)).
Proof.
  induction l as [|a l IH]; intros st HI; [done|].
  cbn. apply IH. by apply act_keeps.
Qed.

(** C7.  In the running service (the cache as [NewCache] makes it, then
    any course of resolves, buyer and seller notifications, time passing
    and changes of the database), for every channel: a [Get] that returns
    a nil error returns a list that is not empty, and so does a
    [FindByProviderType] that returns a nil error; when the database
    answers and has no row of the channel that is not deleted, the store
    returns [ErrRecordNotFound]. *)
Theorem successful_results_nonempty
    (ttl t0 : Z) (p0 : Persistent) (proc0 : Process) (l : list Action)
    (ctx : Context) (key : NotificationProvider) :
  let st := acts l ((NewCache ttl t0, (p0, proc0)), []) in
  (snd (fst (Cache_Get key (cache_of st))) = None ->
   fst (fst (Cache_Get key (cache_of st))) <> [])
  /\ (snd (fst (Persistent_FindByProviderType ctx key (persistent_of st)))
        = None ->
      fst (fst (Persistent_FindByProviderType ctx key (persistent_of st)))
        <> [])
  /\ (ctx_err ctx = None -> db_err (conn (persistent_of st)) = None ->
      List.filter (selected (NotificationProvider_String key))
                  (table (conn (persistent_of st))) = [] ->
      Persistent_FindByProviderType ctx key (persistent_of st) =
      (([], Some ErrRecordNotFound), persistent_of st)).
Proof.
  intros st. split; [|split].
  - apply Cache_Get_nonempty. subst st.
    apply (acts_keep l). apply NewCache_nonempty.
  - apply FindByProviderType_nonempty.
  - apply FindByProviderType_not_found.
Qed.

End Reachable.
End nonempty.

(** ** The circuit breaker registry *)

Module registry_facts.
Import repository client.
Import preservation.

Section Registry.
Context `{Libs}.

#[local] Instance grows_refl : Reflexive grows.
Proof. intros p. by split. Qed.

#[local] Instance grows_trans : Transitive grows.
Proof.
  intros p1 p2 p3 [Hh1 Hb1] [Hh2 Hb2]. split; by etransitivity.
Qed.

Lemma caller_ok_grows p p' c : grows p p' -> caller_ok p c -> caller_ok p' c.
Proof.
  intros [Hh Hb]. destruct c as [host|host cb|host cb]; cbn; [done| |].
  - intros (o & Ho & Hn). exists o. split; [|done].
    by eapply prefix_lookup_Some.
  - intros Hl. by eapply lookup_weaken.
Qed.

(** [GetOrCreate] is its two steps, one after the other. *)
Lemma GetOrCreate_steps host p :
  GetOrCreate host p =
  let (c1, p1) := caller_step (AtLoad host) p in
  let (c2, p2) := caller_step c1 p1 in
  (default 0%nat (caller_result c2), p2).
Proof.
  unfold GetOrCreate, caller_step, bind, ret, Load. cbn.
  destruct (breakers (registry p) !! host) as [cb|] eqn:Hl; [done|].
  unfold NewCircuitBreaker, LoadOrStore. cbn. by rewrite Hl.
Qed.

(** What [GetOrCreate] leaves as it was, and what it adds. *)
Lemma GetOrCreate_frame host p :
  let cb := fst (GetOrCreate host p) in
  let p1 := snd (GetOrCreate host p) in
  breakers (registry p1) !! host = Some cb
  /\ (forall host', host' <> host ->
        breakers (registry p1) !! host' = breakers (registry p) !! host')
  /\ settings (registry p1) = settings (registry p)
  /\ clock p1 = clock p
  /\ net p1 = net p
  /\ ((p1 = p /\ breakers (registry p) !! host = Some cb)
      \/ (breakers (registry p) !! host = None
          /\ cb = length (heap p)
          /\ heap p1 = heap p ++
               [mkCircuitBreaker host
                  (gobreaker_New (with_Name (settings (registry p)) host))])).
Proof.
  unfold GetOrCreate, bind, ret, Load, NewCircuitBreaker, LoadOrStore. cbn.
  destruct (breakers (registry p) !! host) as [cb|] eqn:Hl; cbn.
  - repeat split; try done. by left.
  - rewrite Hl. cbn. rewrite lookup_insert_eq.
    repeat split; try done.
    + intros host' Hne. by rewrite lookup_insert_ne.
    + by right.
Qed.

Lemma GetOrCreate_wf host p :
  wf_registry p ->
  let cb := fst (GetOrCreate host p) in
  let p1 := snd (GetOrCreate host p) in
  wf_registry p1
  /\ exists o, heap p1 !! cb = Some o /\ cb_Name o = host.
Proof.
  intros Hwf cb p1.
  destruct (GetOrCreate_frame host p) as (Hcb & Hother & _ & _ & _ & Hcase).
  fold cb p1 in Hcb, Hother, Hcase.
  destruct Hcase as [[Hp Hl]|(Hl & Hlen & Hheap)].
  - rewrite Hp. split; [done|]. by apply Hwf.
  - assert (Hnew : exists o, heap p1 !! cb = Some o /\ cb_Name o = host).
    { rewrite Hheap, Hlen. eexists.
      split; [by apply list_lookup_middle|done]. }
    split; [|done]. intros h c Hh.
    destruct (decide (h = host)) as [->|Hne].
    + rewrite Hcb in Hh. by injection Hh as <-.
    + rewrite Hother in Hh by done. destruct (Hwf h c Hh) as (o & Ho & Hn).
      exists o. split; [|done]. rewrite Hheap.
      rewrite lookup_app_l; [done|]. by eapply lookup_lt_Some.
Qed.

(** A second [GetOrCreate] for a host returns the breaker of the first
    and changes nothing. *)
Lemma GetOrCreate_again host p :
  GetOrCreate host (snd (GetOrCreate host p))
  = (fst (GetOrCreate host p), snd (GetOrCreate host p)).
Proof.
  destruct (GetOrCreate_frame host p) as (Hcb & _). cbn zeta in Hcb.
  unfold GetOrCreate at 1. unfold bind, ret, Load. by rewrite Hcb.
Qed.

(** *** One caller on its own *)

(** A caller that has taken its two steps has returned what [GetOrCreate]
    returns, and stays there. *)
Lemma caller_two_steps host p :
  let s1 := caller_step (AtLoad host) p in
  let s2 := caller_step (fst s1) (snd s1) in
  s2 = (Returned host (fst (GetOrCreate host p)), snd (GetOrCreate host p))
  /\ caller_step (fst s2) (snd s2) = s2.
Proof.
  cbn zeta. rewrite GetOrCreate_steps.
  assert (H1 : caller_step (AtLoad host) p
               = match breakers (registry p) !! host with
                 | Some cb => (Returned host cb, p)
                 | None =>
                     (AtLoadOrStore host (length (heap p)),
                      snd (NewCircuitBreaker
                             (with_Name (settings (registry p)) host) p))
                 end).
  { unfold caller_step, bind, ret, Load. cbn.
    destruct (breakers (registry p) !! host); reflexivity. }
  rewrite H1. destruct (breakers (registry p) !! host) as [cb|] eqn:Hl.
  - done.
  - set (q := snd (NewCircuitBreaker (with_Name (settings (registry p)) host)
                     p)).
    assert (H2 : caller_step (AtLoadOrStore host (length (heap p))) q
                 = (Returned host (length (heap p)),
                    snd (LoadOrStore host (length (heap p)) q))).
    { unfold caller_step, bind, ret, LoadOrStore. cbn. by rewrite Hl. }
    cbv beta iota zeta. cbn [fst snd]. rewrite H2. by cbn [fst snd].
Qed.

(** Stepping a caller [k] times. *)
Local Abbreviation steps k c q :=
  (Nat.iter k (fun cq : Caller * Process => caller_step (fst cq) (snd cq))
            (c, q)).

Lemma steps_comm k : forall c q,
  steps (S k) c q
  = steps k (fst (caller_step c q)) (snd (caller_step c q)).
Proof.
  induction k as [|k IH]; intros c q.
  - cbn. by destruct (caller_step c q).
  - change (steps (S (S k)) c q)
      with (caller_step (fst (steps (S k) c q)) (snd (steps (S k) c q))).
    rewrite IH. done.
Qed.

Lemma steps_fixed k c q :
  caller_step c q = (c, q) -> steps k c q = (c, q).
Proof.
  intros Hfix. induction k as [|k IH]; [done|].
  change (steps (S k) c q)
    with (caller_step (fst (steps k c q)) (snd (steps k c q))).
  by rewrite IH.
Qed.

(** However the scheduler is asked, a pool of one caller has taken some
    number of steps. *)
Lemma pool_run_single sched : forall c q,
  exists k,
    pool_run sched [c] q = ([fst (steps k c q)], snd (steps k c q)).
Proof.
  induction sched as [|i sched IH]; intros c q.
  - by exists 0%nat.
  - cbn [pool_run]. rewrite bind_eq. destruct i as [|i].
    + unfold pool_step. cbn [lookup list_lookup]. rewrite bind_eq.
      cbn [ret fst snd insert list_insert].
      destruct (IH (fst (caller_step c q)) (snd (caller_step c q)))
        as [k Hk].
      exists (S k). by rewrite Hk, steps_comm.
    + unfold pool_step. cbn [lookup list_lookup ret fst snd].
      destruct (IH c q) as [k Hk]. by exists k.
Qed.

Lemma GetOrCreate_alone sched host p :
  GetOrCreate_concurrently sched [host] p
  = ([Returned host (fst (GetOrCreate host p))], snd (GetOrCreate host p)).
Proof.
  unfold GetOrCreate_concurrently. rewrite !bind_eq.
  change (AtLoad <$> [host]) with [AtLoad host].
  destruct (pool_run_single sched (AtLoad host) p) as [k ->].
  cbn [fst snd pool_sweep]. rewrite !bind_eq. cbn [ret fst snd pool_sweep].
  rewrite !bind_eq. cbn [ret fst snd].
  unfold ret.
  assert (E : caller_step
                (fst (caller_step (fst (steps k (AtLoad host) p))
                                  (snd (steps k (AtLoad host) p))))
                (snd (caller_step (fst (steps k (AtLoad host) p))
                                  (snd (steps k (AtLoad host) p))))
              = steps (S (S k)) (AtLoad host) p) by reflexivity.
  rewrite E, !steps_comm.
  destruct (caller_two_steps host p) as [H2 Hfix]. cbn zeta in H2, Hfix.
  rewrite steps_fixed by (rewrite Hfix; apply surjective_pairing).
  cbn [fst snd]. by rewrite H2.
Qed.

Lemma caller_step_ok c p :
  wf_registry p -> caller_ok p c ->
  wf_registry (snd (caller_step c p))
  /\ caller_ok (snd (caller_step c p)) (fst (caller_step c p))
  /\ grows p (snd (caller_step c p))
  /\ caller_host (fst (caller_step c p)) = caller_host c
  /\ (steps_left (fst (caller_step c p)) <= pred (steps_left c))%nat.
Proof.
  intros Hwf Hc. destruct c as [host|host cb|host cb].
  - unfold caller_step, bind, ret, Load. cbn.
    destruct (breakers (registry p) !! host) as [cb|] eqn:Hl; cbn.
    + split; [done|]. split; [done|]. split; [done|]. split; [done|lia].
    + split; [|split; [|split; [|split; [done|lia]]]].
      * intros h cb Hh. destruct (Hwf h cb Hh) as (o & Ho & Hn).
        exists o. split; [|done]. cbn.
        rewrite lookup_app_l; [done|]. by eapply lookup_lt_Some.
      * eexists. split; [by apply list_lookup_middle|reflexivity].
      * split; cbn; [by apply prefix_app_r|done].
  - unfold caller_step, bind, ret, LoadOrStore. cbn.
    destruct (breakers (registry p) !! host) as [actual|] eqn:Hl; cbn.
    + split; [done|]. split; [done|]. split; [done|]. split; [done|lia].
    + split; [|split; [|split; [|split; [done|lia]]]].
      * intros h cb' Hh. cbn in Hh.
        apply lookup_insert_Some in Hh as [[<- <-]|[Hne Hh]]; [done|].
        by apply Hwf.
      * by rewrite lookup_insert_eq.
      * split; cbn; [done|by apply insert_subseteq].
  - cbn. split; [done|]. split; [done|]. split; [done|]. split; [done|lia].
Qed.

Lemma pool_step_ok i pool p :
  wf_registry p -> Forall (caller_ok p) pool ->
  wf_registry (snd (pool_step i pool p))
  /\ Forall (caller_ok (snd (pool_step i pool p))) (fst (pool_step i pool p))
  /\ caller_host <$> fst (pool_step i pool p) = caller_host <$> pool.
Proof.
  intros Hwf Hpool. unfold pool_step.
  destruct (pool !! i) as [c|] eqn:Hi; [|done].
  rewrite bind_eq. cbn.
  destruct (caller_step_ok c p Hwf (Forall_lookup_1 _ _ _ _ Hpool Hi))
    as (Hwf' & Hc' & Hg & Hh & _).
  split; [done|]. split.
  - apply Forall_insert; [|done].
    eapply Forall_impl; [exact Hpool|]. intros c0. by apply caller_ok_grows.
  - rewrite list_fmap_insert, Hh. apply list_insert_id.
    by rewrite list_lookup_fmap, Hi.
Qed.

Lemma pool_run_ok sched :
  forall pool p,
    wf_registry p -> Forall (caller_ok p) pool ->
    wf_registry (snd (pool_run sched pool p))
    /\ Forall (caller_ok (snd (pool_run sched pool p)))
              (fst (pool_run sched pool p))
    /\ caller_host <$> fst (pool_run sched pool p) = caller_host <$> pool.
Proof.
  induction sched as [|i sched IH]; intros pool p Hwf Hpool; [done|].
  cbn [pool_run]. rewrite bind_eq.
  destruct (pool_step_ok i pool p Hwf Hpool) as (Hwf' & Hpool' & Hh).
  destruct (IH _ _ Hwf' Hpool') as (Hwf'' & Hpool'' & Hh').
  by rewrite Hh' in *.
Qed.

Lemma pool_sweep_ok pool :
  forall p n,
    wf_registry p -> Forall (caller_ok p) pool ->
    Forall (fun c => steps_left c <= S n)%nat pool ->
    wf_registry (snd (pool_sweep pool p))
    /\ Forall (caller_ok (snd (pool_sweep pool p))) (fst (pool_sweep pool p))
    /\ grows p (snd (pool_sweep pool p))
    /\ caller_host <$> fst (pool_sweep pool p) = caller_host <$> pool
    /\ Forall (fun c => steps_left c <= n)%nat (fst (pool_sweep pool p)).
Proof.
  induction pool as [|c pool IH]; intros p n Hwf Hpool Hleft.
  - cbn. by repeat split.
  - cbn [pool_sweep]. rewrite !bind_eq. cbn [ret fst snd].
    inversion Hpool as [|? ? Hc Hpool']; subst.
    inversion Hleft as [|? ? Hn Hleft']; subst.
    destruct (caller_step_ok c p Hwf Hc) as (Hwf1 & Hc1 & Hg1 & Hh1 & Hs1).
    assert (Hpool1 : Forall (caller_ok (snd (caller_step c p))) pool).
    { eapply Forall_impl; [exact Hpool'|].
      intros c0. by apply caller_ok_grows. }
    destruct (IH _ n Hwf1 Hpool1 Hleft') as (Hwf2 & Hpool2 & Hg2 & Hh2 & Hs2).
    split; [done|]. split; [|split; [|split]].
    + constructor; [|done]. by eapply caller_ok_grows.
    + by etransitivity.
    + cbn. by rewrite Hh1, Hh2.
    + constructor; [lia|done].
Qed.

Lemma steps_left_le_2 pool : Forall (fun c => steps_left c <= 2)%nat pool.
Proof. apply Forall_forall. intros [| |] _; cbn; lia. Qed.

Lemma steps_left_0 c :
  (steps_left c <= 0)%nat -> c = Returned (caller_host c) (default 0%nat (caller_result c)).
Proof. destruct c; cbn; [lia|lia|done]. Qed.

(** C9.  On a registry in which every known host points at a breaker of
    that name (as in the registry [NewCircuitBreakerRegistry] makes, and
    as every call leaves it), let any number of calls [GetOrCreate] run
    side by side, interleaved in any way.  Every call returns; the
    breaker a call for host [h] returns is the one the registry then
    holds for [h], it is named [h], and a later [GetOrCreate(h)] returns
    it again and changes nothing; so two calls return the same breaker
    exactly when their hosts are the same.

    The callers are [GetOrCreate] itself: the function is the two steps
    of a caller one after the other, and a call that runs alone, however
    the scheduler is asked, is the function.  Of the function on its own:
    [GetOrCreate(h)] leaves the registry sound and holding for [h] the
    breaker it returns, which is named [h]; for a host the registry does
    not know, that breaker is a new one, built from the registry's
    settings under the name [h] and stored; for a host it knows, it is
    the one stored, and nothing changes; a second call returns it again.
    Of two calls one after the other: they return the same breaker
    exactly when their hosts are the same, and the first host keeps its
    breaker. *)
Theorem GetOrCreate_idempotent (sched : list nat) (hosts : list string)
    (p : Process) :
  wf_registry p ->
  let pool := fst (GetOrCreate_concurrently sched hosts p) in
  let p' := snd (GetOrCreate_concurrently sched hosts p) in
  wf_registry p'
  /\ (forall i h, hosts !! i = Some h ->
        exists cb, pool !! i = Some (Returned h cb)
          /\ breakers (registry p') !! h = Some cb
          /\ cb_Name <$> heap p' !! cb = Some h
          /\ GetOrCreate h p' = (cb, p'))
  /\ (forall i j hi hj cbi cbj,
        pool !! i = Some (Returned hi cbi) ->
        pool !! j = Some (Returned hj cbj) ->
        hi = hj <-> cbi = cbj)
  /\ (forall h (q : Process),
        GetOrCreate h q =
        let (c1, q1) := caller_step (AtLoad h) q in
        let (c2, q2) := caller_step c1 q1 in
        (default 0%nat (caller_result c2), q2))
  /\ (forall sched' h,
        GetOrCreate_concurrently sched' [h] p
        = ([Returned h (fst (GetOrCreate h p))], snd (GetOrCreate h p)))
  /\ (forall h,
        let cb := fst (GetOrCreate h p) in
        let p1 := snd (GetOrCreate h p) in
        wf_registry p1
        /\ breakers (registry p1) !! h = Some cb
        /\ cb_Name <$> heap p1 !! cb = Some h
        /\ (breakers (registry p) !! h = None ->
            cb = length (heap p)
            /\ heap p1 = heap p ++
                 [mkCircuitBreaker h
                    (gobreaker_New (with_Name (settings (registry p)) h))])
        /\ (forall cb0, breakers (registry p) !! h = Some cb0 ->
            cb = cb0 /\ p1 = p)
        /\ GetOrCreate h p1 = (cb, p1))
  /\ (forall h1 h2,
        let r1 := GetOrCreate h1 p in
        let r2 := GetOrCreate h2 (snd r1) in
        (h1 = h2 <-> fst r1 = fst r2)
        /\ GetOrCreate h1 (snd r2) = (fst r1, snd r2)).
Proof.
  intros Hwf pool p'. subst pool p'.
  unfold GetOrCreate_concurrently. rewrite !bind_eq.
  set (r0 := pool_run sched (AtLoad <$> hosts) p).
  destruct (pool_run_ok sched (AtLoad <$> hosts) p Hwf) as (Hwf0 & Hok0 & Hh0).
  { apply Forall_forall. by intros c [h [-> _]]%list_elem_of_fmap. }
  fold r0 in Hwf0, Hok0, Hh0.
  set (r1 := pool_sweep (fst r0) (snd r0)).
  destruct (pool_sweep_ok (fst r0) (snd r0) 1 Hwf0 Hok0 (steps_left_le_2 _))
    as (Hwf1 & Hok1 & _ & Hh1 & Hs1).
  fold r1 in Hwf1, Hok1, Hh1, Hs1.
  set (r2 := pool_sweep (fst r1) (snd r1)).
  destruct (pool_sweep_ok (fst r1) (snd r1) 0 Hwf1 Hok1 Hs1)
    as (Hwf2 & Hok2 & _ & Hh2 & Hs2).
  fold r2 in Hwf2, Hok2, Hh2, Hs2.
  assert (Hhosts : caller_host <$> fst r2 = hosts).
  { rewrite Hh2, Hh1, Hh0, <- list_fmap_compose.
    rewrite <- (list_fmap_id hosts) at 2. by apply list_fmap_ext. }
  assert (Hret : forall i c, fst r2 !! i = Some c ->
            exists cb, c = Returned (caller_host c) cb
              /\ breakers (registry (snd r2)) !! caller_host c = Some cb).
  { intros i c Hi.
    pose proof (Forall_lookup_1 _ _ _ _ Hs2 Hi) as H0.
    pose proof (Forall_lookup_1 _ _ _ _ Hok2 Hi) as Hc.
    apply steps_left_0 in H0. rewrite H0 in Hc. cbn in Hc.
    eexists. split; [exact H0|exact Hc]. }
  split; [done|]. split; [|split; [|split; [|split; [|split]]]].
  - intros i h Hi.
    assert (Hc : exists c, fst r2 !! i = Some c /\ caller_host c = h).
    { rewrite <- Hhosts, list_lookup_fmap in Hi.
      destruct (fst r2 !! i) as [c|]; [|done]. injection Hi as <-. eauto. }
    destruct Hc as (c & Hc & <-).
    destruct (Hret i c Hc) as (cb & Heq & Hl).
    exists cb. split; [by rewrite Hc, Heq at 1|]. split; [done|].
    destruct (Hwf2 _ _ Hl) as (o & Ho & Hn). split; [by rewrite Ho; cbn; rewrite Hn|].
    unfold GetOrCreate, bind, ret, Load. by rewrite Hl.
  - intros i j hi hj cbi cbj Hi Hj.
    destruct (Hret i _ Hi) as (cbi' & Heqi & Hli).
    destruct (Hret j _ Hj) as (cbj' & Heqj & Hlj).
    cbn in *. injection Heqi as <-. injection Heqj as <-.
    split.
    + intros <-. congruence.
    + intros <-.
      destruct (Hwf2 _ _ Hli) as (oi & Hoi & Hni).
      destruct (Hwf2 _ _ Hlj) as (oj & Hoj & Hnj). congruence.
  - intros h q. apply GetOrCreate_steps.
  - intros sched' h. apply GetOrCreate_alone.
  - intros h. cbn zeta.
    destruct (GetOrCreate_frame h p) as (Gcb & _ & _ & _ & _ & Gcase).
    destruct (GetOrCreate_wf h p Hwf) as (Gwf & o & Go & Gn).
    cbn zeta in Gcb, Gcase.
    split; [done|]. split; [done|].
    split; [by rewrite Go; cbn; rewrite Gn|].
    split; [|split; [|apply GetOrCreate_again]].
    + intros Hl. by destruct Gcase as [[_ Hl']|(_ & Hlen & Hheap)];
        [congruence|].
    + intros cb0 Hl. destruct Gcase as [[Hp Hl']|(Hl' & _)]; [|congruence].
      split; [congruence|done].
  - intros h1 h2. cbn zeta.
    set (g1 := GetOrCreate h1 p). set (g2 := GetOrCreate h2 (snd g1)).
    destruct (GetOrCreate_frame h1 p) as (Gcb1 & _).
    destruct (GetOrCreate_wf h1 p Hwf) as (Gwf1 & _).
    destruct (GetOrCreate_frame h2 (snd g1)) as (Gcb2 & Gother2 & _).
    destruct (GetOrCreate_wf h2 (snd g1) Gwf1) as (Gwf2 & _).
    cbn zeta in Gcb1, Gcb2, Gother2. fold g1 in Gcb1, Gwf1, Gcb2, Gother2.
    fold g2 in Gcb2, Gother2, Gwf2.
    assert (Gkeep : breakers (registry (snd g2)) !! h1 = Some (fst g1)).
    { destruct (decide (h1 = h2)) as [<-|Hne].
      - subst g2. unfold g1 at 1 2. rewrite GetOrCreate_again. exact Gcb1.
      - by rewrite Gother2. }
    split.
    + split.
      * intros <-. subst g2. unfold g1 at 2. by rewrite GetOrCreate_again.
      * intros Heq.
        destruct (Gwf2 _ _ Gkeep) as (o1 & Ho1 & Hn1).
        destruct (Gwf2 _ _ Gcb2) as (o2 & Ho2 & Hn2).
        rewrite Heq in Ho1. congruence.
    + unfold GetOrCreate at 1. unfold bind, ret, Load. by rewrite Gkeep.
Qed.

Lemma NewCircuitBreakerRegistry_wf Config n t :
  wf_registry (mkProcess (NewCircuitBreakerRegistry Config) [] n t).
Proof. intros host cb Hl. cbn in Hl. by rewrite lookup_empty in Hl. Qed.

End Registry.
End registry_facts.

(** ** The trip policy *)

Module trip_policy.
Import client.

Lemma ReadyToTrip_fields Config counts :
  ReadyToTrip Config counts =
  ReadyToTrip
    (mkConfig 5 60000000000 (MinRequestsBeforeTrip Config)
              (FailureThresholdPercent Config))
    (mkCounts (Requests counts) 0 (TotalFailures counts) 0 0).
Proof. reflexivity. Qed.

Lemma agrees_upto_100 : agrees_upto 100 = true.
Proof. vm_compute. reflexivity. Qed.

Lemma agrees_upto_spec n requests failures :
  agrees_upto n = true ->
  1 <= requests < 1 + n -> 0 <= failures <= requests ->
  ReadyToTrip (mkConfig 5 60000000000 3 (float64_of_uint32 60))
              (mkCounts requests 0 failures 0 0)
  = trips_exactly 3 60 requests failures.
Proof.
  intros Hall Hr Hf.
  unfold agrees_upto in Hall. rewrite forallb_forall in Hall.
  specialize (Hall requests). rewrite forallb_forall in Hall.
  apply Bool.eqb_prop, Hall.
  - apply list_elem_of_In, elem_of_seqZ. lia.
  - apply list_elem_of_In, elem_of_seqZ. lia.
Qed.

Lemma ReadyToTrip_exact_60 requests failures :
  1 <= requests <= 100 -> 0 <= failures <= requests ->
  ReadyToTrip (mkConfig 5 60000000000 3 (float64_of_uint32 60))
              (mkCounts requests 0 failures 0 0)
  = trips_exactly 3 60 requests failures.
Proof.
  intros Hr Hf. apply (agrees_upto_spec 100); [exact agrees_upto_100|lia|lia].
Qed.

(** C4.  [ReadyToTrip] is true exactly when there are at least
    [MinRequestsBeforeTrip] requests and the ratio of failures to requests
    is at least the threshold fraction, ratio and fraction being computed
    and compared in [float64] as the closure does; so with fewer requests
    than the minimum it is false whatever the ratio.  At a minimum of 3 and
    a threshold of 60 per cent, five requests with three, four or five
    failures trip (three is the exact boundary) and five requests with two
    failures do not; and on every window of up to 100 requests the closure
    agrees with the policy in exact arithmetic. *)
Theorem ReadyToTrip_policy (Config : CircuitBreakerRegistryConfig)
    (counts : Counts) :
  (ReadyToTrip Config counts = true <->
     MinRequestsBeforeTrip Config <= Requests counts
     /\ float64_ge
          (float64_div (float64_of_uint32 (TotalFailures counts))
                       (float64_of_uint32 (Requests counts)))
          (float64_div (FailureThresholdPercent Config)
                       (float64_of_uint32 100)) = true)
  /\ (Requests counts < MinRequestsBeforeTrip Config ->
      ReadyToTrip Config counts = false)
  /\ (MinRequestsBeforeTrip Config = 3 ->
      FailureThresholdPercent Config = float64_of_uint32 60 ->
      (Requests counts = 5 -> 3 <= TotalFailures counts <= 5 ->
       ReadyToTrip Config counts = true)
      /\ (Requests counts = 5 -> TotalFailures counts = 2 ->
          ReadyToTrip Config counts = false)
      /\ (1 <= Requests counts <= 100 ->
          0 <= TotalFailures counts <= Requests counts ->
          ReadyToTrip Config counts =
          trips_exactly 3 60 (Requests counts) (TotalFailures counts))).
Proof.
  split; [|split].
  - unfold ReadyToTrip. rewrite andb_true_iff, Z.leb_le. reflexivity.
  - intros Hlt. unfold ReadyToTrip.
    destruct (Z.leb_spec (MinRequestsBeforeTrip Config) (Requests counts));
      [lia|reflexivity].
  - intros Hmin Hpct.
    assert (Hexact : 1 <= Requests counts <= 100 ->
              0 <= TotalFailures counts <= Requests counts ->
              ReadyToTrip Config counts =
              trips_exactly 3 60 (Requests counts) (TotalFailures counts)).
    { intros Hr Hf. rewrite ReadyToTrip_fields, Hmin, Hpct.
      by apply ReadyToTrip_exact_60. }
    split; [|split; [|exact Hexact]].
    + intros Hr Hf. rewrite Hexact by lia. unfold trips_exactly.
      rewrite Hr. apply andb_true_iff. split; [done|]. apply Z.leb_le. lia.
    + intros Hr Hf. rewrite Hexact by lia. unfold trips_exactly.
      by rewrite Hr, Hf.
Qed.

End trip_policy.

(** ** Dispatch under a cancelled context *)

Module cancellation.
Import repository client service app.
Import preservation.

Section Cancelled.
Context `{Libs}.

Local Abbreviation svc := NewNotificationService.

Lemma store_breaker_net cb b p : net (store_breaker cb b p) = net p.
Proof. unfold store_breaker. by destruct (heap p !! cb). Qed.

Lemma GetOrCreate_net host p : net (snd (GetOrCreate host p)) = net p.
Proof.
  unfold GetOrCreate, bind, ret, Load, NewCircuitBreaker, LoadOrStore. cbn.
  destruct (breakers (registry p) !! host); [done|]. cbn.
  by destruct (breakers (registry p) !! host).
Qed.

Lemma Breaker_State_net cb p : net (snd (Breaker_State cb p)) = net p.
Proof.
  unfold Breaker_State. destruct (heap p !! cb) as [o|]; [|done].
  destruct (gobreaker_State _ _). cbn. apply store_breaker_net.
Qed.

(** The request [Post] hands to the breaker fails on a context that is
    done, and leaves the network as it was. *)
Lemma do_request_cancelled ctx e u reqBody n :
  honours_cancellation -> ctx_err ctx = Some e ->
  snd (fst (do_request ctx u reqBody n)) <> None
  /\ snd (do_request ctx u reqBody n) = n.
Proof.
  intros Hdo Hctx. destruct (Hdo ctx u reqBody n e Hctx) as [Herr Hnet].
  unfold do_request. rewrite bind_eq, Herr, Hnet. by cbn.
Qed.

Lemma Execute_cancelled ctx e u reqBody cb p :
  honours_cancellation -> ctx_err ctx = Some e ->
  snd (fst (Execute cb (do_request ctx u reqBody) p)) <> None
  /\ net (snd (Execute cb (do_request ctx u reqBody) p)) = net p.
Proof.
  intros Hdo Hctx. unfold Execute.
  destruct (heap p !! cb) as [o|]; [|done].
  destruct (gobreaker_beforeRequest _ _) as [[err|] b]; cbn.
  - split; [done|apply store_breaker_net].
  - destruct (do_request_cancelled ctx e u reqBody (net p) Hdo Hctx)
      as [Herr Hnet].
    destruct (do_request ctx u reqBody (net p)) as [r n']. cbn in *.
    split; [done|]. by rewrite store_breaker_net.
Qed.

(** [Post] on a context that is done returns an error and sends
    nothing. *)
Lemma HTTPClient_Post_cancelled ctx e u reqBody p :
  honours_cancellation -> ctx_err ctx = Some e ->
  fst (HTTPClient_Post ctx u reqBody p) <> None
  /\ net (snd (HTTPClient_Post ctx u reqBody p)) = net p.
Proof.
  intros Hdo Hctx. unfold HTTPClient_Post.
  destruct (extractHost u) as [host [err|]]; [done|].
  rewrite !bind_eq.
  set (p1 := snd (GetOrCreate host p)).
  set (cb := fst (GetOrCreate host p)).
  set (p2 := snd (Breaker_State cb p1)).
  destruct (Execute_cancelled ctx e u reqBody cb p2 Hdo Hctx) as [Herr Hnet].
  assert (Hnet2 : net p2 = net p).
  { subst p2 p1. by rewrite Breaker_State_net, GetOrCreate_net. }
  destruct (snd (fst (Execute cb (do_request ctx u reqBody) p2)))
    as [err|]; [|done].
  cbn. split; [done|]. by rewrite Hnet.
Qed.

Lemma attempts_cancelled ctx e :
  honours_cancellation -> ctx_err ctx = Some e ->
  forall preferences req (w : World),
    Forall failed (fst (attempts svc ctx preferences req w))
    /\ net (snd (snd (snd (attempts svc ctx preferences req w))))
       = net (snd (snd w)).
Proof.
  intros Hdo Hctx.
  induction preferences as [|p rest IH]; intros req w; [by cbn|].
  rewrite dispatcher.attempts_cons.
  destruct (Post (httpclient svc) ctx (Host p)
              (with_SecretKey req (repository.SecretKey p)) w)
    as [err w'] eqn:HP.
  assert (Hp : err <> None /\ net (snd (snd w')) = net (snd (snd w))).
  { cbn in HP. unfold on_snd in HP. cbn in HP.
    destruct (HTTPClient_Post_cancelled ctx e (Host p)
                (with_SecretKey req (repository.SecretKey p))
                (snd (snd w)) Hdo Hctx) as [Herr Hnet].
    destruct (HTTPClient_Post _ _ _ _) as [err0 p0].
    injection HP as <- <-. by cbn in *. }
  destruct Hp as [Herr Hnet].
  destruct (IH req w') as [Hfail Hnet'].
  destruct (attempts svc ctx rest req w') as [errs w'']. cbn in *.
  split; [by constructor|congruence].
Qed.

(** C6 as the code has it.  [sendNotification] does not look at the
    context, it hands it to every [Post].  On a context that is done
    (under a [net/http] that answers such a context with its error and
    sends nothing), every endpoint of the set is attempted, once and in
    order; nothing goes out on the network; and the error returned is the
    one "failure to sent the notifications", not the context's error.
    The context's error reaches the caller from the resolver: when the
    cache does not answer, the store returns it, and [SendToBuyer]
    returns it having made no [Post]. *)
Theorem cancelled_context_dispatch ctx e preferences req to title message
    (w : World) tr :
  honours_cancellation -> ctx_err ctx = Some e ->
  (fst (sendNotification svc ctx preferences req (w, tr))
     = Some delivery_failed
   /\ snd (snd (sendNotification svc ctx preferences req (w, tr)))
      = tr ++ map (attempt_event ctx req) preferences
   /\ net (snd (snd (fst (snd (sendNotification svc ctx preferences req
                                 (w, tr))))))
      = net (snd (snd w)))
  /\ (snd (fst (Cache_Get EmailProvider (fst w))) <> None ->
      SendToBuyer svc ctx to title message (w, tr) =
      (Some e, (w, tr ++ [CacheGet EmailProvider;
                          StoreFind ctx EmailProvider]))).
Proof.
  intros Hdo Hctx. split.
  - destruct (attempts_cancelled ctx e Hdo Hctx preferences req w)
      as [Hfail Hnet].
    destruct (attempts svc ctx preferences req w) as [errs w1] eqn:Hatt.
    pose proof (dispatcher.sendNotification_skips_failures svc ctx
                  preferences [] req w tr errs w1 Hatt Hfail) as Hrun.
    rewrite app_nil_r in Hrun. rewrite Hrun. by cbn.
  - intros Hmiss. destruct w as [c [p proc]]. cbn [fst] in Hmiss.
    destruct (Cache_Get EmailProvider c) as [[cached [err|]] c1] eqn:HG;
      [|done].
    pose proof (cache.Cache_Get_eq _ _ _ _ HG) as ->.
    unfold SendToBuyer, resolve_and_send. rewrite bind_eq.
    rewrite (resolver.resolve_store_error svc ctx EmailProvider
               (c, (p, proc)) tr cached err (c, (p, proc)) [] e
               (c, (p, proc))); [done| |].
    + cbn. unfold on_fst. cbn. by rewrite HG.
    + cbn. unfold on_snd, on_fst. cbn.
      unfold Persistent_FindByProviderType, Find. by rewrite Hctx.
Qed.

End Cancelled.
End cancellation.

(** ** The seller fan-out *)

Module fanout.
Import repository client service.
Import preservation.

(** *** Reading traces *)

Lemma go_returns_app a b : go_returns (a ++ b) = go_returns a ++ go_returns b.
Proof.
  induction a as [|ev a IH]; [done|]. destruct ev; cbn; by rewrite ?IH.
Qed.

Lemma first_error_app a b :
  first_error (a ++ b) =
  match first_error a with Some e => Some e | None => first_error b end.
Proof.
  induction a as [|[u [e|]] a IH]; cbn; done.
Qed.

Lemma failed_in_app a b : failed_in (a ++ b) = failed_in a || failed_in b.
Proof. apply existsb_app. Qed.

Lemma failed_in_first_error tr :
  failed_in tr =
  match first_error (go_returns tr) with Some _ => true | None => false end.
Proof.
  induction tr as [|ev tr IH]; [done|].
  destruct ev as [| | | |u [e|]]; cbn; by rewrite ?IH.
Qed.

Lemma contexts_follow_app parent c a :
  forall b c0, c0 = c ->
    contexts_follow parent c0 (a ++ b) <->
    contexts_follow parent c a
    /\ contexts_follow parent (c || failed_in a) b.
Proof.
  revert c. induction a as [|ev a IH]; intros c b c0 ->.
  - cbn. rewrite orb_false_r. tauto.
  - cbn [app contexts_follow]. rewrite (IH (c || is_failure ev) b _ eq_refl).
    unfold failed_in. cbn [existsb]. rewrite orb_assoc. tauto.
Qed.

Lemma plain_returns ctx tr : plain ctx tr -> go_returns tr = [].
Proof.
  induction 1 as [|ev tr Hev _ IH]; [done|]. by destruct ev.
Qed.

Lemma plain_failed ctx tr : plain ctx tr -> failed_in tr = false.
Proof.
  induction 1 as [|ev tr Hev _ IH]; [done|]. by destruct ev.
Qed.

Lemma plain_follow parent c tr :
  plain (derived parent (mkGroup None c)) tr -> contexts_follow parent c tr.
Proof.
  induction 1 as [|ev tr Hev _ IH]; [done|].
  destruct ev; cbn; rewrite ?orb_false_r; try done.
Qed.

Lemma plain_app ctx a b : plain ctx a -> plain ctx b -> plain ctx (a ++ b).
Proof. apply Forall_app_2. Qed.



(** Two units, each returned once: the returns are two, one per unit. *)
Lemma both_returned (rs : list (bool * option error)) :
  NoDup (map fst rs) -> (forall unit, In unit (map fst rs)) ->
  exists unit e1 e2, rs = [(unit, e1); (negb unit, e2)].
Proof.
  intros Hnd Hall.
  destruct rs as [|[u1 e1] [|[u2 e2] [|[u3 e3] rest]]]; cbn in *.
  - destruct (Hall true).
  - exfalso. destruct (Hall true) as [Ht|[]]. destruct (Hall false) as [Hf|[]].
    congruence.
  - exists u1, e1, e2.
    apply NoDup_cons in Hnd as [Hne _].
    rewrite list_elem_of_In in Hne. cbn in Hne.
    destruct u1, u2; try done; exfalso; apply Hne; by left.
  - exfalso.
    apply NoDup_cons in Hnd as [H1 Hnd].
    apply NoDup_cons in Hnd as [H2 _].
    rewrite list_elem_of_In in H1, H2. cbn in H1, H2.
    destruct u1, u2, u3; tauto.
Qed.

Section Machine.
Context {W : Type} (s : NotificationService (W := W)).

(** *** What one goroutine adds to the trace *)

Lemma sendNotification_plain ctx preferences :
  forall req st,
    exists calls,
      plain ctx calls
      /\ snd (snd (sendNotification s ctx preferences req st))
         = snd st ++ calls.
Proof.
  induction preferences as [|p rest IH]; intros req st.
  - exists []. split; [constructor|]. cbn. by rewrite app_nil_r.
  - cbn [sendNotification]. rewrite bind_eq. unfold call_Post.
    rewrite call_eq. cbn [fst snd].
    destruct (fst (Post _ _ _ _ _)).
    + edestruct IH as (calls & Hplain & ->). cbn [snd].
      eexists (HTTPPost _ _ _ :: calls). split; [by constructor|].
      by rewrite <- app_assoc.
    + eexists [HTTPPost _ _ _]. split; [by repeat constructor|done].
Qed.

(** A step makes calls under the derived context of the moment; it may
    end by handing the goroutine's result to the group. *)
Lemma goroutine_step_shape parent req0 unit p g st :
  p <> Finished ->
  exists calls,
    plain (derived parent g) calls
    /\ ((fst (fst (goroutine_step s parent req0 unit p g st)) <> Finished
         /\ snd (fst (goroutine_step s parent req0 unit p g st)) = g
         /\ snd (snd (goroutine_step s parent req0 unit p g st))
            = snd st ++ calls)
        \/ (exists err,
              fst (goroutine_step s parent req0 unit p g st)
                = (Finished, go_return err g)
              /\ snd (snd (goroutine_step s parent req0 unit p g st))
                 = snd st ++ calls ++ [GoReturn unit err])).
Proof.
  intros Hp. destruct p as [key|key|key preferences|preferences req|];
    [| | | |done].
  - exists [CacheGet key]. split; [by repeat constructor|left].
    cbn [goroutine_step]. rewrite bind_eq. unfold call_Get.
    rewrite call_eq. cbn [fst snd].
    by destruct (snd (fst (cache_Get _ key _))).
  - exists [StoreFind (derived parent g) key].
    split; [by repeat constructor|].
    cbn [goroutine_step]. rewrite bind_eq. unfold call_Find.
    rewrite call_eq. cbn [fst snd].
    destruct (snd (fst (FindByProviderType _ _ key _))) as [err|].
    + right. exists (Some err). cbn. by rewrite <- app_assoc.
    + by left.
  - exists [CacheSet key preferences]. split; [by repeat constructor|left].
    cbn [goroutine_step]. rewrite bind_eq. unfold call_Set.
    by rewrite call_eq.
  - destruct preferences as [|p rest].
    + exists []. split; [constructor|right].
      exists (Some delivery_failed). by cbn.
    + eexists [HTTPPost (derived parent g) _ _].
      split; [by repeat constructor|].
      cbn [goroutine_step]. rewrite bind_eq. unfold call_Post.
      rewrite call_eq. cbn [fst snd].
      destruct (fst (Post _ _ _ _ _)) as [err|].
      * by left.
      * right. exists None. cbn. by rewrite <- app_assoc.
Qed.

Lemma finish_send_shape parent unit preferences req g st :
  exists calls err,
    plain (derived parent g) calls
    /\ fst (finish_send s parent unit preferences req g st)
       = go_return err g
    /\ snd (snd (finish_send s parent unit preferences req g st))
       = snd st ++ calls ++ [GoReturn unit err].
Proof.
  unfold finish_send. rewrite !bind_eq.
  destruct (sendNotification_plain (derived parent g) preferences req st)
    as (calls & Hplain & Htr).
  exists calls, (fst (sendNotification s (derived parent g) preferences req st)).
  split; [done|]. split; [done|]. cbn. by rewrite Htr, app_assoc.
Qed.

Lemma finish_find_shape parent req0 unit key g st :
  exists calls err,
    plain (derived parent g) calls
    /\ fst (finish_find s parent req0 unit key g st) = go_return err g
    /\ snd (snd (finish_find s parent req0 unit key g st))
       = snd st ++ calls ++ [GoReturn unit err].
Proof.
  unfold finish_find. rewrite bind_eq. unfold call_Find.
  rewrite call_eq. cbn [fst snd].
  destruct (snd (fst (FindByProviderType _ _ key _))) as [err|].
  - exists [StoreFind (derived parent g) key], (Some err).
    split; [by repeat constructor|]. rewrite bind_eq. cbn.
    by rewrite <- !app_assoc.
  - rewrite bind_eq. unfold call_Set. rewrite call_eq. cbn [fst snd].
    edestruct finish_send_shape as (calls & err & Hplain & -> & ->).
    eexists (StoreFind _ _ :: CacheSet _ _ :: calls), err.
    split; [by repeat constructor|]. split; [done|].
    cbn [snd]. by rewrite <- !app_assoc.
Qed.

(** A goroutine run to its end, from wherever it stands short of the
    end, makes its calls under one context and returns once. *)
Lemma goroutine_finish_shape parent req0 unit p g st :
  p <> Finished ->
  exists calls err,
    plain (derived parent g) calls
    /\ fst (goroutine_finish s parent req0 unit p g st) = go_return err g
    /\ snd (snd (goroutine_finish s parent req0 unit p g st))
       = snd st ++ calls ++ [GoReturn unit err].
Proof.
  intros Hp. destruct p as [key|key|key preferences|preferences req|];
    [| | | |done]; cbn [goroutine_finish].
  - rewrite bind_eq. unfold call_Get. rewrite call_eq. cbn [fst snd].
    destruct (snd (fst (cache_Get _ key _))).
    + edestruct finish_find_shape as (calls & err & Hplain & -> & ->).
      eexists (CacheGet _ :: calls), err. split; [by repeat constructor|].
      split; [done|]. cbn [snd]. by rewrite <- !app_assoc.
    + edestruct finish_send_shape as (calls & err & Hplain & -> & ->).
      eexists (CacheGet _ :: calls), err. split; [by repeat constructor|].
      split; [done|]. cbn [snd]. by rewrite <- !app_assoc.
  - apply finish_find_shape.
  - rewrite bind_eq. unfold call_Set. rewrite call_eq. cbn [fst snd].
    edestruct finish_send_shape as (calls & err & Hplain & -> & ->).
    eexists (CacheSet _ _ :: calls), err. split; [by repeat constructor|].
    split; [done|]. cbn [snd]. by rewrite <- !app_assoc.
  - apply finish_send_shape.
Qed.

(** The goroutine [SendToSeller] starts for a channel, run alone, is the
    function handed to [g.Go]: resolve, dispatch, and report. *)
Lemma goroutine_finish_body parent req0 unit key g st :
  goroutine_finish s parent req0 unit (AtGet key) g st =
  let r := resolve_and_send s (derived parent g) key req0 st in
  (go_return (fst r) g, (fst (snd r), snd (snd r) ++ [GoReturn unit (fst r)])).
Proof.
  cbn [goroutine_finish]. unfold resolve_and_send, getNotificationPreferences.
  rewrite !bind_eq. unfold call_Get. rewrite call_eq. cbn [fst snd].
  destruct (snd (fst (cache_Get _ key _))).
  - unfold finish_find. rewrite !bind_eq. unfold call_Find.
    rewrite call_eq. cbn [fst snd].
    destruct (snd (fst (FindByProviderType _ _ key _))).
    + by rewrite bind_eq.
    + rewrite !bind_eq. unfold call_Set. rewrite call_eq. cbn [fst snd ret].
      unfold finish_send. by rewrite !bind_eq.
  - cbn [ret fst snd]. unfold finish_send. by rewrite !bind_eq.
Qed.

(** Running to the end is stepping, then running to the end. *)
Lemma goroutine_finish_step parent req0 unit p g st :
  goroutine_finish s parent req0 unit p g st =
  let r := goroutine_step s parent req0 unit p g st in
  goroutine_finish s parent req0 unit (fst (fst r)) (snd (fst r)) (snd r).
Proof.
  destruct p as [key|key|key preferences|preferences req|];
    cbn [goroutine_finish goroutine_step].
  - rewrite !bind_eq. unfold call_Get. rewrite call_eq. cbn [fst snd].
    by destruct (snd (fst (cache_Get _ key _))).
  - unfold finish_find. rewrite !bind_eq. unfold call_Find.
    rewrite call_eq. cbn [fst snd].
    destruct (snd (fst (FindByProviderType _ _ key _))); [|done].
    by rewrite bind_eq.
  - by rewrite !bind_eq.
  - destruct preferences as [|p rest].
    + unfold finish_send. by rewrite !bind_eq.
    + unfold finish_send. rewrite !bind_eq.
      cbn [sendNotification]. rewrite !bind_eq. unfold call_Post.
      rewrite call_eq. cbn [fst snd].
      destruct (fst (Post _ _ _ _ _)); [|done].
      cbn [ret fst snd goroutine_finish]. unfold finish_send.
      by rewrite !bind_eq.
  - done.
Qed.


(** *** The invariant of the machine *)

Lemma goroutine_of_with m unit p g :
  goroutine_of (with_goroutine m unit p g) unit = p.
Proof. by destruct unit. Qed.

Lemma goroutine_of_with_other m unit p g :
  goroutine_of (with_goroutine m unit p g) (negb unit)
  = goroutine_of m (negb unit).
Proof. by destruct unit. Qed.

Lemma m_group_with m unit p g : m_group (with_goroutine m unit p g) = g.
Proof. by destruct unit. Qed.

(** Calls keep the invariant when no goroutine finishes. *)
Lemma inv_calls parent m m' new calls :
  machine_inv parent m new ->
  plain (derived parent (m_group m)) calls ->
  m_group m' = m_group m ->
  (forall unit, goroutine_of m' unit = Finished <->
                goroutine_of m unit = Finished) ->
  machine_inv parent m' (new ++ calls).
Proof.
  intros (Hctx & Hcan & Herr & Hnd & Hfin) Hplain Hg Hsame.
  unfold machine_inv.
  rewrite go_returns_app, (plain_returns _ _ Hplain), app_nil_r,
    failed_in_app, (plain_failed _ _ Hplain), orb_false_r, Hg.
  split; [|split; [done|split; [done|split; [done|]]]].
  - apply (contexts_follow_app parent false new calls false eq_refl).
    split; [done|]. cbn [orb]. apply plain_follow.
    by rewrite <- Hcan.
  - intros unit. by rewrite Hfin, Hsame.
Qed.

(** Calls ended by a return keep the invariant, the goroutine that
    returned being finished from then on. *)
Lemma inv_return parent m m' new calls unit err :
  machine_inv parent m new ->
  plain (derived parent (m_group m)) calls ->
  goroutine_of m unit <> Finished ->
  m_group m' = go_return err (m_group m) ->
  goroutine_of m' unit = Finished ->
  goroutine_of m' (negb unit) = goroutine_of m (negb unit) ->
  machine_inv parent m' (new ++ calls ++ [GoReturn unit err]).
Proof.
  intros (Hctx & Hcan & Herr & Hnd & Hfin) Hplain Hrun Hg Hdone Hother.
  pose proof (failed_in_first_error new) as Hff. rewrite <- Herr in Hff.
  unfold machine_inv.
  rewrite !go_returns_app, (plain_returns _ _ Hplain), !failed_in_app,
    (plain_failed _ _ Hplain), first_error_app, <- Herr, Hg.
  cbn [app go_returns first_error failed_in existsb is_failure map fst].
  rewrite map_app. cbn [map fst].
  split; [|split; [|split; [|split]]].
  - apply (contexts_follow_app parent false new _ false eq_refl).
    split; [done|]. cbn [orb].
    apply (contexts_follow_app parent (failed_in new) calls _ _ eq_refl).
    split; [|by cbn]. apply plain_follow. by rewrite <- Hcan.
  - rewrite Hff. rewrite Hff in Hcan. unfold go_return.
    destruct err as [e|], (g_err (m_group m)) as [e0|]; cbn;
      rewrite ?orb_false_r; done.
  - unfold go_return.
    by destruct err as [e|], (g_err (m_group m)) eqn:Hge.
  - apply NoDup_app. split; [done|]. split; [|apply NoDup_singleton].
    intros x Hx ->%list_elem_of_singleton.
    apply Hrun, Hfin. by apply list_elem_of_In.
  - intros x. rewrite in_app_iff. cbn [In].
    destruct (Bool.bool_dec x unit) as [->|Hne].
    + rewrite Hdone. split; [done|]. intros _. right. by left.
    + assert (x = negb unit) as -> by by destruct x, unit.
      rewrite Hother, Hfin. split; [|by left].
      intros [Hin|[Heq|[]]]; [done|]. by destruct unit.
Qed.

Lemma machine_step_inv parent req0 unit m st tr0 new :
  snd st = tr0 ++ new -> machine_inv parent m new ->
  exists new',
    snd (snd (machine_step s parent req0 unit m st)) = tr0 ++ new'
    /\ machine_inv parent (fst (machine_step s parent req0 unit m st)) new'.
Proof.
  intros Htr Hinv. unfold machine_step. rewrite bind_eq. cbn [ret fst snd].
  destruct (goroutine_of m unit) eqn:Hp.
  5: { exists new. split; [done|].
       rewrite <- (app_nil_r new). apply (inv_calls parent m); try done.
       - constructor.
       - by rewrite m_group_with.
       - intros x. destruct (Bool.bool_dec x unit) as [->|Hne].
         + by rewrite goroutine_of_with, Hp.
         + assert (x = negb unit) as -> by by destruct x, unit.
           by rewrite goroutine_of_with_other. }
  all: rewrite <- Hp;
    destruct (goroutine_step_shape parent req0 unit (goroutine_of m unit)
                (m_group m) st) as (calls & Hplain & Hcase);
    [by rewrite Hp|];
    destruct Hcase as [(Hnf & Hg & Htr')|(err & Hres & Htr')].
  all: try (exists (new ++ calls); split;
            [by rewrite Htr', Htr, app_assoc|];
            apply (inv_calls parent m); try done;
            [by rewrite m_group_with|];
            intros x; destruct (Bool.bool_dec x unit) as [->|Hne];
            [rewrite goroutine_of_with; split; [done|by rewrite Hp]|];
            assert (x = negb unit) as -> by (by destruct x, unit);
            by rewrite goroutine_of_with_other).
  all: exists (new ++ calls ++ [GoReturn unit err]); split;
       [by rewrite Htr', Htr, <- app_assoc|];
       apply (inv_return parent m); try done;
       [by rewrite Hp
       |by rewrite m_group_with, Hres
       |by rewrite goroutine_of_with, Hres
       |by rewrite goroutine_of_with_other].
Qed.

Lemma machine_run_inv parent req0 sched :
  forall m st tr0 new,
    snd st = tr0 ++ new -> machine_inv parent m new ->
    exists new',
      snd (snd (machine_run s parent req0 sched m st)) = tr0 ++ new'
      /\ machine_inv parent (fst (machine_run s parent req0 sched m st))
                     new'.
Proof.
  induction sched as [|unit sched IH]; intros m st tr0 new Htr Hinv.
  - exists new. by split.
  - cbn [machine_run]. rewrite bind_eq.
    destruct (machine_step_inv parent req0 unit m st tr0 new Htr Hinv)
      as (new1 & Htr1 & Hinv1).
    by apply (IH _ _ tr0 new1).
Qed.

(** Under [Wait], goroutine [unit] runs to its end. *)
Lemma goroutine_finish_inv parent req0 unit m st tr0 new :
  snd st = tr0 ++ new -> machine_inv parent m new ->
  exists new',
    snd (snd (goroutine_finish s parent req0 unit (goroutine_of m unit)
                (m_group m) st)) = tr0 ++ new'
    /\ machine_inv parent
         (with_goroutine m unit Finished
            (fst (goroutine_finish s parent req0 unit (goroutine_of m unit)
                    (m_group m) st)))
         new'.
Proof.
  intros Htr Hinv.
  destruct (goroutine_of m unit) eqn:Hp.
  5: { exists new. split; [done|]. cbn [goroutine_finish ret fst].
       rewrite <- (app_nil_r new). apply (inv_calls parent m); try done.
       - constructor.
       - by rewrite m_group_with.
       - intros x. destruct (Bool.bool_dec x unit) as [->|Hne].
         + by rewrite goroutine_of_with, Hp.
         + assert (x = negb unit) as -> by by destruct x, unit.
           by rewrite goroutine_of_with_other. }
  all: rewrite <- Hp;
    destruct (goroutine_finish_shape parent req0 unit (goroutine_of m unit)
                (m_group m) st) as (calls & err & Hplain & Hg & Htr');
    [by rewrite Hp|];
    exists (new ++ calls ++ [GoReturn unit err]); split;
    [by rewrite Htr', Htr, <- app_assoc|];
    apply (inv_return parent m); try done;
    [by rewrite Hp
    |by rewrite m_group_with
    |by rewrite goroutine_of_with
    |by rewrite goroutine_of_with_other].
Qed.


End Machine.
End fanout.

(** ** The properties at work on the scenarios *)

Module checks.
Import repository client service app scenario.

(** The dispatcher against [service1] (down), [service2] (up),
    [service3]: two calls, in order, and success. *)
Lemma sendNotification_first_success_witness :
  sendNotification (mock false true) Background
    ([service1] ++ service2 :: [service3]) request (0%nat, [])
  = (None,
     (2%nat,
      [] ++ map (attempt_event Background request) ([service1] ++ [service2]))).
Proof.
  apply (dispatcher.sendNotification_first_success (mock false true)
           Background [service1] service2 [service3] request 0%nat []
           [Some (New "connection failed")] 1%nat).
  - reflexivity.
  - constructor; [discriminate|constructor].
  - reflexivity.
Defined.

(** The dispatcher against two endpoints that are down. *)
Lemma sendNotification_all_fail_witness :
  sendNotification (mock false true) Background [service1; service3] request
    (0%nat, [])
  = (Some delivery_failed,
     (2%nat, [] ++ map (attempt_event Background request)
                       [service1; service3])).
Proof.
  apply (dispatcher.sendNotification_all_fail (mock false true) Background
           [service1; service3] request 0%nat []
           [Some (New "connection failed"); Some (New "connection failed")]
           2%nat).
  - reflexivity.
  - constructor; [discriminate|constructor; [discriminate|constructor]].
Defined.

(** The three courses of a resolve, on the three mocks. *)
Lemma getNotificationPreferences_cache_aside_witness :
  getNotificationPreferences (mock true true) Background EmailProvider
    (0%nat, [])
  = (([service2], None), (0%nat, [CacheGet EmailProvider]))
  /\ getNotificationPreferences (mock false false) Background EmailProvider
       (0%nat, [])
     = (([], Some (New "database error")),
        (0%nat, [CacheGet EmailProvider; StoreFind Background EmailProvider]))
  /\ getNotificationPreferences (mock false true) Background EmailProvider
       (0%nat, [])
     = (([service1; service2], None),
        (0%nat, [CacheGet EmailProvider; StoreFind Background EmailProvider;
                 CacheSet EmailProvider [service1; service2]])).
Proof.
  split; [|split].
  - apply (proj1 (resolver.getNotificationPreferences_cache_aside
                    (mock true true) Background EmailProvider 0%nat [])).
    reflexivity.
  - apply (proj1 (proj2 (resolver.getNotificationPreferences_cache_aside
                           (mock false false) Background EmailProvider
                           0%nat []))
             [] (New "cache miss") 0%nat []).
    + reflexivity.
    + reflexivity.
  - apply (proj2 (proj2 (resolver.getNotificationPreferences_cache_aside
                           (mock false true) Background EmailProvider
                           0%nat []))
             [] (New "cache miss") 0%nat [service1; service2] 0%nat
             (Some (New "redis connection error"))).
    + reflexivity.
    + reflexivity.
    + reflexivity.
Defined.

(** A cache that answers with an error: the error returned is the
    store's. *)
Lemma getNotificationPreferences_any_cache_error_witness :
  snd (fst (getNotificationPreferences (mock false false) Background
              EmailProvider (0%nat, [])))
  = Some (New "database error").
Proof.
  apply (proj2 (resolver.getNotificationPreferences_any_cache_error
                  (mock false false) Background EmailProvider 0%nat []
                  [] (New "cache miss") 0%nat eq_refl)).
Defined.


(** After a buyer notification the cache answers for Email with a list
    that is not empty; the store answers for Push likewise; and with no
    live Email row the store answers not-found. *)
Lemma successful_results_nonempty_witness :
  fst (fst (Cache_Get EmailProvider (fst (fst warm)))) <> []
  /\ fst (fst (Persistent_FindByProviderType Background
                 PushNotificationProvider (fst (snd (fst warm))))) <> []
  /\ Persistent_FindByProviderType Background EmailProvider
       (mkPersistent (mkDB rows_push_only None))
     = (([], Some ErrRecordNotFound),
        mkPersistent (mkDB rows_push_only None)).
Proof.
  split; [|split].
  - apply (proj1 (nonempty.successful_results_nonempty (H := libs)
                    600000000000 0 (mkPersistent (mkDB rows None)) process0
                    [Buyer Background "buyer@example.com" "Order" "Paid"]
                    Background EmailProvider)).
    vm_compute. reflexivity.
  - apply (proj1 (proj2 (nonempty.successful_results_nonempty (H := libs)
                    600000000000 0 (mkPersistent (mkDB rows None)) process0
                    [Buyer Background "buyer@example.com" "Order" "Paid"]
                    Background PushNotificationProvider))).
    vm_compute. reflexivity.
  - apply (proj2 (proj2 (nonempty.successful_results_nonempty (H := libs)
                    600000000000 0 (mkPersistent (mkDB rows None)) process0
                    [DatabaseBecomes (mkDB rows_push_only None)]
                    Background EmailProvider))).
    + reflexivity.
    + reflexivity.
    + reflexivity.
Defined.

(** Three callers on a fresh registry, two of them for one host. *)
Lemma GetOrCreate_idempotent_witness :
  wf_registry process0
  /\ wf_registry
       (snd (GetOrCreate_concurrently [1; 0; 2; 1; 0]%nat
               ["a.example.com"; "a.example.com"; "b.example.com"]
               process0)).
Proof.
  assert (Hwf : wf_registry process0).
  { intros host cb Hl. vm_compute in Hl. discriminate. }
  split; [exact Hwf|].
  exact (proj1 (registry_facts.GetOrCreate_idempotent (H := libs)
                  [1; 0; 2; 1; 0]%nat
                  ["a.example.com"; "a.example.com"; "b.example.com"]
                  process0 Hwf)).
Defined.

(** Three failures out of five at 60 per cent and a minimum of 3. *)
Lemma ReadyToTrip_policy_witness :
  ReadyToTrip config (mkCounts 5 2 3 0 1) = true
  /\ ReadyToTrip config (mkCounts 5 3 2 1 0) = false
  /\ ReadyToTrip config (mkCounts 2 0 2 0 2) = false.
Proof.
  split; [|split].
  - apply (proj1 (proj2 (proj2 (trip_policy.ReadyToTrip_policy config
                                  (mkCounts 5 2 3 0 1))) eq_refl eq_refl));
      [reflexivity|cbn; lia].
  - apply (proj1 (proj2 (proj2 (proj2 (trip_policy.ReadyToTrip_policy config
                                  (mkCounts 5 3 2 1 0))) eq_refl eq_refl)));
      reflexivity.
  - apply (proj1 (proj2 (trip_policy.ReadyToTrip_policy config
                           (mkCounts 2 0 2 0 2)))).
    cbn. lia.
Defined.

Lemma libs_honour_cancellation : honours_cancellation (H := libs).
Proof.
  intros ctx u reqBody n e Hctx. cbn. rewrite Hctx. by split.
Defined.

(** A dispatch over the cached Email endpoints on a cancelled context. *)
Lemma cancelled_context_dispatch_witness :
  fst (sendNotification svc cancelled [service1; service2] request
         (world rows, []))
  = Some delivery_failed
  /\ snd (snd (sendNotification svc cancelled [service1; service2] request
                 (world rows, [])))
     = [] ++ map (attempt_event cancelled request) [service1; service2].
Proof.
  pose proof (cancellation.cancelled_context_dispatch (H := libs) cancelled
                Canceled [service1; service2] request "buyer@example.com"
                "Order" "Paid" (world rows) [] libs_honour_cancellation
                eq_refl) as [(Herr & Htr & _) _].
  by split.
Defined.

(** C6 as stated does not hold: with the Email endpoints in the cache and
    the context cancelled before the call, [SendToBuyer] still calls
    [Post] for both endpoints, and what it returns is the aggregate error,
    not the cancellation error. *)
Lemma cancelled_dispatch_not_abandoned :
  fst (SendToBuyer svc cancelled "buyer@example.com" "Order" "Paid" warm)
  = Some delivery_failed
  /\ fst (SendToBuyer svc cancelled "buyer@example.com" "Order" "Paid" warm)
     <> Some Canceled
  /\ post_calls
       (snd (snd (SendToBuyer svc cancelled "buyer@example.com" "Order"
                    "Paid" warm)))
     = (post_calls (snd warm) + 2)%nat.
Proof.
  split; [|split].
  - vm_compute. reflexivity.
  - vm_compute. discriminate.
  - vm_compute. reflexivity.
Qed.


End checks.

(** ** More on the dispatcher and the orchestrator *)

Module dispatch_more.
Import repository client service vocabulary.
Import preservation.

Section Dispatch.
Context {W : Type} (s : NotificationService (W := W)).

(** X1.  Whatever the client answers, [sendNotification] calls a prefix of
    the endpoint list: each endpoint at most once, in list order, none
    skipped.  It returns nil after at least one call, or else the one
    error "failure to sent the notifications" after having called every
    endpoint; it returns no other error. *)
Theorem sendNotification_calls_prefix ctx preferences :
  forall req w tr,
  exists k,
    (k <= length preferences)%nat
    /\ snd (snd (sendNotification s ctx preferences req (w, tr)))
       = tr ++ map (attempt_event ctx req) (take k preferences)
    /\ ((fst (sendNotification s ctx preferences req (w, tr)) = None
         /\ (1 <= k)%nat)
        \/ (fst (sendNotification s ctx preferences req (w, tr))
              = Some delivery_failed
            /\ k = length preferences)).
Proof.
  induction preferences as [|p rest IH]; intros req w tr.
  - exists 0%nat. cbn. rewrite app_nil_r. split; [lia|]. split; [done|].
    by right.
  - rewrite dispatcher.sendNotification_cons.
    destruct (Post (httpclient s) ctx (Host p)
                (with_SecretKey req (repository.SecretKey p)) w)
      as [[e|] w'].
    + destruct (IH req w' (tr ++ [attempt_event ctx req p]))
        as (k & Hk & Htr & Hres).
      exists (S k). cbn [length take map]. split; [lia|].
      split; [by rewrite Htr, <- app_assoc|].
      destruct Hres as [[-> Hk1]|[-> ->]]; [left|right]; split; (done || lia).
    + exists 1%nat. cbn [length take map fst snd]. split; [lia|].
      split; [done|]. left. split; [done|lia].
Qed.

(** X2.  Every request [sendNotification] sends goes to an endpoint of the
    list and carries that endpoint's own secret with the caller's
    recipient, title and message; the secret the caller's request came
    with is not sent. *)
Theorem sendNotification_sends_own_secret ctx preferences :
  forall req w tr,
  exists new,
    snd (snd (sendNotification s ctx preferences req (w, tr))) = tr ++ new
    /\ Forall (fun ev =>
                 exists p, In p preferences
                   /\ ev = HTTPPost ctx (Host p) (request_for req p)) new.
Proof.
  induction preferences as [|p rest IH]; intros req w tr.
  - exists []. cbn. by rewrite app_nil_r.
  - rewrite dispatcher.sendNotification_cons.
    assert (Hp : exists q, In q (p :: rest)
                   /\ attempt_event ctx req p
                      = HTTPPost ctx (Host q) (request_for req q)).
    { exists p. split; [by left|done]. }
    destruct (Post (httpclient s) ctx (Host p)
                (with_SecretKey req (repository.SecretKey p)) w)
      as [[e|] w'].
    + destruct (IH req w' (tr ++ [attempt_event ctx req p]))
        as (new & Htr & Hnew).
      exists (attempt_event ctx req p :: new).
      split; [by rewrite Htr, <- app_assoc|].
      constructor; [done|].
      eapply Forall_impl; [exact Hnew|].
      intros ev (q & Hq & ->). exists q. split; [by right|done].
    + exists [attempt_event ctx req p]. split; [done|]. by constructor.
Qed.

(** The dispatcher calls the client and nothing else. *)
Lemma sendNotification_only_posts ctx preferences :
  forall req st,
  exists new,
    snd (snd (sendNotification s ctx preferences req st)) = snd st ++ new
    /\ Forall (fun ev => exists u r, ev = HTTPPost ctx u r) new.
Proof.
  induction preferences as [|p rest IH]; intros req [w tr].
  - exists []. cbn. by rewrite app_nil_r.
  - rewrite dispatcher.sendNotification_cons.
    destruct (Post (httpclient s) ctx (Host p)
                (with_SecretKey req (repository.SecretKey p)) w)
      as [[e|] w'].
    + destruct (IH req (w', tr ++ [attempt_event ctx req p]))
        as (new & Htr & Hnew).
      exists (attempt_event ctx req p :: new). cbn [snd] in *.
      split; [by rewrite Htr, <- app_assoc|].
      constructor; [by eexists _, _|done].
    + exists [attempt_event ctx req p]. split; [done|].
      constructor; [by eexists _, _|done].
Qed.

Lemma getNotificationPreferences_events ctx key (st : St (W := W)) :
  exists new,
    snd (snd (getNotificationPreferences s ctx key st)) = snd st ++ new
    /\ Forall (fun ev =>
                 match ev with
                 | CacheGet k | CacheSet k _ => k = key
                 | StoreFind c k => c = ctx /\ k = key
                 | _ => False
                 end) new.
Proof.
  unfold getNotificationPreferences. rewrite bind_eq. unfold call_Get.
  rewrite call_eq. cbn [fst snd].
  destruct (snd (fst (cache_Get _ key _))).
  - rewrite bind_eq. unfold call_Find. rewrite call_eq. cbn [fst snd].
    destruct (snd (fst (FindByProviderType _ ctx key _))).
    + eexists [CacheGet _; StoreFind _ _]. cbn.
      split; [by rewrite <- app_assoc|]. by repeat constructor.
    + rewrite bind_eq. unfold call_Set. rewrite call_eq. cbn.
      eexists [CacheGet _; StoreFind _ _; CacheSet _ _].
      split; [by rewrite <- !app_assoc|]. by repeat constructor.
  - eexists [CacheGet _]. cbn. split; [done|]. by repeat constructor.
Qed.

(** X3.  A buyer notification stays on the Email channel and on the
    caller's context: every read and write of the cache and every read of
    the store is for Email, every [Post] carries the caller's context, and
    the Push channel is not touched. *)
Theorem SendToBuyer_email_only ctx to title message (st : St (W := W)) :
  exists new,
    snd (snd (SendToBuyer s ctx to title message st)) = snd st ++ new
    /\ Forall (buyer_event ctx) new.
Proof.
  unfold SendToBuyer, resolve_and_send. rewrite bind_eq.
  destruct (getNotificationPreferences_events ctx EmailProvider st)
    as (new1 & Htr1 & Hnew1).
  assert (Hb1 : Forall (buyer_event ctx) new1).
  { eapply Forall_impl; [exact Hnew1|]. by intros [| | | |]. }
  destruct (snd (fst (getNotificationPreferences s ctx EmailProvider st))).
  - exists new1. by split.
  - destruct (sendNotification_only_posts ctx
                (fst (fst (getNotificationPreferences s ctx EmailProvider st)))
                (mkRequest to title message "")
                (snd (getNotificationPreferences s ctx EmailProvider st)))
      as (new2 & Htr2 & Hnew2).
    exists (new1 ++ new2).
    split; [by rewrite Htr2, Htr1, app_assoc|].
    apply Forall_app_2; [done|].
    eapply Forall_impl; [exact Hnew2|]. by intros ev (u & r & ->).
Qed.

End Dispatch.
End dispatch_more.

(** ** More on the cache and the store *)

Module repository_more.
Import repository client service app vocabulary.
Import preservation.

Lemma cacheKey_injective key key' :
  cacheKeyPattern (NotificationProvider_String key)
  = cacheKeyPattern (NotificationProvider_String key') ->
  key = key'.
Proof. by destruct key, key'. Qed.

(** X4.  The channels do not share cache entries: a [Set] for one channel
    leaves what [Get] returns for the other channel as it was. *)
Theorem Cache_Set_other_channel key key' values c :
  key <> key' ->
  fst (Cache_Get key' (snd (Cache_Set key values c))) = fst (Cache_Get key' c).
Proof.
  intros Hne. destruct c as [e ttl]. unfold Cache_Set, Engine_SetWithTTL. cbn.
  destruct (ttl <? 0); [done|]. cbn.
  unfold Cache_Get, Engine_Get. cbn.
  rewrite lookup_insert_ne by (intros Heq; by apply Hne, cacheKey_injective).
  destruct (items e !! _) as [it|]; [|done].
  unfold expired. cbn. destruct (item_expiration it) as [t|]; [|done].
  by destruct (t <? now e).
Qed.

(** X5.  An entry outlives its TTL by nothing: once more than the TTL has
    passed since the [Set], [Get] answers with the not-found error that
    names the channel's key, and with no list. *)
Theorem Cache_Get_after_expiry key values c d :
  0 < expiredTime c -> expiredTime c < d ->
  fst (Cache_Get key (elapse d (snd (Cache_Set key values c))))
  = ([], Some (cache_not_found
                 (cacheKeyPattern (NotificationProvider_String key)))).
Proof.
  intros Httl Hd. rewrite cache.Cache_Set_item by lia.
  unfold Cache_Get, Engine_Get, elapse. cbn.
  rewrite lookup_insert_eq. unfold expired. cbn.
  destruct (Z.eqb_spec (expiredTime c) 0) as [H0|_]; [lia|]. cbn.
  destruct (Z.ltb_spec (now (engine c) + expiredTime c) (now (engine c) + d));
    [done|lia].
Qed.

(** A miss stays a miss while only time passes. *)
Lemma Cache_Get_miss_later key c d :
  0 <= d ->
  snd (fst (Cache_Get key c)) <> None ->
  snd (fst (Cache_Get key (elapse d c))) <> None.
Proof.
  intros Hd. unfold Cache_Get, Engine_Get, elapse. cbn.
  destruct (items (engine c) !! _) as [it|]; [|done].
  unfold expired. cbn. destruct (item_expiration it) as [t|]; [|done].
  destruct (Z.ltb_spec t (now (engine c))); [|done]. intros _.
  by destruct (Z.ltb_spec t (now (engine c) + d)); [|lia].
Qed.

Section Resolves.
Context {X : Type} (store : PersistentProvider X)
        (http : HTTPClientProvider X).

Local Abbreviation resolve :=
  (getNotificationPreferences (wire store http)).

(** X6.  Failures are not cached: a resolve that returns an error has read
    the store once and leaves the cache exactly as it was, and the next
    resolve of the channel, whenever it comes, reads the store again. *)
Theorem failed_resolve_not_cached ctx1 ctx2 key c x x' tr d :
  0 <= d ->
  snd (fst (resolve ctx1 key ((c, x), tr))) <> None ->
  fst (fst (snd (resolve ctx1 key ((c, x), tr)))) = c
  /\ store_calls (snd (snd (resolve ctx1 key ((c, x), tr))))
     = S (store_calls tr)
  /\ store_calls
       (snd (snd (resolve ctx2 key
                    ((elapse d c, x'),
                     snd (snd (resolve ctx1 key ((c, x), tr)))))))
     = S (S (store_calls tr)).
Proof.
  intros Hd.
  pose proof (Cache_Get_miss_later key c d Hd) as Hlater.
  destruct (Cache_Get key c) as [[cached [e|]] c1] eqn:HG;
    pose proof (cache.Cache_Get_eq _ _ _ _ HG) as ->.
  - destruct (FindByProviderType store ctx1 key x) as [[found [err|]] x1]
      eqn:HF.
    + rewrite (cache.wire_miss_error _ _ _ _ _ _ _ _ _ _ _ _ HG HF).
      intros _. cbn [fst snd]. split; [done|].
      rewrite cache.store_calls_app. cbn. split; [lia|].
      specialize (Hlater ltac:(done)).
      destruct (Cache_Get key (elapse d c)) as [[cached2 [e2|]] c2] eqn:HG2;
        [|done].
      pose proof (cache.Cache_Get_eq _ _ _ _ HG2) as ->.
      destruct (FindByProviderType store ctx2 key x') as [[found2 [err2|]] x2]
        eqn:HF2.
      * rewrite (cache.wire_miss_error _ _ _ _ _ _ _ _ _ _ _ _ HG2 HF2).
        cbn [snd]. rewrite !cache.store_calls_app. cbn. lia.
      * rewrite (cache.wire_miss_success _ _ _ _ _ _ _ _ _ _ _ HG2 HF2).
        cbn [snd]. rewrite !cache.store_calls_app. cbn. lia.
    + by rewrite (cache.wire_miss_success _ _ _ _ _ _ _ _ _ _ _ HG HF).
  - by rewrite (cache.wire_hit _ _ _ _ _ _ _ _ HG).
Qed.

End Resolves.

(** *** [FindByProviderType] *)

Lemma priority_le_total a b : priority_le a b = true \/ priority_le b a = true.
Proof.
  destruct a as [x|], b as [y|]; cbn; try tauto.
  destruct (Z.leb_spec x y), (Z.leb_spec y x); (tauto || lia).
Qed.

Lemma priority_le_trans a b c :
  priority_le a b = true -> priority_le b c = true -> priority_le a c = true.
Proof.
  destruct a as [x|], b as [y|], c as [z|]; cbn; try done.
  rewrite !Z.leb_le. lia.
Qed.

Lemma insert_row_perm r l : insert_row r l ≡ₚ r :: l.
Proof.
  induction l as [|x xs IH]; cbn; [done|].
  destruct (priority_le _ _); [done|].
  rewrite IH. apply Permutation_swap.
Qed.

Lemma order_by_priority_perm l : order_by_priority l ≡ₚ l.
Proof.
  induction l as [|r l IH]; [done|].
  change (order_by_priority (r :: l)) with (insert_row r (order_by_priority l)).
  by rewrite insert_row_perm, IH.
Qed.

Lemma insert_row_sorted r l :
  StronglySorted by_priority l -> StronglySorted by_priority (insert_row r l).
Proof.
  induction 1 as [|x xs Hs IH Hx]; cbn.
  - by repeat constructor.
  - destruct (priority_le (row_priority r) (row_priority x)) eqn:Hle.
    + constructor; [by constructor|]. constructor; [done|].
      eapply Forall_impl; [exact Hx|]. intros y Hy.
      by eapply priority_le_trans.
    + constructor; [done|].
      rewrite insert_row_perm. constructor; [|done].
      destruct (priority_le_total (row_priority r) (row_priority x)); [|done].
      congruence.
Qed.

Lemma order_by_priority_sorted l : StronglySorted by_priority (order_by_priority l).
Proof.
  induction l as [|r l IH]; [constructor|].
  change (order_by_priority (r :: l)) with (insert_row r (order_by_priority l)).
  by apply insert_row_sorted.
Qed.

(** X7.  What the store returns with a nil error is the live rows of the
    channel and nothing else: each row of the table whose type is the
    channel's and which is not deleted, once, read into the struct, in
    ascending order of priority (a row without priority last); so no
    returned endpoint is a deleted one. *)
Theorem FindByProviderType_live_rows_in_order ctx key p preferences p' :
  Persistent_FindByProviderType ctx key p = ((preferences, None), p') ->
  exists rs,
    preferences = map scan rs
    /\ rs ≡ₚ List.filter (selected (NotificationProvider_String key))
                         (table (conn p))
    /\ StronglySorted by_priority rs
    /\ Forall (fun preference => DeletedAt preference = None) preferences.
Proof.
  unfold Persistent_FindByProviderType, Find.
  destruct (ctx_err ctx); [done|]. destruct (db_err (conn p)); [done|].
  set (live := List.filter _ _).
  destruct (length (map scan (order_by_priority live)) =? 0)%nat; [done|].
  intros [= <- <-]. exists (order_by_priority live).
  split; [done|]. split; [apply order_by_priority_perm|].
  split; [apply order_by_priority_sorted|].
  apply Forall_forall. intros preference Hin.
  apply list_elem_of_In, in_map_iff in Hin as (r & <- & Hr).
  apply list_elem_of_In in Hr. rewrite order_by_priority_perm in Hr.
  apply list_elem_of_In, filter_In in Hr as [_ Hsel].
  unfold selected in Hsel. apply andb_true_iff in Hsel as [_ Hdel].
  cbn. by destruct (row_deleted_at r).
Qed.

(** The store answers in one of two ways and no other: a nil error with a
    list that is not empty, or an error with the empty list; and it leaves
    the connection as it was. *)
Lemma FindByProviderType_value_xor_error ctx key p :
  value_xor_error (fst (Persistent_FindByProviderType ctx key p))
  /\ snd (Persistent_FindByProviderType ctx key p) = p.
Proof.
  split; [|apply nonempty.FindByProviderType_unchanged].
  unfold value_xor_error, Persistent_FindByProviderType.
  destruct (Find ctx _ (conn p)) as [preferences [err|]]; [by right|].
  destruct (Nat.eqb_spec (length preferences) 0) as [Hz|Hnz]; [by right|].
  left. cbn. split; [done|]. intros ->. by apply Hnz.
Qed.

Section Reachable.
Context `{Libs}.

(** X8.  In the running service a resolve has the same two outcomes: from
    the process as [NewCache] starts it, after any course of resolves,
    notifications, time passing and changes of the database, resolving a
    channel gives a nil error with a list that is not empty, or an error
    with the empty list; the dispatcher is never handed an empty list. *)
Theorem resolve_value_xor_error ttl t0 p0 proc0 (l : list Action) ctx key :
  value_xor_error
    (fst (getNotificationPreferences NewNotificationService ctx key
            (acts l ((NewCache ttl t0, (p0, proc0)), [])))).
Proof.
  set (st := acts l _).
  assert (HI : entries_nonempty (fst st)).
  { apply nonempty.acts_keep. apply nonempty.NewCache_nonempty. }
  destruct st as [[c [p proc]] tr]. unfold entries_nonempty in HI. cbn in HI.
  pose proof (nonempty.Cache_Get_nonempty key c HI) as Hhit.
  destruct (Cache_Get key c) as [[cached [e|]] c1] eqn:HG;
    pose proof (cache.Cache_Get_eq _ _ _ _ HG) as ->.
  - destruct (FindByProviderType_value_xor_error ctx key p) as [Hxor Hp].
    destruct (Persistent_FindByProviderType ctx key p) as [[found [err|]] p1]
      eqn:HF; cbn in Hp; subst p1.
    + unfold NewNotificationService.
      rewrite (cache.wire_miss_error _ _ ctx key c (p, proc) tr cached e found
                 err (p, proc) HG).
      * by right.
      * cbn. unfold on_fst. cbn. by rewrite HF.
    + unfold NewNotificationService.
      rewrite (cache.wire_miss_success _ _ ctx key c (p, proc) tr cached e
                 found (p, proc) HG).
      * left. cbn. split; [done|].
        by destruct Hxor as [[_ Hne]|[Herr _]].
      * cbn. unfold on_fst. cbn. by rewrite HF.
  - unfold NewNotificationService.
    rewrite (cache.wire_hit _ _ ctx key c (p, proc) tr cached HG).
    left. cbn in *. split; [done|]. by apply Hhit.
Qed.

End Reachable.
End repository_more.

(** ** More on the client *)

Module client_more.
Import repository client service app vocabulary.
Import preservation.

Section Posts.
Context `{Libs}.

(** [Post] on a URL that parses, call by call. *)
Lemma HTTPClient_Post_parsed ctx u reqBody p host :
  extractHost u = (host, None) ->
  HTTPClient_Post ctx u reqBody p =
  let cb := fst (GetOrCreate host p) in
  let p1 := snd (GetOrCreate host p) in
  let p2 := snd (Breaker_State cb p1) in
  let r := Execute cb (do_request ctx u reqBody) p2 in
  (match snd (fst r) with
   | Some err => Some err
   | None => if StatusCode (fst (fst r)) =? 200 then None
             else Some status_not_200
   end, snd r).
Proof.
  intros Hu. unfold HTTPClient_Post. rewrite Hu, !bind_eq. cbn zeta.
  destruct (snd (fst (Execute _ _ _))); [done|].
  by destruct (StatusCode _ =? 200).
Qed.

Lemma store_breaker_at cb b p o :
  heap p !! cb = Some o ->
  store_breaker cb b p =
  mkProcess (registry p) (<[cb := mkCircuitBreaker (cb_Name o) b]> (heap p))
            (net p) (clock p).
Proof. intros Ho. unfold store_breaker. by rewrite Ho. Qed.

Lemma breaker_of_store host cb b p o :
  breakers (registry p) !! host = Some cb ->
  heap p !! cb = Some o ->
  breaker_of host (store_breaker cb b p) = Some b.
Proof.
  intros Hl Ho. rewrite (store_breaker_at _ _ _ _ Ho).
  unfold breaker_of. cbn. rewrite Hl. cbn.
  rewrite list_lookup_insert_eq; [done|]. by eapply lookup_lt_Some.
Qed.

Lemma breaker_of_Some host p b :
  breaker_of host p = Some b <->
  exists cb o, breakers (registry p) !! host = Some cb
    /\ heap p !! cb = Some o /\ cb_state o = b.
Proof.
  unfold breaker_of. split.
  - destruct (breakers (registry p) !! host) as [cb|]; [|done]. cbn.
    destruct (heap p !! cb) as [o|] eqn:Ho; [|done]. cbn.
    intros [= <-]. by exists cb, o.
  - intros (cb & o & -> & Ho & <-). cbn. by rewrite Ho.
Qed.

(** [Post] from the breaker's answer on: the breaker of the URL's host
    stands at [b0] when [Post] has looked it up. *)
Lemma HTTPClient_Post_from_breaker ctx u reqBody p host b0 :
  extractHost u = (host, None) ->
  breaker_of host (snd (GetOrCreate host p)) = Some b0 ->
  exists cb o,
    breakers (registry (snd (GetOrCreate host p))) !! host = Some cb
    /\ heap (snd (GetOrCreate host p)) !! cb = Some o
    /\ HTTPClient_Post ctx u reqBody p =
       let p1 := snd (GetOrCreate host p) in
       let b1 := snd (gobreaker_State (clock p) b0) in
       match gobreaker_beforeRequest (clock p) b1 with
       | (Some err, b) => (Some err, store_breaker cb b p1)
       | (None, b) =>
           let r := do_request ctx u reqBody (net p) in
           let success :=
             match snd (fst r) with None => true | Some _ => false end in
           (match snd (fst r) with
            | Some err => Some err
            | None => if StatusCode (fst (fst r)) =? 200 then None
                      else Some status_not_200
            end,
            store_breaker cb (gobreaker_afterRequest (clock p) success b)
              (mkProcess (registry p1) (heap p1) (snd r) (clock p)))
       end.
Proof.
  intros Hu Hb.
  destruct (registry_facts.GetOrCreate_frame host p) as (Hcb & _ & _ & Hclock & Hnet & _).
  apply breaker_of_Some in Hb as (cb & o & Hl & Ho & <-).
  rewrite Hl in Hcb. injection Hcb as Hcb.
  exists cb, o. split; [done|]. split; [done|].
  rewrite (HTTPClient_Post_parsed _ _ _ _ _ Hu). cbn zeta. rewrite <- Hcb.
  set (p1 := snd (GetOrCreate host p)) in *.
  unfold Breaker_State. rewrite Ho, Hclock.
  destruct (gobreaker_State (clock p) (cb_state o)) as [st b1]. cbn [snd].
  rewrite (store_breaker_at _ _ _ _ Ho).
  unfold Execute. cbn [heap clock net registry].
  rewrite list_lookup_insert_eq by (by eapply lookup_lt_Some).
  cbn [cb_state cb_Name]. rewrite Hclock, Hnet.
  destruct (gobreaker_beforeRequest (clock p) b1) as [[err|] b].
  - cbn [fst snd]. f_equal. unfold store_breaker. cbn.
    rewrite Ho, ?list_lookup_insert_eq by (by eapply lookup_lt_Some).
    cbn. by rewrite list_insert_insert_eq, ?Hnet, ?Hclock.
  - destruct (do_request ctx u reqBody (net p)) as [r n']. cbn [fst snd].
    f_equal. unfold store_breaker. cbn.
    rewrite Ho, ?list_lookup_insert_eq by (by eapply lookup_lt_Some).
    cbn. by rewrite list_insert_insert_eq, ?Hnet, ?Hclock.
Qed.

Lemma do_request_cases ctx u reqBody n :
  let d := http_Do ctx u reqBody n in
  snd (do_request ctx u reqBody n) = snd d
  /\ fst (do_request ctx u reqBody n) =
     match snd (fst d), snd (resp_ReadAll (fst (fst d))) with
     | Some err, _ => (zero_response, Some err)
     | None, Some err => (zero_response, Some err)
     | None, None =>
         (mkResponse (fst (resp_ReadAll (fst (fst d))))
                     (resp_StatusCode (fst (fst d))), None)
     end.
Proof.
  unfold do_request. rewrite bind_eq.
  destruct (snd (fst (http_Do ctx u reqBody n))); [done|].
  by destruct (snd (resp_ReadAll _)).
Qed.

(** A nil from [Post] comes from a [Do] that answered 200. *)
Lemma HTTPClient_Post_nil_inv ctx u reqBody p :
  fst (HTTPClient_Post ctx u reqBody p) = None ->
  exists resp,
    http_Do ctx u reqBody (net p)
    = ((resp, None), net (snd (HTTPClient_Post ctx u reqBody p)))
    /\ snd (resp_ReadAll resp) = None
    /\ resp_StatusCode resp = 200.
Proof.
  destruct (extractHost u) as [host [err|]] eqn:Hu.
  { unfold HTTPClient_Post. by rewrite Hu. }
  rewrite (HTTPClient_Post_parsed _ _ _ _ _ Hu). cbn zeta.
  set (cb := fst (GetOrCreate host p)).
  set (p2 := snd (Breaker_State cb _)).
  assert (Hnet : net p2 = net p).
  { subst p2. by rewrite cancellation.Breaker_State_net,
                         cancellation.GetOrCreate_net. }
  unfold Execute. destruct (heap p2 !! cb) as [o|]; [|done].
  destruct (gobreaker_beforeRequest _ _) as [[err|] b]; [done|].
  rewrite Hnet.
  destruct (do_request_cases ctx u reqBody (net p)) as [Hn Hr].
  destruct (do_request ctx u reqBody (net p)) as [r n']. cbn [fst snd] in *.
  rewrite cancellation.store_breaker_net. cbn [net].
  destruct (http_Do ctx u reqBody (net p)) as [[resp e] n'']. cbn in Hn, Hr.
  subst n'' r. destruct e as [e|]; [done|].
  destruct (snd (resp_ReadAll resp)) eqn:Hread; [done|]. cbn.
  destruct (Z.eqb_spec (resp_StatusCode resp) 200); [|done]. intros _.
  by exists resp.
Qed.

(** X9.  [Post] returns nil exactly when the endpoint answered 200: the
    URL parses, the breaker of its host lets the request through, [Do]
    returns a nil error, the body can be read to its end and the status is
    200; and that exchange is then the last thing that happened on the
    network. *)
Theorem HTTPClient_Post_nil_only_on_200 ctx u reqBody p :
  fst (HTTPClient_Post ctx u reqBody p) = None <->
  exists host b0 b resp,
    extractHost u = (host, None)
    /\ breaker_of host (snd (GetOrCreate host p)) = Some b0
    /\ gobreaker_beforeRequest (clock p)
         (snd (gobreaker_State (clock p) b0)) = (None, b)
    /\ http_Do ctx u reqBody (net p)
       = ((resp, None), net (snd (HTTPClient_Post ctx u reqBody p)))
    /\ snd (resp_ReadAll resp) = None
    /\ resp_StatusCode resp = 200.
Proof.
  split.
  - intros Hnil.
    destruct (HTTPClient_Post_nil_inv _ _ _ _ Hnil)
      as (resp & Hdo & Hread & Hstatus).
    destruct (extractHost u) as [host [err|]] eqn:Hu.
    { revert Hnil. unfold HTTPClient_Post. by rewrite Hu. }
    destruct (registry_facts.GetOrCreate_frame host p) as (Hcb & _). cbn zeta in Hcb.
    assert (Hb : exists b0,
              breaker_of host (snd (GetOrCreate host p)) = Some b0).
    { revert Hnil. rewrite (HTTPClient_Post_parsed _ _ _ _ _ Hu). cbn zeta.
      unfold breaker_of. rewrite Hcb.
      generalize dependent (snd (GetOrCreate host p)).
      generalize (fst (GetOrCreate host p)). intros cb p1 _.
      cbn [mbind option_bind]. unfold Breaker_State, Execute.
      destruct (heap p1 !! cb) as [o|] eqn:Ho; [by eexists|].
      cbn. by rewrite Ho. }
    destruct Hb as [b0 Hb].
    destruct (HTTPClient_Post_from_breaker ctx u reqBody p host b0 Hu Hb)
      as (cb & o & _ & _ & Heq).
    destruct (gobreaker_beforeRequest (clock p)
                (snd (gobreaker_State (clock p) b0))) as [[err|] b] eqn:Hbefore.
    { rewrite Heq in Hnil. cbn zeta in Hnil. by rewrite Hbefore in Hnil. }
    by exists host, b0, b, resp.
  - intros (host & b0 & b & resp & Hu & Hb & Hbefore & Hdo & Hread & Hstatus).
    destruct (HTTPClient_Post_from_breaker ctx u reqBody p host b0 Hu Hb)
      as (cb & o & _ & _ & ->).
    cbn zeta. rewrite Hbefore.
    destruct (do_request_cases ctx u reqBody (net p)) as [_ Hr].
    rewrite Hr, Hdo. cbn. rewrite Hread. cbn. by rewrite Hstatus.
Qed.

(** X10.  [Post] does not retry: it calls [Do] at most once, so the
    network afterwards is as it was or as that one [Do] left it; and when
    the URL does not parse it returns the parser's error and nothing at
    all has changed, no breaker has been made for it. *)
Theorem HTTPClient_Post_sends_at_most_once ctx u reqBody p :
  (net (snd (HTTPClient_Post ctx u reqBody p)) = net p
   \/ net (snd (HTTPClient_Post ctx u reqBody p))
      = snd (http_Do ctx u reqBody (net p)))
  /\ (forall err, snd (url_Host u) = Some err ->
        HTTPClient_Post ctx u reqBody p = (Some err, p)).
Proof.
  split.
  - destruct (extractHost u) as [host [err|]] eqn:Hu.
    { left. unfold HTTPClient_Post. by rewrite Hu. }
    rewrite (HTTPClient_Post_parsed _ _ _ _ _ Hu). cbn zeta.
    set (cb := fst (GetOrCreate host p)).
    set (p2 := snd (Breaker_State cb _)).
    assert (Hnet : net p2 = net p).
    { subst p2. by rewrite cancellation.Breaker_State_net,
                           cancellation.GetOrCreate_net. }
    unfold Execute. destruct (heap p2 !! cb) as [o|]; [|by left].
    destruct (gobreaker_beforeRequest _ _) as [[err|] b].
    + left. cbn. by rewrite cancellation.store_breaker_net.
    + right. rewrite Hnet.
      destruct (do_request_cases ctx u reqBody (net p)) as [Hn _].
      destruct (do_request ctx u reqBody (net p)) as [r n'].
      cbn [fst snd] in *. by rewrite cancellation.store_breaker_net.
  - intros err Herr. unfold HTTPClient_Post, extractHost. by rewrite Herr.
Qed.

(** X11.  When the breaker of the URL's host refuses the request, [Post]
    returns the breaker's error and nothing is sent; the breaker is left
    as its refusal leaves it. *)
Theorem HTTPClient_Post_refused ctx u reqBody p host b0 err b :
  extractHost u = (host, None) ->
  breaker_of host (snd (GetOrCreate host p)) = Some b0 ->
  gobreaker_beforeRequest (clock p) (snd (gobreaker_State (clock p) b0))
  = (Some err, b) ->
  fst (HTTPClient_Post ctx u reqBody p) = Some err
  /\ net (snd (HTTPClient_Post ctx u reqBody p)) = net p
  /\ breaker_of host (snd (HTTPClient_Post ctx u reqBody p)) = Some b.
Proof.
  intros Hu Hb Hbefore.
  destruct (HTTPClient_Post_from_breaker ctx u reqBody p host b0 Hu Hb)
    as (cb & o & Hl & Ho & ->).
  cbn zeta. rewrite Hbefore. cbn [fst snd].
  split; [done|]. split.
  - by rewrite cancellation.store_breaker_net, cancellation.GetOrCreate_net.
  - by eapply breaker_of_store.
Qed.

(** X12.  A status other than 200 is an error for the caller and a success
    for the breaker: [Post] returns "response status code not equal 200",
    and the breaker of the host is told that the request succeeded; 5xx
    answers do not count towards opening it. *)
Theorem HTTPClient_Post_status_counts_as_success
    ctx u reqBody p host b0 b resp n' :
  extractHost u = (host, None) ->
  breaker_of host (snd (GetOrCreate host p)) = Some b0 ->
  gobreaker_beforeRequest (clock p) (snd (gobreaker_State (clock p) b0))
  = (None, b) ->
  http_Do ctx u reqBody (net p) = ((resp, None), n') ->
  snd (resp_ReadAll resp) = None ->
  resp_StatusCode resp <> 200 ->
  fst (HTTPClient_Post ctx u reqBody p) = Some status_not_200
  /\ net (snd (HTTPClient_Post ctx u reqBody p)) = n'
  /\ breaker_of host (snd (HTTPClient_Post ctx u reqBody p))
     = Some (gobreaker_afterRequest (clock p) true b).
Proof.
  intros Hu Hb Hbefore Hdo Hread Hstatus.
  destruct (HTTPClient_Post_from_breaker ctx u reqBody p host b0 Hu Hb)
    as (cb & o & Hl & Ho & ->).
  cbn zeta. rewrite Hbefore.
  destruct (do_request_cases ctx u reqBody (net p)) as [Hn Hr].
  rewrite Hdo in Hn, Hr. cbn in Hn, Hr. rewrite Hread in Hr.
  rewrite Hn, Hr. cbn [fst snd StatusCode].
  destruct (Z.eqb_spec (resp_StatusCode resp) 200); [done|].
  split; [done|]. split.
  - by rewrite cancellation.store_breaker_net.
  - by eapply breaker_of_store.
Qed.

(** X13.  An error of the transport, from [Do] or from reading the body,
    is returned as it is and counted by the breaker as a failure. *)
Theorem HTTPClient_Post_transport_error
    ctx u reqBody p host b0 b e :
  extractHost u = (host, None) ->
  breaker_of host (snd (GetOrCreate host p)) = Some b0 ->
  gobreaker_beforeRequest (clock p) (snd (gobreaker_State (clock p) b0))
  = (None, b) ->
  snd (fst (do_request ctx u reqBody (net p))) = Some e ->
  fst (HTTPClient_Post ctx u reqBody p) = Some e
  /\ net (snd (HTTPClient_Post ctx u reqBody p))
     = snd (http_Do ctx u reqBody (net p))
  /\ breaker_of host (snd (HTTPClient_Post ctx u reqBody p))
     = Some (gobreaker_afterRequest (clock p) false b).
Proof.
  intros Hu Hb Hbefore Herr.
  destruct (HTTPClient_Post_from_breaker ctx u reqBody p host b0 Hu Hb)
    as (cb & o & Hl & Ho & ->).
  cbn zeta. rewrite Hbefore, Herr. cbn [fst snd].
  destruct (do_request_cases ctx u reqBody (net p)) as [Hn _].
  split; [done|]. split.
  - by rewrite cancellation.store_breaker_net.
  - by eapply breaker_of_store.
Qed.

(** [Breaker_State] and [Execute] write the breaker they are called on
    and nothing else of the registry or the heap. *)
Lemma store_breaker_frame cb b p :
  registry (store_breaker cb b p) = registry p
  /\ length (heap (store_breaker cb b p)) = length (heap p)
  /\ cb_Name <$> heap (store_breaker cb b p) = cb_Name <$> heap p
  /\ (forall i, i <> cb -> heap (store_breaker cb b p) !! i = heap p !! i).
Proof.
  unfold store_breaker. destruct (heap p !! cb) as [o|] eqn:Ho; [|done]. cbn.
  split; [done|]. split; [by rewrite length_insert|]. split.
  - rewrite list_fmap_insert. cbn. apply list_insert_id.
    by rewrite list_lookup_fmap, Ho.
  - intros i Hi. by rewrite list_lookup_insert_ne.
Qed.

Lemma Breaker_State_frame cb p :
  let p' := snd (Breaker_State cb p) in
  registry p' = registry p
  /\ length (heap p') = length (heap p)
  /\ cb_Name <$> heap p' = cb_Name <$> heap p
  /\ (forall i, i <> cb -> heap p' !! i = heap p !! i).
Proof.
  unfold Breaker_State. destruct (heap p !! cb) as [o|]; [|done].
  destruct (gobreaker_State _ _). cbn. apply store_breaker_frame.
Qed.

Lemma Execute_frame cb req p :
  let p' := snd (Execute cb req p) in
  registry p' = registry p
  /\ length (heap p') = length (heap p)
  /\ cb_Name <$> heap p' = cb_Name <$> heap p
  /\ (forall i, i <> cb -> heap p' !! i = heap p !! i).
Proof.
  unfold Execute. destruct (heap p !! cb) as [o|]; [|done].
  destruct (gobreaker_beforeRequest _ _) as [[err|] b]; cbn.
  - apply store_breaker_frame.
  - destruct (req (net p)) as [r n']. cbn.
    apply (store_breaker_frame cb _
             (mkProcess (registry p) (heap p) n' (clock p))).
Qed.

(** What [Post] on a URL that parses does to the registry and the heap:
    the steps after [GetOrCreate] write the one breaker it returned. *)
Lemma HTTPClient_Post_frame ctx u reqBody p host :
  extractHost u = (host, None) ->
  let cb := fst (GetOrCreate host p) in
  let p1 := snd (GetOrCreate host p) in
  let p' := snd (HTTPClient_Post ctx u reqBody p) in
  registry p' = registry p1
  /\ length (heap p') = length (heap p1)
  /\ cb_Name <$> heap p' = cb_Name <$> heap p1
  /\ (forall i, i <> cb -> heap p' !! i = heap p1 !! i).
Proof.
  intros Hu. rewrite (HTTPClient_Post_parsed _ _ _ _ _ Hu). cbn zeta.
  cbn [snd].
  set (cb := fst (GetOrCreate host p)).
  set (p1 := snd (GetOrCreate host p)).
  destruct (Breaker_State_frame cb p1) as (Hr1 & Hl1 & Hn1 & Hh1).
  destruct (Execute_frame cb (do_request ctx u reqBody)
              (snd (Breaker_State cb p1))) as (Hr2 & Hl2 & Hn2 & Hh2).
  cbn zeta in *. rewrite Hr2, Hl2, Hn2. repeat split; try done.
  intros i Hi. by rewrite Hh2, Hh1.
Qed.

(** X14.  Breakers are per host: a [Post] to one host leaves the breaker
    of every other host as it was, whatever the outcome of the request;
    one endpoint failing cannot open the breaker of another. *)
Theorem HTTPClient_Post_other_hosts ctx u reqBody p host' :
  wf_registry p ->
  fst (extractHost u) <> host' ->
  breakers (registry (snd (HTTPClient_Post ctx u reqBody p))) !! host'
  = breakers (registry p) !! host'
  /\ breaker_of host' (snd (HTTPClient_Post ctx u reqBody p))
     = breaker_of host' p.
Proof.
  intros Hwf Hne.
  destruct (extractHost u) as [host [err|]] eqn:Hu.
  { unfold HTTPClient_Post. by rewrite Hu. }
  cbn in Hne.
  destruct (HTTPClient_Post_frame ctx u reqBody p host Hu)
    as (Hreg & _ & _ & Hheap).
  destruct (registry_facts.GetOrCreate_frame host p) as (Hcb & Hother & _ & _ & _ & Hcase).
  destruct (registry_facts.GetOrCreate_wf host p Hwf) as (Hwf1 & o1 & Ho1 & Hn1).
  cbn zeta in *.
  set (cb := fst (GetOrCreate host p)) in *.
  set (p1 := snd (GetOrCreate host p)) in *.
  set (p' := snd (HTTPClient_Post ctx u reqBody p)) in *.
  assert (Hl : breakers (registry p') !! host'
               = breakers (registry p) !! host').
  { rewrite Hreg. by apply Hother. }
  split; [done|]. unfold breaker_of. rewrite Hl.
  destruct (breakers (registry p) !! host') as [cb'|] eqn:Hl'; [|done]. cbn.
  destruct (Hwf _ _ Hl') as (o' & Ho' & Hn').
  assert (Hcb' : cb' <> cb).
  { intros ->. destruct Hcase as [[Hp Hlh]|(Hlh & Hlen & Hh)].
    - destruct (Hwf _ _ Hlh) as (o & Ho & Hn). congruence.
    - apply lookup_lt_Some in Ho'. lia. }
  rewrite (Hheap _ Hcb'). f_equal.
  destruct Hcase as [[Hp _]|(_ & _ & Hh)]; [by rewrite Hp|].
  rewrite Hh, lookup_app_l; [done|]. by eapply lookup_lt_Some.
Qed.

(** The breakers [GetOrCreate] left keep their places and names through
    the rest of [Post]. *)
Lemma HTTPClient_Post_names ctx u reqBody p host i o :
  extractHost u = (host, None) ->
  heap (snd (GetOrCreate host p)) !! i = Some o ->
  exists o', heap (snd (HTTPClient_Post ctx u reqBody p)) !! i = Some o'
             /\ cb_Name o' = cb_Name o.
Proof.
  intros Hu Hi.
  destruct (HTTPClient_Post_frame ctx u reqBody p host Hu)
    as (_ & _ & Hnames & _). cbn zeta in Hnames.
  assert (Hi' : (cb_Name <$> heap (snd (HTTPClient_Post ctx u reqBody p))) !! i
                = Some (cb_Name o)).
  { by rewrite Hnames, list_lookup_fmap, Hi. }
  rewrite list_lookup_fmap in Hi'.
  destruct (heap (snd (HTTPClient_Post ctx u reqBody p)) !! i) as [o'|];
    [|done].
  injection Hi' as Hi'. by exists o'.
Qed.

(** [Post] keeps a sound registry sound. *)
Lemma HTTPClient_Post_wf ctx u reqBody p :
  wf_registry p -> wf_registry (snd (HTTPClient_Post ctx u reqBody p)).
Proof.
  intros Hwf.
  destruct (extractHost u) as [host [err|]] eqn:Hu.
  { unfold HTTPClient_Post. by rewrite Hu. }
  destruct (HTTPClient_Post_frame ctx u reqBody p host Hu) as (Hreg & _).
  destruct (registry_facts.GetOrCreate_wf host p Hwf) as (Hwf1 & _).
  cbn zeta in *. intros h c Hh. rewrite Hreg in Hh.
  destruct (Hwf1 _ _ Hh) as (o & Ho & Hn).
  destruct (HTTPClient_Post_names ctx u reqBody p host c o Hu Ho)
    as (o' & Ho' & Hn').
  exists o'. split; [done|congruence].
Qed.

(** X15.  [Post] keeps the registry sound and only adds to it: every host
    it knew keeps its breaker, the breakers allocated keep their names, at
    most one breaker is allocated, and afterwards the registry holds a
    breaker, named after it, for the host of the URL, also when the
    request itself failed. *)
Theorem HTTPClient_Post_keeps_registry ctx u reqBody p :
  wf_registry p ->
  let p' := snd (HTTPClient_Post ctx u reqBody p) in
  wf_registry p'
  /\ breakers (registry p) ⊆ breakers (registry p')
  /\ (cb_Name <$> heap p) `prefix_of` (cb_Name <$> heap p')
  /\ (length (heap p') <= S (length (heap p)))%nat
  /\ (snd (extractHost u) = None ->
      exists cb o, breakers (registry p') !! fst (extractHost u) = Some cb
        /\ heap p' !! cb = Some o /\ cb_Name o = fst (extractHost u)).
Proof.
  intros Hwf p'. subst p'.
  split; [by apply HTTPClient_Post_wf|].
  destruct (extractHost u) as [host [err|]] eqn:Hu.
  { unfold HTTPClient_Post. rewrite Hu. cbn.
    split; [done|]. split; [done|]. split; [lia|done]. }
  destruct (HTTPClient_Post_frame ctx u reqBody p host Hu)
    as (Hreg & Hlen & Hnames & Hheap).
  destruct (registry_facts.GetOrCreate_frame host p) as (Hcb & Hother & _ & _ & _ & Hcase).
  destruct (registry_facts.GetOrCreate_wf host p Hwf) as (Hwf1 & o1 & Ho1 & Hn1).
  cbn zeta in *.
  set (cb := fst (GetOrCreate host p)) in *.
  set (p1 := snd (GetOrCreate host p)) in *.
  set (p' := snd (HTTPClient_Post ctx u reqBody p)) in *.
  split; [|split; [|split]].
  - rewrite Hreg. destruct Hcase as [[Hp _]|(Hl & _ & _)]; [by rewrite Hp|].
    apply map_subseteq_spec. intros h c Hh.
    destruct (decide (h = host)) as [->|Hne]; [congruence|].
    by rewrite Hother.
  - rewrite Hnames. destruct Hcase as [[Hp _]|(_ & _ & Hh)]; [by rewrite Hp|].
    rewrite Hh, fmap_app. by apply prefix_app_r.
  - rewrite Hlen. destruct Hcase as [[Hp _]|(_ & _ & Hh)];
      [rewrite Hp; lia|].
    rewrite Hh, length_app. cbn. lia.
  - intros _. cbn. rewrite Hreg.
    destruct (HTTPClient_Post_names ctx u reqBody p host cb o1 Hu Ho1)
      as (o' & Ho' & Hn').
    exists cb, o'. split; [done|]. split; [done|congruence].
Qed.

End Posts.
End client_more.

(** ** The wired application, end to end *)

Module end_to_end.
Import repository client service app vocabulary.
Import preservation.

Section Dispatch.
Context {W : Type} (s : NotificationService (W := W)).

(** When [sendNotification] returns nil, its last call is a [Post] that
    returned nil, on an endpoint of the list. *)
Lemma sendNotification_nil_last ctx preferences :
  forall req w tr,
    fst (sendNotification s ctx preferences req (w, tr)) = None ->
    exists preference w0,
      In preference preferences
      /\ Post (httpclient s) ctx (Host preference) (request_for req preference)
              w0
         = (None, fst (snd (sendNotification s ctx preferences req (w, tr))))
      /\ last (snd (snd (sendNotification s ctx preferences req (w, tr))))
         = Some (HTTPPost ctx (Host preference) (request_for req preference)).
Proof.
  induction preferences as [|p rest IH]; intros req w tr; [done|].
  rewrite dispatcher.sendNotification_cons.
  destruct (Post (httpclient s) ctx (Host p)
              (with_SecretKey req (repository.SecretKey p)) w)
    as [[e|] w'] eqn:HP.
  - intros Hnil. destruct (IH _ _ _ Hnil) as (q & w0 & Hin & Hpost & Hlast).
    exists q, w0. split; [by right|]. split; [exact Hpost|exact Hlast].
  - intros _. exists p, w. split; [by left|]. cbn [fst snd].
    split; [done|]. by rewrite last_snoc.
Qed.

(** The one error [sendNotification] returns. *)
Lemma sendNotification_error ctx preferences :
  forall req st e,
    fst (sendNotification s ctx preferences req st) = Some e ->
    e = delivery_failed.
Proof.
  induction preferences as [|p rest IH]; intros req [w tr] e.
  - cbn. by intros [= <-].
  - rewrite dispatcher.sendNotification_cons.
    destruct (Post _ _ _ _ _) as [[e'|] w']; [apply IH|done].
Qed.

End Dispatch.

Section Application.
Context `{Libs}.

Local Abbreviation svc := NewNotificationService.

Lemma World_Post_eq ctx u reqBody (w : World) :
  Post (httpclient svc) ctx u reqBody w
  = (fst (HTTPClient_Post ctx u reqBody (snd (snd w))),
     (fst w, (fst (snd w), snd (HTTPClient_Post ctx u reqBody (snd (snd w)))))).
Proof.
  cbn. unfold on_snd. cbn. by destruct (HTTPClient_Post _ _ _ _).
Qed.

(** A nil from a resolve-and-dispatch, on either channel, comes from an
    endpoint that answered 200. *)
Lemma resolve_and_send_nil_inv ctx key req (st : St (W := World)) :
  fst (resolve_and_send svc ctx key req st) = None ->
  exists preference resp n,
    last (snd (snd (resolve_and_send svc ctx key req st)))
    = Some (HTTPPost ctx (Host preference) (request_for req preference))
    /\ http_Do ctx (Host preference) (request_for req preference) n
       = ((resp, None),
          net (snd (snd (fst (snd (resolve_and_send svc ctx key req st))))))
    /\ snd (resp_ReadAll resp) = None
    /\ resp_StatusCode resp = 200.
Proof.
  unfold resolve_and_send. rewrite bind_eq.
  destruct (snd (fst (getNotificationPreferences svc ctx key st))); [done|].
  set (r := getNotificationPreferences svc ctx key st).
  rewrite (surjective_pairing (snd r)). intros Hnil.
  destruct (sendNotification_nil_last svc ctx _ _ _ _ Hnil)
    as (p & w0 & _ & Hpost & Hlast).
  rewrite World_Post_eq in Hpost. injection Hpost as Hnone Hw.
  destruct (client_more.HTTPClient_Post_nil_inv _ _ _ _ Hnone)
    as (resp & Hdo & Hread & Hstatus).
  exists p, resp, (net (snd (snd w0))).
  split; [exact Hlast|]. split; [|done].
  rewrite <- Hw. exact Hdo.
Qed.

(** X16.  [SendToBuyer] returns nil only when an Email endpoint has
    answered 200 to the caller's message: its last call is a [Post] to an
    endpoint, carrying the recipient, title and message it was given and
    the endpoint's secret, and the last thing that happened on the network
    is that request being answered with status 200 and a readable body. *)
Theorem SendToBuyer_nil_means_delivered ctx to title message
    (st : St (W := World)) :
  fst (SendToBuyer svc ctx to title message st) = None ->
  exists preference resp n,
    last (snd (snd (SendToBuyer svc ctx to title message st)))
    = Some (HTTPPost ctx (Host preference)
              (mkRequest to title message (repository.SecretKey preference)))
    /\ http_Do ctx (Host preference)
         (mkRequest to title message (repository.SecretKey preference)) n
       = ((resp, None),
          net (snd (snd (fst (snd (SendToBuyer svc ctx to title message st))))))
    /\ snd (resp_ReadAll resp) = None
    /\ resp_StatusCode resp = 200.
Proof.
  unfold SendToBuyer. intros Hnil.
  destruct (resolve_and_send_nil_inv ctx EmailProvider
              (mkRequest to title message "") st Hnil)
    as (preference & resp & n & Hlast & Hdo & Hread & Hstatus).
  exists preference, resp, n. cbn in Hlast, Hdo.
  split; [exact Hlast|]. split; [exact Hdo|]. by split.
Qed.

(** X17.  The errors [SendToBuyer] can return are few: the error of the
    store (the context's, the database's, or record-not-found when the
    channel has no live endpoint), or the one error "failure to sent the
    notifications".  What went wrong with an endpoint (a refusing breaker,
    a status, a transport error) does not reach the caller. *)
Theorem SendToBuyer_error_kinds ctx to title message
    (st : St (W := World)) e :
  fst (SendToBuyer svc ctx to title message st) = Some e ->
  e = delivery_failed
  \/ ctx_err ctx = Some e
  \/ db_err (conn (fst (snd (fst st)))) = Some e
  \/ e = ErrRecordNotFound.
Proof.
  unfold SendToBuyer, resolve_and_send. rewrite bind_eq.
  destruct st as [[c [p proc]] tr]. cbn [fst snd].
  destruct (Cache_Get EmailProvider c) as [[cached [ce|]] c1] eqn:HG;
    pose proof (cache.Cache_Get_eq _ _ _ _ HG) as ->.
  - destruct (Persistent_FindByProviderType ctx EmailProvider p)
      as [[found [err|]] p1] eqn:HF.
    + unfold NewNotificationService.
      rewrite (cache.wire_miss_error _ _ ctx EmailProvider c (p, proc) tr
                 cached ce found err (p1, proc) HG);
        [|by cbn; unfold on_fst; cbn; rewrite HF].
      cbn. intros [= <-]. right.
      revert HF. unfold Persistent_FindByProviderType, Find.
      destruct (ctx_err ctx) as [e1|]; [intros [= _ <- _]; by left|].
      destruct (db_err (conn p)) as [e2|]; [intros [= _ <- _]; by right; left|].
      destruct (_ =? _)%nat; [|done]. intros [= _ <- _]. by right; right.
    + unfold NewNotificationService.
      rewrite (cache.wire_miss_success _ _ ctx EmailProvider c (p, proc) tr
                 cached ce found (p1, proc) HG);
        [|by cbn; unfold on_fst; cbn; rewrite HF].
      cbn [fst snd]. intros He. left.
      exact (sendNotification_error _ _ _ _ _ _ He).
  - unfold NewNotificationService.
    rewrite (cache.wire_hit _ _ ctx EmailProvider c (p, proc) tr cached HG).
    cbn [fst snd]. intros He. left.
    exact (sendNotification_error _ _ _ _ _ _ He).
Qed.

End Application.
End end_to_end.

(** ** The handler *)

Module handler_facts.
Import repository client service app vocabulary.
Import preservation.

Section Handler.
Context {W : Type} (Error : error -> string) (n : handler.Notification W).

Local Abbreviation bound c := (fst (handler.ShouldBindBodyWithJSON c)).

(** X18.  What [NotifyHandler] answers.  422 exactly when the body does
    not bind; 200 exactly when it binds, the recipient is "buyer" or
    "seller" (as written, in lower case) and the service call for that
    recipient returned nil; 500 otherwise.  The service is not called when
    the body does not bind or the recipient is any other string. *)
Theorem NotifyHandler_answers (c : handler.gin_Context) (w : W) :
  let r := handler.NotifyHandler Error n c w in
  let ctx := handler.Request_Context c in
  let recipient := handler.Param_recipient c in
  let called (send : Context -> string -> string -> string ->
                     M W (option error)) :=
    send ctx (handler.To (bound c)) (handler.Title (bound c))
         (handler.Message (bound c)) w in
  (handler.code (fst r) = 422 <-> snd (handler.ShouldBindBodyWithJSON c) <> None)
  /\ (handler.code (fst r) = 200 <->
      snd (handler.ShouldBindBodyWithJSON c) = None
      /\ ((recipient = "buyer"
           /\ fst (called (handler.SendToBuyer (handler.services n))) = None)
          \/ (recipient = "seller"
              /\ fst (called (handler.SendToSeller (handler.services n)))
                 = None)))
  /\ (handler.code (fst r) = 200 \/ handler.code (fst r) = 422
      \/ handler.code (fst r) = 500)
  /\ (snd (handler.ShouldBindBodyWithJSON c) <> None
      \/ (recipient <> "buyer" /\ recipient <> "seller") ->
      snd r = w /\ handler.code (fst r) <> 200).
Proof.
  cbn zeta. unfold handler.NotifyHandler.
  destruct (handler.ShouldBindBodyWithJSON c) as [req [err|]]; cbn [fst snd].
  { cbn. repeat split; try done; try (by intros [? _]); by right; left. }
  rewrite bind_eq. unfold handler.RecipientTypeBuyer, handler.RecipientTypeSeller.
  destruct (String.eqb_spec (handler.Param_recipient c) "buyer") as [Hb|Hb].
  { rewrite Hb.
    destruct (fst (handler.SendToBuyer _ _ _ _ _ _)) eqn:Hr; cbn;
      (split; [done|]); (split; [|split; [tauto|]]).
    - split; [done|]. intros [_ [[_ ?]|[? _]]]; done.
    - intros [[]|[[] _]]; done.
    - split; [intros _|done]. split; [done|]. by left.
    - intros [[]|[[] _]]; done. }
  destruct (String.eqb_spec (handler.Param_recipient c) "seller") as [Hs|Hs].
  { rewrite Hs.
    destruct (fst (handler.SendToSeller _ _ _ _ _ _)) eqn:Hr; cbn;
      (split; [done|]); (split; [|split; [tauto|]]).
    - split; [done|]. intros [_ [[? _]|[_ ?]]]; done.
    - intros [[]|[_ []]]; done.
    - split; [intros _|done]. split; [done|]. by right.
    - intros [[]|[_ []]]; done. }
  cbn. split; [done|]. split; [|split; [tauto|done]].
  split; [done|]. intros [_ [[? _]|[? _]]]; done.
Qed.

End Handler.

Section Application.
Context `{Libs} (Error : error -> string).

Local Abbreviation svc := NewNotificationService.

(** X19.  From the handler to the network: a request for recipient "buyer"
    is answered 200 only when an Email endpoint has answered 200 to a
    notification carrying the recipient, title and message of the body,
    and that exchange is the last thing that happened on the network. *)
Theorem NotifyHandler_buyer_200_means_delivered sched
    (c : handler.gin_Context) (st : St (W := World)) :
  handler.Param_recipient c = "buyer" ->
  let r := handler.NotifyHandler Error
             (handler.mkNotification
                (handler.Service_NotificationProvider svc sched)) c st in
  let req := fst (handler.ShouldBindBodyWithJSON c) in
  handler.code (fst r) = 200 ->
  exists preference resp n,
    http_Do (handler.Request_Context c) (Host preference)
      (mkRequest (handler.To req) (handler.Title req) (handler.Message req)
                 (repository.SecretKey preference)) n
    = ((resp, None), net (snd (snd (fst (snd r)))))
    /\ snd (resp_ReadAll resp) = None
    /\ resp_StatusCode resp = 200.
Proof.
  intros Hb. cbn zeta. unfold handler.NotifyHandler.
  destruct (handler.ShouldBindBodyWithJSON c) as [req [err|]]; [done|].
  rewrite bind_eq, Hb. unfold handler.RecipientTypeBuyer.
  rewrite String.eqb_refl.
  cbn [handler.services handler.SendToBuyer
       handler.Service_NotificationProvider fst].
  destruct (fst (SendToBuyer svc (handler.Request_Context c) (handler.To req)
                   (handler.Title req) (handler.Message req) st)) eqn:Hr;
    [done|]. intros _.
  destruct (end_to_end.resolve_and_send_nil_inv _ EmailProvider _ _ Hr)
    as (p & resp & n0 & _ & Hdo & Hread & Hstatus).
  by exists p, resp, n0.
Qed.

End Application.
End handler_facts.

(** ** More on the registry *)

Module registry_more.
Import repository client service app vocabulary.
Import preservation.

Section Registry.
Context `{Libs}.

Lemma registered_only_refl hosts p : registered_only hosts p p.
Proof.
  split; [apply registry_facts.grows_refl|].
  repeat (split; [done|]). split; [by left|].
  intros i o Hi Ho. apply lookup_lt_Some in Ho. lia.
Qed.

Lemma registered_only_trans hosts p1 p2 p3 :
  registered_only hosts p1 p2 -> registered_only hosts p2 p3 ->
  registered_only hosts p1 p3.
Proof.
  intros (Hg1 & Hs1 & Hn1 & Hc1 & Hd1 & Hf1) (Hg2 & Hs2 & Hn2 & Hc2 & Hd2 & Hf2).
  split; [by eapply registry_facts.grows_trans|].
  split; [congruence|]. split; [congruence|].
  split; [congruence|]. split.
  - intros h Hh. destruct (Hd2 h Hh) as [Hh2|Hin]; [|by right]. by apply Hd1.
  - intros i o Hi Ho.
    destruct (decide (i < length (heap p2))%nat) as [Hlt|Hge].
    + apply (Hf1 i o Hi). destruct Hg2 as [Hpre _].
      destruct (lookup_lt_is_Some_2 _ _ Hlt) as [o' Ho'].
      pose proof (prefix_lookup_Some _ _ _ _ Ho' Hpre) as Ho3. congruence.
    + rewrite <- Hs1. apply (Hf2 i o); [lia|done].
Qed.

Lemma registered_only_mono hosts hosts' p p' :
  hosts ⊆ hosts' -> registered_only hosts p p' -> registered_only hosts' p p'.
Proof.
  intros Hsub (Hg & Hs & Hn & Hc & Hd & Hf).
  repeat (split; [done|]). split.
  - intros h Hh. destruct (Hd h Hh); [by left|right; by apply Hsub].
  - intros i o Hi Ho. destruct (Hf i o Hi Ho). split; [by apply Hsub|done].
Qed.

Lemma caller_step_registered c p :
  registered_only [caller_host c] p (snd (caller_step c p))
  /\ caller_host (fst (caller_step c p)) = caller_host c
  /\ (length (heap (snd (caller_step c p)))
      + to_allocate [fst (caller_step c p)]
      <= length (heap p) + to_allocate [c])%nat.
Proof.
  destruct c as [host|host cb|host cb].
  - unfold caller_step, bind, ret, Load. cbn.
    destruct (breakers (registry p) !! host) as [cb|] eqn:Hl; cbn.
    + split; [apply registered_only_refl|]. split; [done|lia].
    + split; [|split; [done|rewrite length_app; cbn; lia]].
      split; [split; cbn; [by apply prefix_app_r|done]|].
      repeat (split; [done|]). split; [by left|].
      intros i o Hi Ho. cbn in Ho.
      assert (i = length (heap p)) as ->.
      { apply lookup_lt_Some in Ho. rewrite length_app in Ho. cbn in Ho. lia. }
      rewrite list_lookup_middle in Ho by done. injection Ho as <-. cbn.
      split; [set_solver|done].
  - unfold caller_step, bind, ret, LoadOrStore. cbn.
    destruct (breakers (registry p) !! host) as [actual|] eqn:Hl; cbn.
    + split; [apply registered_only_refl|]. split; [done|lia].
    + split; [|split; [done|lia]].
      split; [split; cbn; [done|by apply insert_subseteq]|].
      repeat (split; [done|]). split.
      * intros h Hh. cbn in Hh.
        destruct (decide (h = host)) as [->|Hne]; [right; set_solver|].
        left. by rewrite lookup_insert_ne in Hh.
      * intros i o Hi Ho. cbn in Ho. apply lookup_lt_Some in Ho. lia.
  - cbn. split; [apply registered_only_refl|]. split; [done|lia].
Qed.

Lemma to_allocate_cons c pool :
  to_allocate (c :: pool) = (to_allocate [c] + to_allocate pool)%nat.
Proof. unfold to_allocate. cbn. by destruct c. Qed.

Lemma to_allocate_insert pool : forall i c c',
  pool !! i = Some c ->
  (to_allocate (<[i := c']> pool) + to_allocate [c]
   = to_allocate pool + to_allocate [c'])%nat.
Proof.
  induction pool as [|x pool IH]; intros [|i] c c' Hi; try done.
  - cbn in Hi. injection Hi as ->. cbn [insert list_insert].
    rewrite (to_allocate_cons c' pool), (to_allocate_cons c pool). lia.
  - cbn in Hi. change (<[S i:=c']> (x :: pool)) with (x :: <[i:=c']> pool).
    rewrite (to_allocate_cons x (<[i:=c']> pool)), (to_allocate_cons x pool).
    specialize (IH i c c' Hi). lia.
Qed.

Lemma to_allocate_AtLoad hosts :
  to_allocate (AtLoad <$> hosts) = length hosts.
Proof.
  induction hosts as [|h hosts IH]; [done|].
  rewrite fmap_cons, to_allocate_cons, IH. done.
Qed.

Lemma pool_step_registered i pool p :
  registered_only (caller_host <$> pool) p (snd (pool_step i pool p))
  /\ caller_host <$> fst (pool_step i pool p) = caller_host <$> pool
  /\ (length (heap (snd (pool_step i pool p)))
      + to_allocate (fst (pool_step i pool p))
      <= length (heap p) + to_allocate pool)%nat.
Proof.
  unfold pool_step. destruct (pool !! i) as [c|] eqn:Hi.
  - rewrite bind_eq. cbn [ret fst snd].
    destruct (caller_step_registered c p) as (Hreg & Hh & Hlen).
    split; [|split].
    + eapply registered_only_mono; [|exact Hreg].
      intros h Hin. apply list_elem_of_singleton in Hin as ->.
      apply list_elem_of_fmap. exists c. split; [done|].
      by eapply list_elem_of_lookup_2.
    + rewrite list_fmap_insert, Hh. apply list_insert_id.
      by rewrite list_lookup_fmap, Hi.
    + pose proof (to_allocate_insert pool i c (fst (caller_step c p)) Hi).
      lia.
  - unfold ret. cbn [fst snd].
    split; [apply registered_only_refl|]. split; [done|lia].
Qed.

Lemma pool_run_registered sched : forall pool p,
  registered_only (caller_host <$> pool) p (snd (pool_run sched pool p))
  /\ caller_host <$> fst (pool_run sched pool p) = caller_host <$> pool
  /\ (length (heap (snd (pool_run sched pool p)))
      + to_allocate (fst (pool_run sched pool p))
      <= length (heap p) + to_allocate pool)%nat.
Proof.
  induction sched as [|i sched IH]; intros pool p.
  - unfold pool_run, ret. cbn [fst snd].
    split; [apply registered_only_refl|]. split; [done|lia].
  - cbn [pool_run]. rewrite bind_eq.
    destruct (pool_step_registered i pool p) as (Hreg & Hh & Hlen).
    destruct (IH (fst (pool_step i pool p)) (snd (pool_step i pool p)))
      as (Hreg' & Hh' & Hlen').
    rewrite Hh in Hreg', Hh'.
    split; [by eapply registered_only_trans|]. split; [done|lia].
Qed.

Lemma pool_sweep_registered pool : forall p,
  registered_only (caller_host <$> pool) p (snd (pool_sweep pool p))
  /\ caller_host <$> fst (pool_sweep pool p) = caller_host <$> pool
  /\ (length (heap (snd (pool_sweep pool p)))
      + to_allocate (fst (pool_sweep pool p))
      <= length (heap p) + to_allocate pool)%nat.
Proof.
  induction pool as [|c pool IH]; intros p.
  - unfold pool_sweep, ret. cbn [fst snd].
    split; [apply registered_only_refl|]. split; [done|lia].
  - cbn [pool_sweep]. rewrite !bind_eq. cbn [ret fst snd].
    destruct (caller_step_registered c p) as (Hreg & Hh & Hlen).
    destruct (IH (snd (caller_step c p))) as (Hreg' & Hh' & Hlen').
    split; [|split].
    + eapply registered_only_trans.
      * eapply registered_only_mono; [|exact Hreg]. rewrite fmap_cons.
        intros h ->%list_elem_of_singleton. constructor.
      * eapply registered_only_mono; [|exact Hreg']. rewrite fmap_cons.
        intros h Hin. by constructor.
    + by rewrite !fmap_cons, Hh, Hh'.
    + rewrite (to_allocate_cons (fst (caller_step c p))
                 (fst (pool_sweep pool (snd (caller_step c p))))),
        (to_allocate_cons c pool). lia.
Qed.

(** X20.  Calls of [GetOrCreate] running side by side, in any
    interleaving, only add: a host that had a breaker keeps it, the
    breakers allocated before stay where they are, hosts enter the registry
    only for the calls made, at most one breaker is allocated per call, and
    each new breaker is built from the registry's settings with the name
    of the host it was made for.  The settings, the network and the clock
    are not touched. *)
Theorem GetOrCreate_concurrently_only_adds (sched : list nat)
    (hosts : list string) (p : Process) :
  let p' := snd (GetOrCreate_concurrently sched hosts p) in
  registered_only hosts p p'
  /\ (length (heap p') <= length (heap p) + length hosts)%nat.
Proof.
  cbn zeta. unfold GetOrCreate_concurrently. rewrite !bind_eq.
  set (r0 := pool_run sched (AtLoad <$> hosts) p).
  destruct (pool_run_registered sched (AtLoad <$> hosts) p)
    as (Hreg0 & Hh0 & Hlen0). fold r0 in Hreg0, Hh0, Hlen0.
  set (r1 := pool_sweep (fst r0) (snd r0)).
  destruct (pool_sweep_registered (fst r0) (snd r0)) as (Hreg1 & Hh1 & Hlen1).
  fold r1 in Hreg1, Hh1, Hlen1.
  set (r2 := pool_sweep (fst r1) (snd r1)).
  destruct (pool_sweep_registered (fst r1) (snd r1)) as (Hreg2 & Hh2 & Hlen2).
  fold r2 in Hreg2, Hh2, Hlen2.
  assert (Hhosts : caller_host <$> (AtLoad <$> hosts) = hosts).
  { rewrite <- list_fmap_compose. rewrite <- (list_fmap_id hosts) at 2.
    by apply list_fmap_ext. }
  rewrite Hh1, Hh0, Hhosts in Hreg2. rewrite Hh0, Hhosts in Hreg1.
  rewrite Hhosts in Hreg0. rewrite to_allocate_AtLoad in Hlen0.
  split; [|lia].
  eapply registered_only_trans; [exact Hreg0|].
  eapply registered_only_trans; [exact Hreg1|exact Hreg2].
Qed.

End Registry.
End registry_more.

(** ** More on the fan-out *)

Module fanout_more.
Import repository client service app vocabulary.
Import preservation.

Section Machine.
Context {W : Type} (s : NotificationService (W := W)).

Lemma derived_fresh ctx : derived ctx (mkGroup None false) = ctx.
Proof. unfold derived. by destruct (ctx_err ctx). Qed.

(** While only the Email goroutine is let run, the Push goroutine stays
    where it is, and running Email to its end from there is running it to
    its end from the start. *)
Lemma machine_run_email_only parent req0 n : forall m st,
  let r := machine_run s parent req0 (repeat false n) m st in
  m_push (fst r) = m_push m
  /\ goroutine_finish s parent req0 false (m_email (fst r)) (m_group (fst r))
       (snd r)
     = goroutine_finish s parent req0 false (m_email m) (m_group m) st.
Proof.
  induction n as [|n IH]; intros m st; [done|].
  cbn [repeat machine_run]. rewrite bind_eq. cbn zeta.
  destruct (IH (fst (machine_step s parent req0 false m st))
               (snd (machine_step s parent req0 false m st))) as [Hp Hf].
  rewrite Hp, Hf. unfold machine_step. rewrite bind_eq.
  cbn [ret fst snd with_goroutine m_push m_email m_group goroutine_of].
  split; [done|]. by rewrite (fanout.goroutine_finish_step s parent req0 false
                               (m_email m)).
Qed.

(** X21.  When the scheduler lets the Email goroutine run ahead,
    [SendToSeller] is [SendToBuyer] followed by the same for the Push
    channel: the Push part runs on the context as Email's result leaves
    it (the caller's after a nil, the cancelled one after an error), and
    the result is Email's error if it has one, else Push's. *)
Theorem SendToSeller_email_first n ctx to title message (st : St (W := W)) :
  let email := SendToBuyer s ctx to title message st in
  let g := go_return (fst email) (mkGroup None false) in
  let st1 := (fst (snd email), snd (snd email) ++ [GoReturn false (fst email)]) in
  let push :=
    resolve_and_send s (derived ctx g) PushNotificationProvider
      (mkRequest to title message "") st1 in
  SendToSeller s (repeat false n) ctx to title message st
  = (match fst email with Some e => Some e | None => fst push end,
     (fst (snd push), snd (snd push) ++ [GoReturn true (fst push)])).
Proof.
  cbn zeta. unfold SendToSeller. rewrite bind_eq.
  set (req := mkRequest to title message "").
  set (m0 := mkMachine _ _ _).
  destruct (machine_run_email_only ctx req n m0 st) as [Hp Hf].
  unfold Wait. rewrite !bind_eq. rewrite Hf, Hp. subst m0.
  cbn [m_email m_push m_group ret].
  rewrite !fanout.goroutine_finish_body. cbn zeta. cbn [fst snd].
  rewrite derived_fresh. unfold SendToBuyer. fold req.
  f_equal.
  destruct (fst (resolve_and_send s ctx EmailProvider req st)) as [e|];
    cbn [go_return g_err];
    by destruct (fst (resolve_and_send s _ PushNotificationProvider req _)).
Qed.

End Machine.
End fanout_more.

(** ** The registry in the running service *)

Module registry_in_service.
Import repository client service app vocabulary.
Import preservation.

Section Reachable.
Context `{Libs}.

Lemma HTTPClient_Post_settings ctx u reqBody p :
  settings (registry (snd (HTTPClient_Post ctx u reqBody p)))
  = settings (registry p).
Proof.
  destruct (extractHost u) as [host [err|]] eqn:Hu.
  { unfold HTTPClient_Post. by rewrite Hu. }
  destruct (client_more.HTTPClient_Post_frame ctx u reqBody p host Hu)
    as (-> & _).
  by destruct (registry_facts.GetOrCreate_frame host p) as (_ & _ & -> & _).
Qed.

(** X22.  In the running service the registry stays sound and keeps its
    settings: from the process as [NewCircuitBreakerRegistry] starts it,
    after any course of resolves, buyer and seller notifications in any
    interleaving, time passing and changes of the database, every host
    the registry knows points at an allocated breaker that carries the
    host as its name, and the settings are those made from the
    configuration. *)
Theorem registry_sound_in_service Config (c0 : Cache) (p0 : Persistent)
    (n : Net) (t : Z) (l : list Action) :
  let proc :=
    snd (snd (fst (acts l
      ((c0, (p0, mkProcess (NewCircuitBreakerRegistry Config) [] n t)), []))))
  in
  wf_registry proc
  /\ settings (registry proc) = settings (NewCircuitBreakerRegistry Config).
Proof.
  cbn zeta.
  set (S0 := settings (NewCircuitBreakerRegistry Config)).
  set (I := fun w : World =>
              wf_registry (snd (snd w)) /\ settings (registry (snd (snd w))) = S0).
  assert (HGet : forall key w, I w ->
            I (snd (cache_Get (cacheProvider NewNotificationService) key w))).
  { intros key w HI. cbn. unfold on_fst. by destruct (Cache_Get key (fst w)). }
  assert (HFind : forall ctx key w, I w ->
            I (snd (FindByProviderType
                      (persistentProvider NewNotificationService) ctx key w))).
  { intros ctx key w HI. cbn. unfold on_snd, on_fst.
    by destruct (Persistent_FindByProviderType ctx key _). }
  assert (HSet : forall key values w, I w -> values <> [] ->
            I (snd (cache_Set (cacheProvider NewNotificationService)
                      key values w))).
  { intros key values w HI _. cbn. unfold on_fst.
    by destruct (Cache_Set key values (fst w)). }
  assert (HPost : forall ctx u reqBody w, I w ->
            I (snd (Post (httpclient NewNotificationService) ctx u reqBody w))).
  { intros ctx u reqBody w [Hwf Hs]. rewrite end_to_end.World_Post_eq.
    split; cbn [fst snd].
    - by apply client_more.HTTPClient_Post_wf.
    - by rewrite HTTPClient_Post_settings. }
  assert (Hact : forall a st, I (fst st) -> I (fst (act a st))).
  { intros a st HI. destruct a; cbn [act].
    - apply (getNotificationPreferences_keeps _ I); auto.
      apply nonempty.I_Find_nonempty.
    - unfold SendToBuyer. apply (resolve_and_send_keeps _ I); auto.
      apply nonempty.I_Find_nonempty.
    - apply (SendToSeller_keeps _ I); auto.
      apply nonempty.I_Find_nonempty.
    - exact HI.
    - exact HI. }
  assert (Hacts : forall st, I (fst st) -> I (fst (acts l st))).
  { induction l as [|a l IH]; intros st HI; [done|].
    cbn. apply IH. by apply Hact. }
  apply (Hacts (_, [])). split; [|done].
  apply registry_facts.NewCircuitBreakerRegistry_wf.
Qed.

End Reachable.
End registry_in_service.

(** ** The collector of the client *)

Module metrics_facts.
Import repository client service app vocabulary metrics.
Import preservation.

Section Recorded.
Context `{Libs}.
Variable Error : error -> string.
Variable State_String : State -> string.

Local Abbreviation recorded :=
  (HTTPClient_Post_recorded Error State_String NewHTTPClientCollector).

Lemma on_fst_eq {A B R : Type} (m : M A R) (w : A * B) :
  on_fst m w = (fst (m (fst w)), (snd (m (fst w)), snd w)).
Proof. unfold on_fst. by destruct (m (fst w)). Qed.

Lemma on_snd_eq {A B R : Type} (m : M B R) (w : A * B) :
  on_snd m w = (fst (m (snd w)), (fst w, snd (m (snd w)))).
Proof. unfold on_snd. by destruct (m (snd w)). Qed.

Lemma samples_app instrument a b :
  samples instrument (a ++ b)
  = (samples instrument a + samples instrument b)%nat.
Proof. unfold samples. by rewrite List.filter_app, length_app. Qed.

Lemma samples_one instrument m :
  samples instrument [m]
  = if String.eqb (instrument_of m) instrument then 1%nat else 0%nat.
Proof. unfold samples. cbn. by destruct (String.eqb _ _). Qed.

(** X23.  Recording does not bear on delivery: with its collector, [Post]
    returns what it returns without, and leaves the registry, the
    breakers and the network as it leaves them without, whatever the
    meter holds and whatever the duration measured; and it only adds to
    the meter. *)
Theorem HTTPClient_Post_recorded_same_delivery duration ctx u reqBody p meter :
  fst (recorded duration ctx u reqBody (p, meter))
  = fst (HTTPClient_Post ctx u reqBody p)
  /\ fst (snd (recorded duration ctx u reqBody (p, meter)))
     = snd (HTTPClient_Post ctx u reqBody p)
  /\ meter `prefix_of` snd (snd (recorded duration ctx u reqBody (p, meter))).
Proof.
  unfold HTTPClient_Post_recorded, HTTPClient_Post.
  destruct (extractHost u) as [host [err|]]; [done|].
  repeat (progress (rewrite ?bind_eq, ?on_fst_eq, ?on_snd_eq; cbn [fst snd])).
  set (cb := fst (GetOrCreate host p)).
  set (p2 := snd (Breaker_State cb _)).
  set (r := Execute cb (do_request ctx u reqBody) p2).
  destruct (snd (fst r)) as [err|].
  - rewrite bind_eq, on_snd_eq. cbn [fst snd ret].
    split; [done|]. split; [done|].
    unfold RecordRequest, RecordCircuitBreakerState, measure, bind, ret.
    cbn. rewrite <- !app_assoc. by apply prefix_app_r.
  - destruct (StatusCode (fst (fst r)) =? 200);
      rewrite bind_eq, on_snd_eq; cbn [fst snd ret];
      (split; [done|]); (split; [done|]);
      unfold RecordRequest, RecordCircuitBreakerState, measure, bind, ret;
      cbn; rewrite <- ?app_assoc; by apply prefix_app_r.
Qed.

(** The measurements a [Post] adds, instrument by instrument. *)
Lemma HTTPClient_Post_recorded_samples duration ctx u reqBody p meter :
  let r := recorded duration ctx u reqBody (p, meter) in
  let parsed : nat :=
    match snd (extractHost u) with None => 1%nat | Some _ => 0%nat end in
  let failed : nat :=
    match fst r with None => 0%nat | Some _ => parsed end in
  forall instrument,
    samples instrument (snd (snd r)) =
    (samples instrument meter +
     (if String.eqb "http.client.circuit_breaker.state" instrument
      then parsed
      else if String.eqb "http.client.requests" instrument then parsed
      else if String.eqb "http.client.duration" instrument then parsed
      else if String.eqb "http.client.errors" instrument then failed
      else 0%nat))%nat.
Proof.
  cbn zeta. intros instrument.
  unfold HTTPClient_Post_recorded.
  destruct (extractHost u) as [host [err|]]; cbn [fst snd ret].
  { generalize (samples instrument meter). intros n.
    repeat match goal with
           | |- context [String.eqb ?a ?b] =>
               destruct (String.eqb_spec a b) as [?|?];
               [try discriminate; try subst instrument|]
           end; lia. }
  repeat (progress (rewrite ?bind_eq, ?on_fst_eq, ?on_snd_eq; cbn [fst snd])).
  set (cb := fst (GetOrCreate host p)).
  set (p2 := snd (Breaker_State cb _)).
  set (r := Execute cb (do_request ctx u reqBody) p2).
  set (state := match fst (Breaker_State cb _) with
                | Some st => State_String st | None => "" end).
  destruct (snd (fst r)) as [err|];
    [|destruct (StatusCode (fst (fst r)) =? 200)];
    rewrite bind_eq, on_snd_eq; cbn [fst snd ret];
    unfold RecordRequest, RecordCircuitBreakerState, measure, bind, ret;
    cbn [fst snd NewHTTPClientCollector requestCount requestDuration
         errorCount circuitBreakerState];
    rewrite !samples_app, !samples_one; cbn [instrument_of];
    generalize (samples instrument meter); intros n;
    repeat match goal with
           | |- context [String.eqb ?a ?b] =>
               destruct (String.eqb_spec a b) as [?|?];
               [try discriminate; try subst instrument|]
           end; lia.
Qed.

(** X24.  What a [Post] leaves in the meter.  When the URL does not parse:
    nothing, although [Post] returns an error.  Otherwise: one reading of
    the breaker's state, one request counted and one duration recorded,
    and one error counted exactly when [Post] returns an error.  The
    counter of breaker state changes is never added to. *)
Theorem HTTPClient_Post_recorded_counts duration ctx u reqBody p meter :
  let c := NewHTTPClientCollector in
  let r := recorded duration ctx u reqBody (p, meter) in
  let parsed : nat :=
    match snd (extractHost u) with None => 1%nat | Some _ => 0%nat end in
  let failed : nat :=
    match fst r with None => 0%nat | Some _ => parsed end in
  samples (circuitBreakerState c) (snd (snd r))
  = (samples (circuitBreakerState c) meter + parsed)%nat
  /\ samples (requestCount c) (snd (snd r))
     = (samples (requestCount c) meter + parsed)%nat
  /\ samples (requestDuration c) (snd (snd r))
     = (samples (requestDuration c) meter + parsed)%nat
  /\ samples (errorCount c) (snd (snd r))
     = (samples (errorCount c) meter + failed)%nat
  /\ samples (circuitBreakerChanges c) (snd (snd r))
     = samples (circuitBreakerChanges c) meter.
Proof.
  cbn zeta.
  pose proof (HTTPClient_Post_recorded_samples duration ctx u reqBody p meter)
    as Hs. cbn zeta in Hs.
  repeat split; rewrite Hs; cbn [NewHTTPClientCollector circuitBreakerState
    requestCount requestDuration errorCount circuitBreakerChanges];
    try reflexivity.
  change (String.eqb _ _) with false. cbn iota. lia.
Qed.

(** X25.  The gauge of the breaker's state shows the state the breaker of
    the URL's host was in when [Post] looked, before the request: 0 for
    closed, 1 for open, 2 for half-open, as the instrument's description
    says; [gobreaker]'s names for the states are the ones
    [circuitBreakerStateToInt] knows, so that -1 is not recorded. *)
Theorem HTTPClient_Post_recorded_state duration ctx u reqBody p meter host b0 :
  State_String StateClosed = "closed" ->
  State_String StateHalfOpen = "half-open" ->
  State_String StateOpen = "open" ->
  extractHost u = (host, None) ->
  breaker_of host (snd (GetOrCreate host p)) = Some b0 ->
  let st := fst (gobreaker_State (clock p) b0) in
  exists rest,
    snd (snd (recorded duration ctx u reqBody (p, meter)))
    = meter ++
      Int64Gauge_Record "http.client.circuit_breaker.state"
        (match st with
         | StateClosed => 0 | StateOpen => 1 | StateHalfOpen => 2
         end)
        [attribute_String "http.host" host;
         attribute_String "circuit_breaker.state" (State_String st)]
      :: rest.
Proof.
  intros Hclosed Hhalf Hopen Hu Hb. cbn zeta.
  destruct (registry_facts.GetOrCreate_frame host p)
    as (Hcb & _ & _ & Hclock & _ & _).
  apply client_more.breaker_of_Some in Hb as (cb & o & Hl & Ho & <-).
  rewrite Hl in Hcb. injection Hcb as Hcb.
  unfold HTTPClient_Post_recorded. rewrite Hu.
  repeat (progress (rewrite ?bind_eq, ?on_fst_eq, ?on_snd_eq; cbn [fst snd])).
  rewrite <- Hcb.
  assert (HS : fst (Breaker_State cb (snd (GetOrCreate host p)))
               = Some (fst (gobreaker_State (clock p) (cb_state o)))).
  { unfold Breaker_State. rewrite Ho, Hclock.
    by destruct (gobreaker_State (clock p) (cb_state o)). }
  rewrite HS.
  set (st := fst (gobreaker_State (clock p) (cb_state o))).
  set (p2 := snd (Breaker_State cb _)).
  set (r := Execute cb (do_request ctx u reqBody) p2).
  assert (Hv : circuitBreakerStateToInt (State_String st)
               = match st with
                 | StateClosed => 0 | StateOpen => 1 | StateHalfOpen => 2
                 end).
  { destruct st; [rewrite Hclosed|rewrite Hhalf|rewrite Hopen]; reflexivity. }
  destruct (snd (fst r)) as [err|];
    [|destruct (StatusCode (fst (fst r)) =? 200)];
    rewrite bind_eq, on_snd_eq; cbn [fst snd ret];
    unfold RecordRequest, RecordCircuitBreakerState, measure, bind, ret;
    cbn [fst snd NewHTTPClientCollector requestCount requestDuration
         errorCount circuitBreakerState];
    rewrite Hv, <- ?app_assoc; cbn [app]; by eexists.
Qed.

End Recorded.
End metrics_facts.

(** ** The fan-out, end to end *)

Module fanout_delivery.
Import repository client service app vocabulary.
Import preservation.

Section Machine.
Context {W : Type} (s : NotificationService (W := W)).
Variable req0 : NotificationRequest.

Local Abbreviation nad := (nil_after_delivery s req0).

Lemma replay_app a b (w : W) :
  replay s (a ++ b) w = replay s b (replay s a w).
Proof. apply fold_left_app. Qed.

Lemma nil_after_delivery_weaken prev w tr :
  nad None w tr -> nad prev w tr.
Proof.
  destruct tr as [|ev tr]; [done|]. cbn. intros [Hev Htr]. split; [|done].
  by destruct ev as [| | | |unit [e|]].
Qed.

Lemma nil_after_delivery_app a : forall prev w b,
  nad prev w a -> nad None (replay s a w) b -> nad prev w (a ++ b).
Proof.
  induction a as [|ev a IH]; intros prev w b Ha Hb.
  - by apply nil_after_delivery_weaken.
  - cbn in *. destruct Ha as [Hev Ha]. split; [done|]. by apply IH.
Qed.

(** A nil return in such a trace has its [Post] right before it, and the
    [Post] returned nil in the world the calls before it had made. *)
Lemma nil_after_delivery_find unit tr : forall prev w,
  In (unit, None) (go_returns tr) -> nad prev w tr ->
  (exists pre post c u r,
     tr = pre ++ HTTPPost c u r :: GoReturn unit None :: post
     /\ same_message req0 r
     /\ fst (Post (httpclient s) c u r (replay s pre w)) = None)
  \/ (exists post c u r w0,
        prev = Some (HTTPPost c u r, w0) /\ tr = GoReturn unit None :: post
        /\ same_message req0 r
        /\ fst (Post (httpclient s) c u r w0) = None).
Proof.
  induction tr as [|ev tr IH]; intros prev w Hin Hn; [done|].
  cbn in Hn. destruct Hn as [Hev Hn].
  assert (Hrest : In (unit, None) (go_returns tr) ->
            exists pre post c u r,
              ev :: tr = pre ++ HTTPPost c u r :: GoReturn unit None :: post
              /\ same_message req0 r
              /\ fst (Post (httpclient s) c u r (replay s pre w)) = None).
  { intros Hin'. destruct (IH (Some (ev, w)) _ Hin' Hn)
      as [(pre & post & c & u & r & -> & Hsame & Hpost)
         |(post & c & u & r & w0 & [= -> ->] & -> & Hsame & Hpost)].
    - by exists (ev :: pre), post, c, u, r.
    - by exists [], post, c, u, r. }
  destruct ev as [key|key values|c0 key|c0 u0 r0|unit0 [e|]]; cbn in Hin;
    try (left; by apply Hrest).
  - destruct Hin as [[=]|Hin]. left. by apply Hrest.
  - destruct Hin as [[= ->]|Hin]; [|left; by apply Hrest].
    right. destruct prev as [[[| | |c u r|] w0]|]; try done.
    by exists tr, c, u, r, w0.
Qed.

Lemma delivers_refl st : delivers s req0 st st [].
Proof. split; [by rewrite app_nil_r|done]. Qed.

Lemma delivers_trans st st1 st2 a b :
  delivers s req0 st st1 a -> delivers s req0 st1 st2 b ->
  delivers s req0 st st2 (a ++ b).
Proof.
  intros (Ht1 & Hw1 & Hn1) (Ht2 & Hw2 & Hn2). split; [|split].
  - by rewrite Ht2, Ht1, <- app_assoc.
  - by rewrite Hw2, Hw1, replay_app.
  - apply nil_after_delivery_app; [done|]. by rewrite <- Hw1.
Qed.

(** A call on a collaborator. *)
Lemma delivers_call {A : Type} ev (m : M W A) st :
  (forall unit, ev <> GoReturn unit None) ->
  replay_event s (fst st) ev = snd (m (fst st)) ->
  delivers s req0 st (snd (call ev m st)) [ev].
Proof.
  intros Hev Hw. rewrite call_eq. split; [done|]. split; [done|].
  cbn. split; [|done]. destruct ev as [| | | |unit [e|]]; try done.
  by destruct (Hev unit).
Qed.

Lemma delivers_Get key st :
  delivers s req0 st (snd (call_Get s key st)) [CacheGet key].
Proof. by apply delivers_call. Qed.

Lemma delivers_Set key values st :
  delivers s req0 st (snd (call_Set s key values st)) [CacheSet key values].
Proof. by apply delivers_call. Qed.

Lemma delivers_Find ctx key st :
  delivers s req0 st (snd (call_Find s ctx key st)) [StoreFind ctx key].
Proof. by apply delivers_call. Qed.

Lemma delivers_Post ctx u r st :
  delivers s req0 st (snd (call_Post s ctx u r st)) [HTTPPost ctx u r].
Proof. by apply delivers_call. Qed.

(** An error handed to the group. *)
Lemma delivers_error unit e g st :
  delivers s req0 st (snd (returns unit (Some e) g st))
    [GoReturn unit (Some e)].
Proof. done. Qed.

(** A [Post] that returns nil, and the nil handed to the group. *)
Lemma delivers_nil unit c u r g st :
  same_message req0 r ->
  fst (Post (httpclient s) c u r (fst st)) = None ->
  delivers s req0 st (snd (returns unit None g (snd (call_Post s c u r st))))
    [HTTPPost c u r; GoReturn unit None].
Proof.
  intros Hsame Hpost. unfold call_Post. rewrite call_eq.
  split; [by cbn; rewrite <- app_assoc|]. split; [done|]. by cbn.
Qed.

Lemma same_message_with_SecretKey req k :
  same_message req0 req -> same_message req0 (with_SecretKey req k).
Proof. done. Qed.

(** The dispatcher, followed by the report of its result. *)
Lemma sendNotification_nad ctx unit g preferences : forall req st,
  same_message req0 req ->
  exists new,
    delivers s req0 st
      (snd (returns unit (fst (sendNotification s ctx preferences req st)) g
              (snd (sendNotification s ctx preferences req st))))
      new.
Proof.
  induction preferences as [|p rest IH]; intros req [w tr] Hreq.
  - by exists [GoReturn unit (Some delivery_failed)].
  - rewrite dispatcher.sendNotification_cons.
    destruct (Post (httpclient s) ctx (Host p)
                (with_SecretKey req (repository.SecretKey p)) w)
      as [[e|] w'] eqn:HP.
    + destruct (IH req (w', tr ++ [attempt_event ctx req p]) Hreq)
        as (new & Hd).
      exists ([attempt_event ctx req p] ++ new).
      refine (delivers_trans _ _ _ _ _ _ Hd).
      split; [done|]. split; [by cbn; rewrite HP|done].
    + exists [attempt_event ctx req p; GoReturn unit None].
      split; [by cbn; rewrite <- app_assoc|].
      split; [by cbn; rewrite HP|]. cbn. by rewrite HP.
Qed.

Lemma goroutine_step_nad parent unit p g st :
  carries_message req0 p ->
  carries_message req0 (fst (fst (goroutine_step s parent req0 unit p g st)))
  /\ exists new,
       delivers s req0 st (snd (goroutine_step s parent req0 unit p g st)) new.
Proof.
  intros Hp. destruct p as [key|key|key preferences|preferences req|].
  - cbn [goroutine_step]. rewrite bind_eq. unfold call_Get.
    rewrite call_eq. cbn [fst snd].
    destruct (snd (fst (cache_Get _ key _))); cbn;
      (split; [done|]); by exists [CacheGet key].
  - cbn [goroutine_step]. rewrite bind_eq. unfold call_Find.
    rewrite call_eq. cbn [fst snd].
    destruct (snd (fst (FindByProviderType _ _ key _))) as [err|]; cbn.
    + split; [done|]. eexists [StoreFind _ key; GoReturn unit (Some err)].
      split; [by cbn; rewrite <- app_assoc|done].
    + split; [done|]. by eexists [StoreFind _ key].
  - cbn [goroutine_step]. rewrite bind_eq. unfold call_Set.
    rewrite call_eq. cbn. split; [done|]. by eexists [CacheSet key _].
  - destruct preferences as [|q rest].
    + cbn. split; [done|]. by eexists [GoReturn unit (Some delivery_failed)].
    + cbn [goroutine_step]. rewrite bind_eq.
      destruct (fst (call_Post s (derived parent g) (Host q)
                       (with_SecretKey req (repository.SecretKey q)) st))
        as [err|] eqn:HP.
      * split; [done|]. eexists. apply delivers_Post.
      * split; [done|]. eexists. apply delivers_nil; [done|].
        unfold call_Post in HP. by rewrite call_eq in HP.
  - cbn. split; [done|]. exists []. apply delivers_refl.
Qed.

Lemma finish_send_nad parent unit preferences req g st :
  same_message req0 req ->
  exists new,
    delivers s req0 st (snd (finish_send s parent unit preferences req g st))
      new.
Proof.
  intros Hreq. unfold finish_send. rewrite !bind_eq.
  destruct (sendNotification_nad (derived parent g) unit g preferences req st
              Hreq) as (new & Hd).
  by exists new.
Qed.

Lemma finish_find_nad parent unit key g st :
  exists new,
    delivers s req0 st (snd (finish_find s parent req0 unit key g st)) new.
Proof.
  unfold finish_find. rewrite bind_eq.
  destruct (snd (fst (call_Find s (derived parent g) key st))) as [err|].
  - rewrite bind_eq. cbn [ret snd].
    eexists. eapply delivers_trans; [apply delivers_Find|].
    apply delivers_error.
  - rewrite bind_eq.
    edestruct (finish_send_nad parent unit) as (new & Hd); [done|].
    eexists. eapply delivers_trans; [apply delivers_Find|].
    eapply delivers_trans; [apply delivers_Set|exact Hd].
Qed.

Lemma goroutine_finish_nad parent unit p g st :
  carries_message req0 p ->
  exists new,
    delivers s req0 st (snd (goroutine_finish s parent req0 unit p g st)) new.
Proof.
  intros Hp. destruct p as [key|key|key preferences|preferences req|];
    cbn [goroutine_finish].
  - rewrite bind_eq.
    destruct (snd (fst (call_Get s key st))).
    + edestruct (finish_find_nad parent unit key) as (new & Hd).
      eexists. eapply delivers_trans; [apply delivers_Get|exact Hd].
    + edestruct (finish_send_nad parent unit) as (new & Hd); [done|].
      eexists. eapply delivers_trans; [apply delivers_Get|exact Hd].
  - apply finish_find_nad.
  - rewrite bind_eq.
    edestruct (finish_send_nad parent unit) as (new & Hd); [done|].
    eexists. eapply delivers_trans; [apply delivers_Set|exact Hd].
  - by apply finish_send_nad.
  - exists []. apply delivers_refl.
Qed.

Lemma machine_run_nad parent sched : forall m st,
  carries_message req0 (m_email m) -> carries_message req0 (m_push m) ->
  let r := machine_run s parent req0 sched m st in
  carries_message req0 (m_email (fst r))
  /\ carries_message req0 (m_push (fst r))
  /\ exists new, delivers s req0 st (snd r) new.
Proof.
  induction sched as [|unit sched IH]; intros m st He Hp.
  - cbn. split; [done|]. split; [done|]. exists []. apply delivers_refl.
  - cbn [machine_run]. rewrite bind_eq. cbn zeta.
    assert (Hu : carries_message req0 (goroutine_of m unit))
      by by destruct unit.
    destruct (goroutine_step_nad parent unit (goroutine_of m unit)
                (m_group m) st Hu) as (Hc & new1 & Hd1).
    set (r1 := goroutine_step s parent req0 unit (goroutine_of m unit)
                 (m_group m) st) in *.
    assert (Hstep : machine_step s parent req0 unit m st
                    = (with_goroutine m unit (fst (fst r1)) (snd (fst r1)),
                       snd r1)).
    { unfold machine_step. by rewrite bind_eq. }
    rewrite Hstep. cbn [fst snd].
    destruct (IH (with_goroutine m unit (fst (fst r1)) (snd (fst r1)))
                 (snd r1)) as (He2 & Hp2 & new2 & Hd2).
    { by destruct unit. }
    { by destruct unit. }
    split; [done|]. split; [done|].
    exists (new1 ++ new2). by eapply delivers_trans.
Qed.

(** What [SendToSeller] adds to the trace, and the world it leaves: the
    world is the one its calls make, and every nil handed to the group
    comes right after a [Post] of the message that returned nil. *)
Lemma SendToSeller_nad sched ctx to title message st :
  req0 = mkRequest to title message "" ->
  exists new,
    delivers s req0 st (snd (SendToSeller s sched ctx to title message st))
      new.
Proof.
  intros Hreq. unfold SendToSeller. rewrite <- Hreq, bind_eq.
  set (m0 := mkMachine _ _ _).
  destruct (machine_run_nad ctx sched m0 st) as (He & Hp & new1 & Hd1);
    [done|done|].
  set (r1 := machine_run s ctx req0 sched m0 st) in *.
  unfold Wait. rewrite !bind_eq. cbn [ret fst snd].
  destruct (goroutine_finish_nad ctx false (m_email (fst r1))
              (m_group (fst r1)) (snd r1) He) as (new2 & Hd2).
  set (r2 := goroutine_finish s ctx req0 false _ _ _) in *.
  destruct (goroutine_finish_nad ctx true (m_push (fst r1)) (fst r2) (snd r2)
              Hp) as (new3 & Hd3).
  exists (new1 ++ new2 ++ new3).
  eapply delivers_trans; [exact Hd1|]. by eapply delivers_trans.
Qed.

(** Both goroutines hand their result to the group, once each, and the
    result of [SendToSeller] is the first error among the two. *)
Lemma SendToSeller_returns sched ctx to title message st :
  exists new unit e1 e2,
    snd (snd (SendToSeller s sched ctx to title message st)) = snd st ++ new
    /\ go_returns new = [(unit, e1); (negb unit, e2)]
    /\ fst (SendToSeller s sched ctx to title message st)
       = first_error (go_returns new).
Proof.
  destruct st as [w tr]. unfold SendToSeller. rewrite bind_eq.
  set (req := mkRequest to title message "").
  set (m0 := mkMachine (mkGroup None false) (AtGet EmailProvider)
                       (AtGet PushNotificationProvider)).
  destruct (fanout.machine_run_inv s ctx req sched m0 (w, tr) tr [])
    as (new1 & Htr1 & Hinv1).
  { cbn. by rewrite app_nil_r. }
  { repeat split; cbn; try done; try constructor.
    by destruct unit. }
  set (r1 := machine_run s ctx req sched m0 (w, tr)) in *.
  unfold Wait. rewrite !bind_eq. cbn [ret fst snd].
  destruct (fanout.goroutine_finish_inv s ctx req false (fst r1) (snd r1) tr
              new1 Htr1 Hinv1) as (new2 & Htr2 & Hinv2).
  cbn [goroutine_of] in Htr2, Hinv2.
  set (r2 := goroutine_finish s ctx req false (m_email (fst r1))
               (m_group (fst r1)) (snd r1)) in *.
  destruct (fanout.goroutine_finish_inv s ctx req true
              (with_goroutine (fst r1) false Finished (fst r2)) (snd r2)
              tr new2 Htr2 Hinv2) as (new3 & Htr3 & Hinv3).
  cbn [goroutine_of with_goroutine m_push m_group] in Htr3, Hinv3.
  set (r3 := goroutine_finish s ctx req true (m_push (fst r1)) (fst r2)
               (snd r2)) in *.
  destruct Hinv3 as (_ & _ & Herr & Hnd & Hfin).
  cbn [with_goroutine m_group] in Herr.
  destruct (fanout.both_returned (go_returns new3) Hnd)
    as (unit & e1 & e2 & Hrs).
  { intros unit. apply Hfin. by destruct unit. }
  exists new3, unit, e1, e2. by rewrite Htr3, Herr, Hrs.
Qed.

End Machine.

(** A nil from [SendToSeller] comes with two [Post]s that returned nil,
    one per goroutine, each right before the goroutine's return and each
    made in the world the calls before it had left. *)
Lemma SendToSeller_nil_posts {W : Type} (s : NotificationService (W := W))
    sched ctx to title message st :
  fst (SendToSeller s sched ctx to title message st) = None ->
  exists new,
    snd (snd (SendToSeller s sched ctx to title message st)) = snd st ++ new
    /\ fst (snd (SendToSeller s sched ctx to title message st))
       = replay s new (fst st)
    /\ forall unit : bool,
       exists pre post c u secret,
         new = pre ++ HTTPPost c u (mkRequest to title message secret)
                   :: GoReturn unit None :: post
         /\ fst (Post (httpclient s) c u (mkRequest to title message secret)
                   (replay s pre (fst st)))
            = None.
Proof.
  intros Hnil.
  destruct (SendToSeller_returns s sched ctx to title message st)
    as (new & u1 & e1 & e2 & Htr & Hrs & Hres).
  destruct (SendToSeller_nad s (mkRequest to title message "") sched ctx
              to title message st eq_refl) as (new' & Htr' & Hw & Hn).
  rewrite Htr in Htr'. apply app_inv_head in Htr' as <-.
  exists new. split; [done|]. split; [done|]. intros unit.
  assert (Hboth : e1 = None /\ e2 = None).
  { rewrite Hnil, Hrs in Hres. cbn in Hres. by destruct e1, e2. }
  destruct Hboth as [-> ->].
  assert (Hin : In (unit, None) (go_returns new)).
  { rewrite Hrs. destruct unit, u1; cbn; tauto. }
  destruct (nil_after_delivery_find s _ unit new None _ Hin Hn)
    as [(pre & post & c & u & r & Hnew & (Hto & Htitle & Hmsg) & Hpost)
       |(post & c & u & r & w0 & [=] & _)].
  assert (Hr : r = mkRequest to title message (client.SecretKey r)).
  { destruct r. cbn in *. by subst. }
  exists pre, post, c, u, (client.SecretKey r).
  rewrite <- Hr. by split.
Qed.

Section Application.
Context `{Libs}.

Local Abbreviation svc := NewNotificationService.

(** What a nil from [Post] says of the network: the request was answered
    200 on the network as [w] has it, and the world after the [Post] has
    the network as that exchange left it. *)
Lemma World_Post_nil_inv ctx u reqBody (w : World) :
  fst (Post (httpclient svc) ctx u reqBody w) = None ->
  exists resp,
    http_Do ctx u reqBody (net (snd (snd w)))
    = ((resp, None),
       net (snd (snd (replay_event svc w (HTTPPost ctx u reqBody)))))
    /\ snd (resp_ReadAll resp) = None
    /\ resp_StatusCode resp = 200.
Proof.
  intros Hpost. cbn [replay_event].
  rewrite end_to_end.World_Post_eq in Hpost |- *. cbn [fst snd] in *.
  by apply client_more.HTTPClient_Post_nil_inv.
Qed.

(** X26.  [SendToSeller] returns nil only when both channels have
    delivered, in this very run.  The world [SendToSeller] leaves is the
    one its calls make, taken in the order of the trace.  For the Email
    goroutine and for the Push goroutine alike, the call right before it
    hands nil to the group is a [Post] carrying the recipient, title and
    message [SendToSeller] was given; on the network as the calls before
    that [Post] had left it, the endpoint answered the request with status
    200 and a readable body, and the network after the [Post] is the one
    that exchange left. *)
Theorem SendToSeller_nil_means_both_delivered sched ctx to title message
    (st : St (W := World)) :
  fst (SendToSeller svc sched ctx to title message st) = None ->
  exists new,
    snd (snd (SendToSeller svc sched ctx to title message st)) = snd st ++ new
    /\ fst (snd (SendToSeller svc sched ctx to title message st))
       = replay svc new (fst st)
    /\ forall unit : bool,
       exists pre post c u secret resp,
         new = pre ++ HTTPPost c u (mkRequest to title message secret)
                   :: GoReturn unit None :: post
         /\ http_Do c u (mkRequest to title message secret)
              (net (snd (snd (replay svc pre (fst st)))))
            = ((resp, None),
               net (snd (snd (replay svc
                                (pre ++ [HTTPPost c u (mkRequest to title
                                                         message secret)])
                                (fst st)))))
         /\ snd (resp_ReadAll resp) = None
         /\ resp_StatusCode resp = 200.
Proof.
  intros Hnil.
  destruct (SendToSeller_nil_posts svc sched ctx to title message st Hnil)
    as (new & Htr & Hw & Hposts).
  exists new. split; [done|]. split; [done|]. intros unit.
  destruct (Hposts unit) as (pre & post & c & u & secret & Hnew & Hpost).
  destruct (World_Post_nil_inv _ _ _ _ Hpost) as (resp & Hdo & Hread & Hst).
  exists pre, post, c, u, secret, resp.
  split; [done|]. split; [|done]. by rewrite replay_app.
Qed.

End Application.
End fanout_delivery.

(** ** More on the handler *)

Module handler_more.
Import repository client service app vocabulary.
Import preservation.

Section Handler.
Context {W : Type} (Error : error -> string) (n : handler.Notification W).

(** X27.  What [NotifyHandler] writes.  With 200, the message
    "nofitication sent".  With 422, code E101 and the text of the binding
    error.  With 500, code E102 and the text of an error, which is the
    error the service returned for the recipient, or "not supported
    recipient type" when the recipient is neither "buyer" nor "seller":
    the text of an internal error goes out in the body. *)
Theorem NotifyHandler_bodies (c : handler.gin_Context) (w : W) :
  let r := fst (handler.NotifyHandler Error n c w) in
  let req := fst (handler.ShouldBindBodyWithJSON c) in
  let ctx := handler.Request_Context c in
  let recipient := handler.Param_recipient c in
  (handler.code r = 200 ->
   handler.obj r = handler.gin_H [("message", "nofitication sent")])
  /\ (handler.code r = 422 ->
      exists err,
        snd (handler.ShouldBindBodyWithJSON c) = Some err
        /\ handler.obj r
           = handler.ErrorObject (handler.mkErrorHandler "E101" (Error err)))
  /\ (handler.code r = 500 ->
      exists err,
        handler.obj r
        = handler.ErrorObject (handler.mkErrorHandler "E102" (Error err))
        /\ ((recipient = "buyer"
             /\ fst (handler.SendToBuyer (handler.services n) ctx
                       (handler.To req) (handler.Title req)
                       (handler.Message req) w) = Some err)
            \/ (recipient = "seller"
                /\ fst (handler.SendToSeller (handler.services n) ctx
                          (handler.To req) (handler.Title req)
                          (handler.Message req) w) = Some err)
            \/ (recipient <> "buyer" /\ recipient <> "seller"
                /\ err = handler.not_supported))).
Proof.
  cbn zeta. unfold handler.NotifyHandler.
  destruct (handler.ShouldBindBodyWithJSON c) as [req [err|]]; cbn [fst snd].
  { cbn. split; [done|]. split; [|done]. intros _. by exists err. }
  rewrite bind_eq.
  unfold handler.RecipientTypeBuyer, handler.RecipientTypeSeller.
  destruct (String.eqb_spec (handler.Param_recipient c) "buyer") as [Hb|Hb].
  { destruct (fst (handler.SendToBuyer _ _ _ _ _ _)) as [e|] eqn:Hr; cbn;
      (split; [done|]); (split; [done|]); [|done].
    intros _. exists e. split; [done|]. left. by split. }
  destruct (String.eqb_spec (handler.Param_recipient c) "seller") as [Hs|Hs].
  { destruct (fst (handler.SendToSeller _ _ _ _ _ _)) as [e|] eqn:Hr; cbn;
      (split; [done|]); (split; [done|]); [|done].
    intros _. exists e. split; [done|]. right. left. by split. }
  cbn. split; [done|]. split; [done|]. intros _.
  exists handler.not_supported. split; [done|]. by right; right.
Qed.

End Handler.

Section Application.
Context `{Libs} (Error : error -> string).

Local Abbreviation svc := NewNotificationService.

(** X28.  From the handler to the network, for a seller: a request for
    recipient "seller" is answered 200 only when both channels have
    delivered, in this very run.  The world the handler leaves is the one
    the calls of its trace make, taken in order.  For the Email goroutine
    and the Push goroutine alike, the call right before it hands nil to
    the group is a [Post] carrying the recipient, title and message of the
    body; on the network as the calls before that [Post] had left it, the
    endpoint answered the request with status 200 and a readable body, and
    the network after the [Post] is the one that exchange left. *)
Theorem NotifyHandler_seller_200_means_delivered sched
    (c : handler.gin_Context) (st : St (W := World)) :
  handler.Param_recipient c = "seller" ->
  let r := handler.NotifyHandler Error
             (handler.mkNotification
                (handler.Service_NotificationProvider svc sched)) c st in
  let req := fst (handler.ShouldBindBodyWithJSON c) in
  handler.code (fst r) = 200 ->
  exists new,
    snd (snd r) = snd st ++ new
    /\ fst (snd r) = replay svc new (fst st)
    /\ forall unit : bool,
       exists pre post ctx u secret resp,
         new = pre ++
               HTTPPost ctx u
                 (mkRequest (handler.To req) (handler.Title req)
                            (handler.Message req) secret)
               :: GoReturn unit None :: post
         /\ http_Do ctx u
              (mkRequest (handler.To req) (handler.Title req)
                         (handler.Message req) secret)
              (net (snd (snd (replay svc pre (fst st)))))
            = ((resp, None),
               net (snd (snd (replay svc
                                (pre ++
                                 [HTTPPost ctx u
                                    (mkRequest (handler.To req)
                                       (handler.Title req)
                                       (handler.Message req) secret)])
                                (fst st)))))
         /\ snd (resp_ReadAll resp) = None
         /\ resp_StatusCode resp = 200.
Proof.
  intros Hs. cbn zeta. unfold handler.NotifyHandler.
  destruct (handler.ShouldBindBodyWithJSON c) as [req [err|]]; [done|].
  rewrite bind_eq, Hs.
  unfold handler.RecipientTypeBuyer, handler.RecipientTypeSeller.
  change (String.eqb "seller" "buyer") with false.
  rewrite String.eqb_refl.
  cbn [handler.services handler.SendToSeller
       handler.Service_NotificationProvider fst].
  destruct (fst (SendToSeller svc sched (handler.Request_Context c)
                   (handler.To req) (handler.Title req) (handler.Message req)
                   st)) eqn:Hr; [done|]. intros _.
  destruct (fanout_delivery.SendToSeller_nil_posts svc sched _ _ _ _ st Hr)
    as (new & Htr & Hw & Hposts).
  exists new. split; [exact Htr|]. split; [exact Hw|]. intros unit.
  destruct (Hposts unit) as (pre & post & ctx & u & secret & Hnew & Hpost).
  destruct (fanout_delivery.World_Post_nil_inv _ _ _ _ Hpost)
    as (resp & Hdo & Hread & Hstatus).
  exists pre, post, ctx, u, secret, resp.
  split; [done|]. split; [|done]. by rewrite fanout_delivery.replay_app.
Qed.

End Application.
End handler_more.

(** ** The further properties at work on the scenarios *)

Module checks_more.
Import repository client service app scenario vocabulary metrics scenario_more.

Lemma process0_wf : wf_registry process0.
Proof. intros host cb Hl. vm_compute in Hl. discriminate. Defined.

(** A write for Email leaves Push unanswered as before. *)
Lemma Cache_Set_other_channel_witness :
  fst (Cache_Get PushNotificationProvider
         (snd (Cache_Set EmailProvider [service1] (NewCache 600000000000 0))))
  = fst (Cache_Get PushNotificationProvider (NewCache 600000000000 0)).
Proof.
  apply (repository_more.Cache_Set_other_channel EmailProvider
           PushNotificationProvider [service1] (NewCache 600000000000 0)).
  discriminate.
Defined.

(** Ten minutes and a nanosecond after the write, the entry is gone. *)
Lemma Cache_Get_after_expiry_witness :
  fst (Cache_Get EmailProvider
         (elapse 600000000001
            (snd (Cache_Set EmailProvider [service1]
                    (NewCache 600000000000 0)))))
  = ([], Some (cache_not_found "notification:preferences:Email")).
Proof.
  apply (repository_more.Cache_Get_after_expiry EmailProvider [service1]
           (NewCache 600000000000 0) 600000000001); cbn; lia.
Defined.

(** With no live Email endpoint, two resolves a second apart read the
    store twice. *)
Lemma failed_resolve_not_cached_witness :
  store_calls
    (snd (snd (getNotificationPreferences svc Background EmailProvider
                 ((elapse 1000000000 (fst (fst cold)), snd (fst cold)),
                  snd (snd (getNotificationPreferences svc Background
                              EmailProvider cold))))))
  = 2%nat.
Proof.
  refine (proj2 (proj2
    (repository_more.failed_resolve_not_cached
       World_PersistentProvider World_HTTPClientProvider
       Background Background EmailProvider
       (fst (fst cold)) (snd (fst cold)) (snd (fst cold)) []
       1000000000 _ _))).
  - lia.
  - vm_compute. discriminate.
Defined.

(** The Email endpoints of [rows]: primary before backup, the retired one
    left out. *)
Lemma FindByProviderType_live_rows_in_order_witness :
  exists rs,
    map Host (map scan rs)
    = ["https://email-primary.example.com"; "https://email-backup.example.com"]
    /\ StronglySorted by_priority rs.
Proof.
  destruct (repository_more.FindByProviderType_live_rows_in_order
              Background EmailProvider (mkPersistent (mkDB rows None))
              (fst (fst (Persistent_FindByProviderType Background EmailProvider
                           (mkPersistent (mkDB rows None)))))
              (mkPersistent (mkDB rows None)) eq_refl)
    as (rs & Hrs & _ & Hsorted & _).
  exists rs. split; [|exact Hsorted]. rewrite <- Hrs. reflexivity.
Defined.

(** A notification to the Push endpoint, which answers 200. *)
Lemma HTTPClient_Post_nil_only_on_200_witness :
  exists resp,
    http_Do (Libs := libs) Background "https://push.example.com"
      (seller_request "k3") (net process0)
    = ((resp, None),
       net (snd (HTTPClient_Post Background "https://push.example.com"
                   (seller_request "k3") process0)))
    /\ snd (resp_ReadAll resp) = None
    /\ resp_StatusCode resp = 200.
Proof.
  destruct (proj1 (client_more.HTTPClient_Post_nil_only_on_200 (H := libs)
                     Background "https://push.example.com"
                     (seller_request "k3") process0))
    as (host & b0 & b & resp & _ & _ & _ & Hdo & Hread & Hstatus).
  - vm_compute. reflexivity.
  - by exists resp.
Defined.

(** A URL that does not parse. *)
Lemma HTTPClient_Post_sends_at_most_once_witness :
  HTTPClient_Post (H := libs) Background "" request process0
  = (Some (New "empty url"), process0).
Proof.
  apply (proj2 (client_more.HTTPClient_Post_sends_at_most_once (H := libs)
                  Background "" request process0)).
  reflexivity.
Defined.

(** The open breaker of the primary Email endpoint refuses the fourth
    request. *)
Lemma HTTPClient_Post_refused_witness :
  fst (HTTPClient_Post Background primary request tripped) = Some ErrOpenState
  /\ net (snd (HTTPClient_Post Background primary request tripped))
     = net tripped
  /\ breaker_of "email-primary.example.com"
       (snd (HTTPClient_Post Background primary request tripped))
     = Some 3%nat.
Proof.
  apply (client_more.HTTPClient_Post_refused (H := libs) Background primary
           request tripped "email-primary.example.com" 3%nat ErrOpenState
           3%nat).
  - reflexivity.
  - vm_compute. reflexivity.
  - reflexivity.
Defined.

(** The primary Email endpoint answers 503. *)
Lemma HTTPClient_Post_status_counts_as_success_witness :
  fst (HTTPClient_Post Background primary request process0)
  = Some status_not_200
  /\ net (snd (HTTPClient_Post Background primary request process0))
     = [primary]
  /\ breaker_of "email-primary.example.com"
       (snd (HTTPClient_Post Background primary request process0))
     = Some 0%nat.
Proof.
  apply (client_more.HTTPClient_Post_status_counts_as_success (H := libs)
           Background primary request process0 "email-primary.example.com"
           0%nat 0%nat (mkHTTPResponse 503 ("", None)) [primary]).
  - reflexivity.
  - vm_compute. reflexivity.
  - reflexivity.
  - reflexivity.
  - reflexivity.
  - cbn. lia.
Defined.

(** A request on a cancelled context fails in the transport. *)
Lemma HTTPClient_Post_transport_error_witness :
  fst (HTTPClient_Post cancelled primary request process0)
  = Some (UrlError "Post" primary Canceled)
  /\ net (snd (HTTPClient_Post cancelled primary request process0))
     = snd (http_Do (Libs := libs) cancelled primary request (net process0))
  /\ breaker_of "email-primary.example.com"
       (snd (HTTPClient_Post cancelled primary request process0))
     = Some 1%nat.
Proof.
  apply (client_more.HTTPClient_Post_transport_error (H := libs)
           cancelled primary request process0 "email-primary.example.com"
           0%nat 0%nat (UrlError "Post" primary Canceled)).
  - reflexivity.
  - vm_compute. reflexivity.
  - reflexivity.
  - reflexivity.
Defined.

(** The open breaker of the primary endpoint is not touched by a request
    to the backup. *)
Lemma HTTPClient_Post_other_hosts_witness :
  breaker_of "email-primary.example.com"
    (snd (HTTPClient_Post Background "https://email-backup.example.com"
            request tripped))
  = breaker_of "email-primary.example.com" tripped.
Proof.
  assert (Hwf : wf_registry tripped).
  { do 3 apply client_more.HTTPClient_Post_wf. exact process0_wf. }
  apply (proj2 (client_more.HTTPClient_Post_other_hosts (H := libs) Background
                  "https://email-backup.example.com" request tripped
                  "email-primary.example.com" Hwf ltac:(vm_compute; discriminate))).
Defined.

Lemma HTTPClient_Post_keeps_registry_witness :
  wf_registry (snd (HTTPClient_Post Background primary request process0)).
Proof.
  apply (client_more.HTTPClient_Post_keeps_registry (H := libs) Background
           primary request process0 process0_wf).
Defined.

(** A buyer notification on the scenario: the primary answers 503, the
    backup 200. *)
Lemma SendToBuyer_nil_means_delivered_witness :
  exists preference resp n,
    last (snd (snd (SendToBuyer svc Background "buyer@example.com" "Order"
                      "Paid" (world rows, []))))
    = Some (HTTPPost Background (Host preference)
              (mkRequest "buyer@example.com" "Order" "Paid"
                         (repository.SecretKey preference)))
    /\ http_Do (Libs := libs) Background (Host preference)
         (mkRequest "buyer@example.com" "Order" "Paid"
                    (repository.SecretKey preference)) n
       = ((resp, None),
          net (snd (snd (fst (snd (SendToBuyer svc Background
                                     "buyer@example.com" "Order" "Paid"
                                     (world rows, [])))))))
    /\ snd (resp_ReadAll resp) = None
    /\ resp_StatusCode resp = 200.
Proof.
  apply (end_to_end.SendToBuyer_nil_means_delivered (H := libs)).
  vm_compute. reflexivity.
Defined.

(** With no live Email endpoint the buyer gets record-not-found. *)
Lemma SendToBuyer_error_kinds_witness :
  ErrRecordNotFound = delivery_failed
  \/ ctx_err Background = Some ErrRecordNotFound
  \/ db_err (conn (fst (snd (fst cold)))) = Some ErrRecordNotFound
  \/ ErrRecordNotFound = ErrRecordNotFound.
Proof.
  apply (end_to_end.SendToBuyer_error_kinds (H := libs) Background
           "buyer@example.com" "Order" "Paid" cold ErrRecordNotFound).
  vm_compute. reflexivity.
Defined.

(** "Buyer" is not "buyer": the service is not called and the answer is
    not 200. *)
Lemma NotifyHandler_answers_witness :
  snd (handler.NotifyHandler Error notification Buyer_call (world rows, []))
  = (world rows, [])
  /\ handler.code
       (fst (handler.NotifyHandler Error notification Buyer_call
               (world rows, [])))
     <> 200.
Proof.
  apply (proj2 (proj2 (proj2
           (handler_facts.NotifyHandler_answers Error notification Buyer_call
              (world rows, []))))).
  right. split; discriminate.
Defined.

Lemma NotifyHandler_buyer_200_means_delivered_witness :
  exists preference resp n,
    http_Do (Libs := libs) Background (Host preference)
      (mkRequest "buyer@example.com" "Order" "Paid"
                 (repository.SecretKey preference)) n
    = ((resp, None),
       net (snd (snd (fst (snd (handler.NotifyHandler Error notification
                                  buyer_call (world rows, [])))))))
    /\ snd (resp_ReadAll resp) = None
    /\ resp_StatusCode resp = 200.
Proof.
  apply (handler_facts.NotifyHandler_buyer_200_means_delivered (H := libs)
           Error [] buyer_call (world rows, [])).
  - reflexivity.
  - vm_compute. reflexivity.
Defined.

(** A request to the primary Email endpoint once its breaker is open: the
    gauge reads 1. *)
Lemma HTTPClient_Post_recorded_state_witness :
  exists rest,
    snd (snd (HTTPClient_Post_recorded Error State_String
                NewHTTPClientCollector 1000 Background primary request
                (tripped, [])))
    = [] ++
      Int64Gauge_Record "http.client.circuit_breaker.state" 1
        [attribute_String "http.host" "email-primary.example.com";
         attribute_String "circuit_breaker.state" "open"]
      :: rest.
Proof.
  apply (metrics_facts.HTTPClient_Post_recorded_state (H := libs) Error
           State_String 1000 Background primary request tripped []
           "email-primary.example.com" 3%nat).
  - reflexivity.
  - reflexivity.
  - reflexivity.
  - reflexivity.
  - vm_compute. reflexivity.
Defined.

(** A seller notification on the scenario, the Push goroutine first: each
    goroutine hands nil to the group right after its [Post] was answered
    200 on the network of the run. *)
Lemma SendToSeller_nil_means_both_delivered_witness :
  exists new,
    snd (snd (SendToSeller svc [true; false; true] Background
                "seller@example.com" "Order" "Paid" (world rows, [])))
    = [] ++ new
    /\ fst (snd (SendToSeller svc [true; false; true] Background
                   "seller@example.com" "Order" "Paid" (world rows, [])))
       = replay svc new (world rows)
    /\ forall unit : bool,
       exists pre post c u secret resp,
         new = pre ++
               HTTPPost c u
                 (mkRequest "seller@example.com" "Order" "Paid" secret)
               :: GoReturn unit None :: post
         /\ http_Do (Libs := libs) c u
              (mkRequest "seller@example.com" "Order" "Paid" secret)
              (net (snd (snd (replay svc pre (world rows)))))
            = ((resp, None),
               net (snd (snd (replay svc
                                (pre ++
                                 [HTTPPost c u
                                    (mkRequest "seller@example.com" "Order"
                                               "Paid" secret)])
                                (world rows)))))
         /\ snd (resp_ReadAll resp) = None
         /\ resp_StatusCode resp = 200.
Proof.
  apply (fanout_delivery.SendToSeller_nil_means_both_delivered (H := libs)
           [true; false; true] Background "seller@example.com" "Order" "Paid"
           (world rows, [])).
  vm_compute. reflexivity.
Defined.

(** The body that does not bind is answered with code E101 and the text
    of the binding error. *)
Lemma NotifyHandler_bodies_witness :
  exists err,
    snd (handler.ShouldBindBodyWithJSON unbound_call) = Some err
    /\ handler.obj (fst (handler.NotifyHandler Error notification unbound_call
                           (world rows, [])))
       = handler.ErrorObject (handler.mkErrorHandler "E101" (Error err)).
Proof.
  apply (proj1 (proj2 (handler_more.NotifyHandler_bodies Error notification
                         unbound_call (world rows, [])))).
  reflexivity.
Defined.

(** A seller notification through the handler, on the scenario. *)
Lemma NotifyHandler_seller_200_means_delivered_witness :
  exists new,
    snd (snd (handler.NotifyHandler Error notification seller_call
                (world rows, [])))
    = [] ++ new
    /\ fst (snd (handler.NotifyHandler Error notification seller_call
                   (world rows, [])))
       = replay svc new (world rows)
    /\ forall unit : bool,
       exists pre post ctx u secret resp,
         new = pre ++
               HTTPPost ctx u
                 (mkRequest "seller@example.com" "Order" "Paid" secret)
               :: GoReturn unit None :: post
         /\ http_Do (Libs := libs) ctx u
              (mkRequest "seller@example.com" "Order" "Paid" secret)
              (net (snd (snd (replay svc pre (world rows)))))
            = ((resp, None),
               net (snd (snd (replay svc
                                (pre ++
                                 [HTTPPost ctx u
                                    (mkRequest "seller@example.com" "Order"
                                               "Paid" secret)])
                                (world rows)))))
         /\ snd (resp_ReadAll resp) = None
         /\ resp_StatusCode resp = 200.
Proof.
  apply (handler_more.NotifyHandler_seller_200_means_delivered (H := libs)
           Error [] seller_call (world rows, [])).
  - reflexivity.
  - vm_compute. reflexivity.
Defined.

End checks_more.
